(** * Authentication and session core of the ICAN membership portal

    A shallow embedding of the authentication slice of the backend:
    - [middleware/auth.js]: token generation, token verification and
      the request gate [authenticateToken];
    - [models/User]: the lockout counters, the password hashing hook
      and the refresh-token list of the user schema;
    - [routes/auth.js] and [routes/user.js]: the login, refresh, logout,
      forgot-password, reset-password and change-password handlers.

    Time is a number of milliseconds ([Date.now()]); a handler reads
    the clock once per request.  The database is the list of stored
    user documents in natural order; [findOne] returns the first
    match.  Handlers are modelled from the body given to
    [asyncHandler]: the input validators and the rate limiter that run
    before it belong to express-validator and express-rate-limit. *)

From Stdlib Require Import ZArith List String Bool Lia.
Import ListNotations.
Local Open Scope string_scope.
Local Open Scope Z_scope.

(** ** Process environment and bcrypt *)

(** The variables of [process.env] that the code reads.  Lifetimes are
    kept in seconds, the unit of the [exp] claim. *)
Class ProcessEnv := {
  JWT_SECRET : string;
  JWT_REFRESH_SECRET : string;
  JWT_EXPIRE : option Z;
  JWT_REFRESH_EXPIRE : option Z;
  NODE_ENV : option string
}.

(** bcryptjs: [bcrypt.hash(plain, salt)] and [bcrypt.compare(candidate, hash)]. *)
Class Bcrypt := {
  bcrypt_hash : string -> string -> string;
  bcrypt_compare : string -> string -> bool
}.

(** [a || b] on an optional setting. *)
Definition or_default {A} (a : option A) (b : A) : A :=
  match a with Some x => x | None => b end.

(** ** Errors and responses *)

(** What a handler can throw: [AppError] as its call sites construct
    it ([new AppError(message, statusCode)]), the two error classes of
    jsonwebtoken, and a plain [Error]. *)
Inductive Thrown :=
| AppError (message : string) (statusCode : Z)
| JsonWebTokenError (message : string)
| TokenExpiredError (message : string)
| Error (message : string).

Definition ObjectId := Z.

(** ** JSON web tokens *)

Module Jwt.

(** The claims the code places in a token, with [iat] and [exp] as
    jsonwebtoken adds them (seconds). *)
Record Payload := {
  userId : option ObjectId;
  type : option string;
  timestamp : option Z;
  iat : Z;
  exp : Z
}.

(** A token string: either a payload signed under a key (the
    encoding is deterministic, so equal strings are equal key and
    payload), or a string that does not parse. *)
Inductive Token :=
| Signed (key : string) (claims : Payload)
| Malformed (raw : string).

Definition Token_eq_dec (a b : Token) : {a = b} + {a <> b}.
Proof. repeat decide equality. Defined.

Definition Token_eqb (a b : Token) : bool :=
  if Token_eq_dec a b then true else false.

(** [jwt.sign(payload, secret, { expiresIn })] at clock [now]. *)
Definition sign (uid : option ObjectId) (ty : option string)
    (ts : option Z) (secret : string) (expiresIn : Z) (now : Z) : Token :=
  let issued := now / 1000 in
  Signed secret {| userId := uid; type := ty; timestamp := ts;
                   iat := issued; exp := issued + expiresIn |}.

(** [jwt.verify(token, secret)] at clock [now]: the signature is
    checked before the expiry. *)
Definition verify (token : Token) (secret : string) (now : Z)
    : Payload + Thrown :=
  match token with
  | Malformed _ => inr (JsonWebTokenError "jwt malformed")
  | Signed key claims =>
      if negb (String.eqb key secret) then
        inr (JsonWebTokenError "invalid signature")
      else if exp claims <=? now / 1000 then
        inr (TokenExpiredError "jwt expired")
      else inl claims
  end.

End Jwt.

Definition Token : Type := Jwt.Token.

(** ** The user document *)

Record RefreshToken := {
  token : Token;
  createdAt : Z;
  expiresAt : Z
}.

(** The fields of the user schema that authentication reads or writes.
    [password] is absent on a document loaded without it;
    [loginAttempts] carries the schema default 0 when unset. *)
Record User := {
  _id : ObjectId;
  email : string;
  password : option string;
  isActive : bool;
  passwordResetToken : option Token;
  passwordResetExpires : option Z;
  lastLogin : option Z;
  loginAttempts : Z;
  lockUntil : option Z;
  refreshTokens : list RefreshToken
}.

Definition DB := list User.

Definition with_password (v : option string) (u : User) : User :=
  {| _id := _id u; email := email u; password := v; isActive := isActive u;
     passwordResetToken := passwordResetToken u;
     passwordResetExpires := passwordResetExpires u;
     lastLogin := lastLogin u; loginAttempts := loginAttempts u;
     lockUntil := lockUntil u; refreshTokens := refreshTokens u |}.

Definition with_passwordResetToken (v : option Token) (u : User) : User :=
  {| _id := _id u; email := email u; password := password u;
     isActive := isActive u; passwordResetToken := v;
     passwordResetExpires := passwordResetExpires u;
     lastLogin := lastLogin u; loginAttempts := loginAttempts u;
     lockUntil := lockUntil u; refreshTokens := refreshTokens u |}.

Definition with_passwordResetExpires (v : option Z) (u : User) : User :=
  {| _id := _id u; email := email u; password := password u;
     isActive := isActive u; passwordResetToken := passwordResetToken u;
     passwordResetExpires := v;
     lastLogin := lastLogin u; loginAttempts := loginAttempts u;
     lockUntil := lockUntil u; refreshTokens := refreshTokens u |}.

Definition with_lastLogin (v : option Z) (u : User) : User :=
  {| _id := _id u; email := email u; password := password u;
     isActive := isActive u; passwordResetToken := passwordResetToken u;
     passwordResetExpires := passwordResetExpires u;
     lastLogin := v; loginAttempts := loginAttempts u;
     lockUntil := lockUntil u; refreshTokens := refreshTokens u |}.

Definition with_loginAttempts (v : Z) (u : User) : User :=
  {| _id := _id u; email := email u; password := password u;
     isActive := isActive u; passwordResetToken := passwordResetToken u;
     passwordResetExpires := passwordResetExpires u;
     lastLogin := lastLogin u; loginAttempts := v;
     lockUntil := lockUntil u; refreshTokens := refreshTokens u |}.

Definition with_lockUntil (v : option Z) (u : User) : User :=
  {| _id := _id u; email := email u; password := password u;
     isActive := isActive u; passwordResetToken := passwordResetToken u;
     passwordResetExpires := passwordResetExpires u;
     lastLogin := lastLogin u; loginAttempts := loginAttempts u;
     lockUntil := v; refreshTokens := refreshTokens u |}.

Definition with_refreshTokens (v : list RefreshToken) (u : User) : User :=
  {| _id := _id u; email := email u; password := password u;
     isActive := isActive u; passwordResetToken := passwordResetToken u;
     passwordResetExpires := passwordResetExpires u;
     lastLogin := lastLogin u; loginAttempts := loginAttempts u;
     lockUntil := lockUntil u; refreshTokens := v |}.

(** ** Mongoose documents *)

(** The paths of a document that the handlers assign. *)
Inductive Path :=
| path_password
| path_passwordResetToken
| path_passwordResetExpires
| path_lastLogin
| path_refreshTokens.

Definition Path_eqb (p q : Path) : bool :=
  match p, q with
  | path_password, path_password
  | path_passwordResetToken, path_passwordResetToken
  | path_passwordResetExpires, path_passwordResetExpires
  | path_lastLogin, path_lastLogin
  | path_refreshTokens, path_refreshTokens => true
  | _, _ => false
  end.

(** A document in memory: the field values and the paths assigned
    since it was loaded.  [save] writes the assigned paths only;
    [updateOne] goes to the database and leaves the document in memory
    as it was. *)
Record Document := {
  doc : User;
  modifiedPaths : list Path
}.

(** [this.isModified(path)] *)
Definition isModified (p : Path) (d : Document) : bool :=
  existsb (Path_eqb p) (modifiedPaths d).

Definition assign (p : Path) (f : User -> User) (d : Document) : Document :=
  {| doc := f (doc d); modifiedPaths := p :: modifiedPaths d |}.

(** [user.password = v].  Mongoose marks a path modified when the
    assigned value differs from the one the document holds. *)
Definition set_password (v : string) (d : Document) : Document :=
  match password (doc d) with
  | Some old =>
      if String.eqb old v then d
      else assign path_password (with_password (Some v)) d
  | None => assign path_password (with_password (Some v)) d
  end.

Definition set_passwordResetToken (v : option Token) : Document -> Document :=
  assign path_passwordResetToken (with_passwordResetToken v).

Definition set_passwordResetExpires (v : option Z) : Document -> Document :=
  assign path_passwordResetExpires (with_passwordResetExpires v).

Definition set_lastLogin (v : Z) : Document -> Document :=
  assign path_lastLogin (with_lastLogin (Some v)).

Definition set_refreshTokens (v : list RefreshToken) : Document -> Document :=
  assign path_refreshTokens (with_refreshTokens v).

(** A query result as a document; the schema declares [password] with
    [select: false], so it is loaded only under [.select('+password')]. *)
Definition hydrate (selectPassword : bool) (u : User) : Document :=
  {| doc := if selectPassword then u else with_password None u;
     modifiedPaths := [] |}.

(** [User.findOne(filter)] *)
Definition findOne (filter : User -> bool) (db : DB) : option User :=
  find filter db.

(** [User.findById(id)]; an undefined id matches no document. *)
Definition findById (id : option ObjectId) (db : DB) : option User :=
  match id with
  | Some i => find (fun u => _id u =? i) db
  | None => None
  end.

Definition by_email (e : string) (u : User) : bool := String.eqb (email u) e.

(** [{ "refreshTokens.token": t }] *)
Definition by_refreshToken (t : Token) (u : User) : bool :=
  existsb (fun tokenObj => Jwt.Token_eqb (token tokenObj) t) (refreshTokens u).

(** [{ passwordResetToken: t, passwordResetExpires: { $gt: now } }] *)
Definition by_resetToken (t : Token) (now : Z) (u : User) : bool :=
  match passwordResetToken u, passwordResetExpires u with
  | Some t', Some e => Jwt.Token_eqb t' t && (now <? e)
  | _, _ => false
  end.

(** Update operators of [updateOne]. *)
Inductive UpdateOp :=
| unset_loginAttempts
| unset_lockUntil
| set_loginAttempts (n : Z)
| set_lockUntil (t : Z)
| inc_loginAttempts (n : Z).

Definition applyOp (op : UpdateOp) (u : User) : User :=
  match op with
  | unset_loginAttempts => with_loginAttempts 0 u
  | unset_lockUntil => with_lockUntil None u
  | set_loginAttempts n => with_loginAttempts n u
  | set_lockUntil t => with_lockUntil (Some t) u
  | inc_loginAttempts n => with_loginAttempts (loginAttempts u + n) u
  end.

Definition applyOps (ops : list UpdateOp) (u : User) : User :=
  fold_left (fun acc op => applyOp op acc) ops u.

(** [this.updateOne(ops)]: the stored document with this id is updated. *)
Definition updateOne (db : DB) (id : ObjectId) (ops : list UpdateOp) : DB :=
  map (fun stored => if _id stored =? id then applyOps ops stored else stored) db.

Definition writePath (src : User) (p : Path) (stored : User) : User :=
  match p with
  | path_password => with_password (password src) stored
  | path_passwordResetToken =>
      with_passwordResetToken (passwordResetToken src) stored
  | path_passwordResetExpires =>
      with_passwordResetExpires (passwordResetExpires src) stored
  | path_lastLogin => with_lastLogin (lastLogin src) stored
  | path_refreshTokens => with_refreshTokens (refreshTokens src) stored
  end.

Definition persist (d : Document) (stored : User) : User :=
  fold_right (writePath (doc d)) stored (modifiedPaths d).

(** ** Schema hooks, virtuals and methods ([models/User]) *)

Section UserModel.
Context {bcrypt : Bcrypt}.

(** Virtual [isLocked]: [!!(this.lockUntil && this.lockUntil > Date.now())] *)
Definition isLocked (this : User) (now : Z) : bool :=
  match lockUntil this with
  | Some l => now <? l
  | None => false
  end.

(** [userSchema.pre('save')]: hash the password when it was modified;
    [salt] is what [bcrypt.genSalt(12)] returns. *)
Definition preSaveHashPassword (salt : string) (this : Document) : Document :=
  if negb (isModified path_password this) then this
  else
    match password (doc this) with
    | Some plain =>
        {| doc := with_password (Some (bcrypt_hash plain salt)) (doc this);
           modifiedPaths := modifiedPaths this |}
    | None => this
    end.

(** [doc.save()]: run the hook, write the modified paths to the
    stored document of the same id, and reset the modification marks.
    (The second hook of the schema fills [membershipId] on a new
    document; no handler below creates one.) *)
Definition save (db : DB) (salt : string) (this : Document) : DB * Document :=
  let hashed := preSaveHashPassword salt this in
  (map (fun stored =>
          if _id stored =? _id (doc hashed) then persist hashed stored
          else stored) db,
   {| doc := doc hashed; modifiedPaths := [] |}).

(** [comparePassword] *)
Definition comparePassword (this : User) (candidatePassword : string) : bool :=
  match password this with
  | None => false
  | Some h => if String.eqb h "" then false
              else bcrypt_compare candidatePassword h
  end.

(** [incLoginAttempts]: the update sent to [updateOne]. *)
Definition incLoginAttempts (this : User) (now : Z) : list UpdateOp :=
  let lockExpired :=
    match lockUntil this with Some l => l <? now | None => false end in
  if lockExpired then [unset_lockUntil; set_loginAttempts 1]
  else
    inc_loginAttempts 1 ::
    (if (5 <=? loginAttempts this + 1) && negb (isLocked this now)
     then [set_lockUntil (now + 2 * 60 * 60 * 1000)] else []).

(** [resetLoginAttempts] *)
Definition resetLoginAttempts : list UpdateOp :=
  [unset_loginAttempts; unset_lockUntil].

(** [cleanExpiredTokens] *)
Definition cleanExpiredTokens (db : DB) (salt : string) (this : Document)
    (now : Z) : DB * Document :=
  save db salt
    (set_refreshTokens
       (filter (fun tokenObj => now <? expiresAt tokenObj)
               (refreshTokens (doc this))) this).

End UserModel.

(** ** Token functions and the request gate ([middleware/auth.js]) *)

(** [user.toObject()] as the login handler returns it, within the
    fields of [User]: [password], [refreshTokens], [loginAttempts] and
    [lockUntil] are deleted, the virtual [isLocked] is included. *)
Record UserResponse := {
  res_id : ObjectId;
  res_email : string;
  res_isActive : bool;
  res_passwordResetToken : option Token;
  res_passwordResetExpires : option Z;
  res_lastLogin : option Z;
  res_isLocked : bool
}.

(** The [data] member of a response body. *)
Inductive Data :=
| userAndTokens (user : UserResponse) (accessToken refreshToken : Token)
| newToken (accessToken : Token).

(** The JSON body of a response, with the status it is sent under. *)
Record Response := {
  status : Z;
  success : bool;
  message : string;
  data : option Data;
  resetToken : option Token
}.

Definition json (code : Z) (ok : bool) (msg : string) : Response :=
  {| status := code; success := ok; message := msg;
     data := None; resetToken := None |}.

(** What a route handler ends with: a response, or an error passed to
    the error-handling middleware. *)
Inductive Outcome :=
| Sent (res : Response)
| Threw (err : Thrown).

(** What the gate ends with: [next()] with [req.user] set, or a response. *)
Inductive Gate :=
| next (req_user : User)
| halt (res : Response).

(** A token read from a request, as tested by [if (!token)]: absent
    when the field is missing or the empty string. *)
Definition present (t : option Token) : option Token :=
  match t with
  | Some (Jwt.Malformed "") => None
  | other => other
  end.

Section Middleware.
Context {env : ProcessEnv}.

Definition generateToken (userId : ObjectId) (now : Z) : Token :=
  Jwt.sign (Some userId) None None JWT_SECRET
    (or_default JWT_EXPIRE (24 * 60 * 60)) now.

Definition generateRefreshToken (userId : ObjectId) (now : Z) : Token :=
  Jwt.sign (Some userId) (Some "refresh") None JWT_REFRESH_SECRET
    (or_default JWT_REFRESH_EXPIRE (7 * 24 * 60 * 60)) now.

Definition generatePasswordResetToken (now : Z) : Token :=
  Jwt.sign None (Some "password-reset") (Some now) JWT_SECRET (60 * 60) now.

Definition generateEmailVerificationToken (userId : ObjectId) (now : Z)
    : Token :=
  Jwt.sign (Some userId) (Some "email-verification") None JWT_SECRET
    (24 * 60 * 60) now.

(** The shape shared by the three [verify...Token] functions: verify
    under [secret], then compare the [type] claim. *)
Definition verifyTyped (secret kind : string) (t : Token) (now : Z)
    : Jwt.Payload + Thrown :=
  match Jwt.verify t secret now with
  | inl decoded =>
      match Jwt.type decoded with
      | Some ty => if String.eqb ty kind then inl decoded
                   else inr (Error "Invalid token type")
      | None => inr (Error "Invalid token type")
      end
  | inr error => inr error
  end.

Definition verifyRefreshToken : Token -> Z -> Jwt.Payload + Thrown :=
  verifyTyped JWT_REFRESH_SECRET "refresh".

Definition verifyPasswordResetToken : Token -> Z -> Jwt.Payload + Thrown :=
  verifyTyped JWT_SECRET "password-reset".

Definition verifyEmailVerificationToken : Token -> Z -> Jwt.Payload + Thrown :=
  verifyTyped JWT_SECRET "email-verification".

(** [authenticateToken]; [bearer] is [authHeader.split(' ')[1]]. *)
Definition authenticateToken (db : DB) (bearer : option Token) (now : Z)
    : Gate :=
  match present bearer with
  | None => halt (json 401 false "Access token required")
  | Some t =>
      match Jwt.verify t JWT_SECRET now with
      | inl decoded =>
          match findById (Jwt.userId decoded) db with
          | None => halt (json 401 false "User not found")
          | Some stored =>
              let user := doc (hydrate false stored) in
              if negb (isActive user) then
                halt (json 401 false "Account is deactivated")
              else if isLocked user now then
                halt (json 401 false "Account is temporarily locked")
              else next user
          end
      | inr (JsonWebTokenError _) => halt (json 401 false "Invalid token")
      | inr (TokenExpiredError _) => halt (json 401 false "Token expired")
      | inr _ => halt (json 500 false "Authentication error")
      end
  end.

End Middleware.

(** ** Route handlers ([routes/auth.js], [routes/user.js]) *)

Section Routes.
Context {env : ProcessEnv} {bcrypt : Bcrypt}.

(** [user.toObject()] after the [delete]s of the login handler. *)
Definition toObject (user : User) (now : Z) : UserResponse :=
  {| res_id := _id user; res_email := email user;
     res_isActive := isActive user;
     res_passwordResetToken := passwordResetToken user;
     res_passwordResetExpires := passwordResetExpires user;
     res_lastLogin := lastLogin user;
     res_isLocked := isLocked user now |}.

Definition sevenDays : Z := 7 * 24 * 60 * 60 * 1000.

(** POST /api/auth/login *)
Definition login (db : DB) (email password : string) (now : Z)
    (salt : string) : DB * Outcome :=
  match findOne (by_email email) db with
  | None => (db, Threw (AppError "Invalid credentials" 401))
  | Some stored =>
      let user := hydrate true stored in
      if isLocked (doc user) now then
        (db, Threw (AppError
           "Account is temporarily locked due to too many failed login attempts"
           423))
      else if negb (isActive (doc user)) then
        (db, Threw (AppError "Account is deactivated" 401))
      else if negb (comparePassword (doc user) password) then
        (updateOne db (_id (doc user)) (incLoginAttempts (doc user) now),
         Threw (AppError "Invalid credentials" 401))
      else
        let db1 :=
          if 0 <? loginAttempts (doc user)
          then updateOne db (_id (doc user)) resetLoginAttempts
          else db in
        let (db2, user2) := save db1 salt (set_lastLogin now user) in
        let accessToken := generateToken (_id (doc user2)) now in
        let refreshToken := generateRefreshToken (_id (doc user2)) now in
        let (db3, user3) := cleanExpiredTokens db2 salt user2 now in
        let pushed :=
          set_refreshTokens
            (refreshTokens (doc user3) ++
             [{| token := refreshToken; createdAt := now;
                 expiresAt := now + sevenDays |}]) user3 in
        let (db4, user4) := save db3 salt pushed in
        (db4,
         Sent {| status := 200; success := true;
                 message := "Login successful";
                 data := Some (userAndTokens (toObject (doc user4) now)
                                 accessToken refreshToken);
                 resetToken := None |})
  end.

(** POST /api/auth/refresh; the handler writes nothing. *)
Definition refresh (db : DB) (refreshToken : option Token) (now : Z)
    : Outcome :=
  match present refreshToken with
  | None => Threw (AppError "Refresh token is required" 400)
  | Some rt =>
      match verifyRefreshToken rt now with
      | inr error => Threw error
      | inl decoded =>
          match findById (Jwt.userId decoded) db with
          | None => Threw (AppError "User not found" 404)
          | Some user =>
              let tokenExists :=
                existsb (fun tokenObj => Jwt.Token_eqb (token tokenObj) rt)
                        (refreshTokens user) in
              if negb tokenExists then
                Threw (AppError "Invalid refresh token" 401)
              else if negb (isActive user) then
                Threw (AppError "Account is deactivated" 401)
              else
                Sent {| status := 200; success := true;
                        message := "Token refreshed successfully";
                        data := Some (newToken (generateToken (_id user) now));
                        resetToken := None |}
          end
      end
  end.

(** POST /api/auth/logout *)
Definition logout (db : DB) (refreshToken : option Token) (salt : string)
    : DB * Outcome :=
  let done := Sent (json 200 true "Logged out successfully") in
  match present refreshToken with
  | None => (db, done)
  | Some rt =>
      match findOne (by_refreshToken rt) db with
      | None => (db, done)
      | Some stored =>
          let user := hydrate false stored in
          let kept :=
            filter (fun tokenObj => negb (Jwt.Token_eqb (token tokenObj) rt))
                   (refreshTokens (doc user)) in
          (fst (save db salt (set_refreshTokens kept user)), done)
      end
  end.

(** POST /api/auth/forgot-password *)
Definition forgotPassword (db : DB) (email : string) (now : Z)
    (salt : string) : DB * Outcome :=
  match findOne (by_email email) db with
  | None =>
      (db, Sent (json 200 true
         "If an account with that email exists, a password reset link has been sent"))
  | Some stored =>
      let user := hydrate false stored in
      let issued := generatePasswordResetToken now in
      let user1 := set_passwordResetToken (Some issued) user in
      let user2 := set_passwordResetExpires (Some (now + 60 * 60 * 1000)) user1 in
      (fst (save db salt user2),
       Sent {| status := 200; success := true;
               message := "Password reset instructions sent to your email";
               data := None;
               resetToken :=
                 match NODE_ENV with
                 | Some mode => if String.eqb mode "development"
                                then Some issued else None
                 | None => None
                 end |})
  end.

(** POST /api/auth/reset-password *)
Definition resetPassword (db : DB) (t : Token) (newPassword : string)
    (now : Z) (salt : string) : DB * Outcome :=
  match verifyPasswordResetToken t now with
  | inr _ => (db, Threw (AppError "Invalid or expired reset token" 400))
  | inl _ =>
      match findOne (by_resetToken t now) db with
      | None => (db, Threw (AppError "Invalid or expired reset token" 400))
      | Some stored =>
          let user := hydrate false stored in
          let user1 := set_password newPassword user in
          let user2 := set_passwordResetToken None user1 in
          let user3 := set_passwordResetExpires None user2 in
          let user4 := set_refreshTokens [] user3 in
          (fst (save db salt user4),
           Sent (json 200 true "Password reset successfully"))
      end
  end.

(** POST /api/user/change-password, behind the gate: [req_user] is
    the [req.user] set by [authenticateToken]. *)
Definition changePassword (db : DB) (req_user : User)
    (currentPassword newPassword : string) (salt : string) : DB * Outcome :=
  match findById (Some (_id req_user)) db with
  | None => (db, Threw (AppError "User not found" 404))
  | Some stored =>
      let user := hydrate true stored in
      if negb (comparePassword (doc user) currentPassword) then
        (db, Threw (AppError "Current password is incorrect" 400))
      else if comparePassword (doc user) newPassword then
        (db, Threw (AppError
           "New password must be different from current password" 400))
      else
        let user1 := set_password newPassword user in
        let user2 := set_refreshTokens [] user1 in
        (fst (save db salt user2),
         Sent (json 200 true
           "Password changed successfully. Please log in again."))
  end.

(** [app.use("/api/user", authenticateToken, userRoutes)] for the
    change-password route. *)
Definition changePasswordRoute (db : DB) (bearer : option Token)
    (currentPassword newPassword : string) (now : Z) (salt : string)
    : DB * Outcome :=
  match authenticateToken db bearer now with
  | halt res => (db, Sent res)
  | next req_user =>
      changePassword db req_user currentPassword newPassword salt
  end.

(** A run of login requests for one email, each with its password,
    clock and salt; the outcomes are returned in order. *)
Fixpoint loginRun (db : DB) (email : string)
    (attempts : list (string * Z * string)) : DB * list Outcome :=
  match attempts with
  | [] => (db, [])
  | (password, now, salt) :: rest =>
      let (db1, out) := login db email password now salt in
      let (db2, outs) := loginRun db1 email rest in
      (db2, out :: outs)
  end.

End Routes.

(** What the client receives: the response sent, or the one that the
    error-handling middleware makes of the error thrown.  That
    middleware ([middleware/errorHandler.js]) is not among the
    sources and is taken as a parameter. *)
Definition respond (errorHandler : Thrown -> Response) (o : Outcome)
    : Response :=
  match o with
  | Sent res => res
  | Threw err => errorHandler err
  end.

(** The outcomes that the properties below name. *)
Definition InvalidCredentials : Outcome :=
  Threw (AppError "Invalid credentials" 401).

Definition AccountLocked : Outcome :=
  Threw (AppError
    "Account is temporarily locked due to too many failed login attempts" 423).

Definition InvalidRefreshToken : Outcome :=
  Threw (AppError "Invalid refresh token" 401).

Definition InvalidResetToken : Outcome :=
  Threw (AppError "Invalid or expired reset token" 400).

Definition PasswordResetDone : Outcome :=
  Sent (json 200 true "Password reset successfully").

(** A response with status 200 and [success: true]. *)
Definition sent_ok (o : Outcome) : bool :=
  match o with
  | Sent res => (status res =? 200) && success res
  | Threw _ => false
  end.

(** ** Vocabulary of the properties *)

(** The subject a token string carries ([jwt.decode(t).userId]). *)
Definition subjectOf (t : Token) : option ObjectId :=
  match t with
  | Jwt.Signed _ claims => Jwt.userId claims
  | Jwt.Malformed _ => None
  end.

(** The two requests that replace a password. *)
Inductive PasswordChange :=
| viaReset (t : Token) (newPassword : string) (now : Z)
| viaChange (req_user : User) (currentPassword newPassword : string).

Section PasswordChanges.
Context {env : ProcessEnv} {bcrypt : Bcrypt}.

Definition passwordChange (db : DB) (c : PasswordChange) (salt : string)
    : DB * Outcome :=
  match c with
  | viaReset t newPassword now => resetPassword db t newPassword now salt
  | viaChange req_user currentPassword newPassword =>
      changePassword db req_user currentPassword newPassword salt
  end.

(** The account the request is about: the one the reset query
    matches, or the authenticated one. *)
Definition accountOf (db : DB) (c : PasswordChange) : option ObjectId :=
  match c with
  | viaReset t _ now => option_map _id (findOne (by_resetToken t now) db)
  | viaChange req_user _ _ => Some (_id req_user)
  end.

(** No refresh token with subject [id] can be exchanged in [db]. *)
Definition sessionsRevoked (db : DB) (id : ObjectId) : Prop :=
  exists u,
    findById (Some id) db = Some u /\
    refreshTokens u = [] /\
    forall rt now,
      subjectOf rt = Some id ->
      (exists err, refresh db (Some rt) now = Threw err) /\
      (forall decoded,
          verifyRefreshToken rt now = inl decoded ->
          refresh db (Some rt) now = InvalidRefreshToken).

End PasswordChanges.

(** A refresh-token entry whose token names account [id] as subject. *)
Definition ownedBy (id : ObjectId) (tokenObj : RefreshToken) : bool :=
  match subjectOf (token tokenObj) with
  | Some i => i =? id
  | None => false
  end.

(** Every listed refresh token names the account that lists it. *)
Definition tokensOwned (db : DB) : bool :=
  forallb (fun u => forallb (ownedBy (_id u)) (refreshTokens u)) db.

(** The requests of the authentication surface. *)
Inductive Request :=
| Login (email password : string)
| Refresh (refreshToken : option Token)
| Logout (refreshToken : option Token)
| ForgotPassword (email : string)
| ResetPassword (t : Token) (newPassword : string)
| ChangePassword (bearer : option Token) (currentPassword newPassword : string).

Section Server.
Context {env : ProcessEnv} {bcrypt : Bcrypt}.

(** One request served at clock [now], with [salt] at hand. *)
Definition handle (db : DB) (r : Request) (now : Z) (salt : string)
    : DB * Outcome :=
  match r with
  | Login e pw => login db e pw now salt
  | Refresh rt => (db, refresh db rt now)
  | Logout rt => logout db rt salt
  | ForgotPassword e => forgotPassword db e now salt
  | ResetPassword t pw => resetPassword db t pw now salt
  | ChangePassword bearer cur pw => changePasswordRoute db bearer cur pw now salt
  end.

(** The store after a sequence of requests. *)
Fixpoint serve (db : DB) (rs : list (Request * Z * string)) : DB :=
  match rs with
  | [] => db
  | (r, now, salt) :: rest => serve (fst (handle db r now salt)) rest
  end.

End Server.

(** The documents the two password-replacing handlers hand to [save]. *)
Definition resetDoc (stored : User) (newPassword : string) : Document :=
  set_refreshTokens []
    (set_passwordResetExpires None
       (set_passwordResetToken None
          (set_password newPassword (hydrate false stored)))).

Definition changeDoc (stored : User) (newPassword : string) : Document :=
  set_refreshTokens [] (set_password newPassword (hydrate true stored)).

(** ** A concrete deployment used to run the model *)

Module Sample.

Definition env : ProcessEnv :=
  {| JWT_SECRET := "access-secret";
     JWT_REFRESH_SECRET := "refresh-secret";
     JWT_EXPIRE := None;
     JWT_REFRESH_EXPIRE := None;
     NODE_ENV := Some "production" |}.

(** A stand-in for bcrypt: a four-character salt in front of the
    plaintext. *)
Definition bcrypt : Bcrypt :=
  {| bcrypt_hash := fun plain salt => String.append salt plain;
     bcrypt_compare := fun candidate h =>
       String.eqb (String.substring 4 (String.length h - 4) h) candidate |}.

Definition account (id : ObjectId) (mail plain : string) : User :=
  {| _id := id; email := mail;
     password := Some (@bcrypt_hash bcrypt plain "s4lt");
     isActive := true;
     passwordResetToken := None; passwordResetExpires := None;
     lastLogin := None; loginAttempts := 0; lockUntil := None;
     refreshTokens := [] |}.

Definition ada : User := account 1 "ada@x.com" "Abcdef1!".
Definition bob : User := account 2 "bob@x.com" "Qwerty2?".

Definition db : DB := [ada; bob].

(** 2024-01-15T10:30:00Z *)
Definition t0 : Z := 1705314600000.

(** Ada after four failed logins. *)
Definition db_four_failures : DB := [with_loginAttempts 4 ada; bob].

(** Ada with a lock that ran out one second before [t0]. *)
Definition db_lock_expired : DB :=
  [with_lockUntil (Some (t0 - 1000)) (with_loginAttempts 5 ada); bob].

(** Ada logged in at [t0]: one refresh token in her list. *)
Definition db_logged_in : DB :=
  fst (@login env bcrypt db "ada@x.com" "Abcdef1!" t0 "s4lt").

Definition ada_refreshToken : Token := @generateRefreshToken env 1 t0.

(** ... and asked for a password reset one second later. *)
Definition db_forgot : DB :=
  fst (@forgotPassword env bcrypt db_logged_in "ada@x.com" (t0 + 1000) "s4lt").

Definition ada_resetToken : Token :=
  @generatePasswordResetToken env (t0 + 1000).

(** Ada and Bob both asking for a reset within the millisecond [t0]. *)
Definition db_two_resets : DB :=
  fst (@forgotPassword env bcrypt
         (fst (@forgotPassword env bcrypt db "ada@x.com" t0 "s4lt"))
         "bob@x.com" t0 "s4lt").

Definition shared_resetToken : Token := @generatePasswordResetToken env t0.

(** An email-verification token for Ada, issued at [t0]. *)
Definition ada_emailToken : Token := @generateEmailVerificationToken env 1 t0.

End Sample.

(** * The rest of the authentication surface *)

(** ** Role checks and optional authentication ([middleware/auth.js]) *)

(** [req.user] as the role check reads it: the account and its
    [roles] path, [None] when the path is undefined. *)
Record Requester := {
  account : User;
  roles : option (list string)
}.

(** What a check in front of a route ends with. *)
Inductive Check :=
| proceed
| refuse (res : Response).

(** [requireRole(roles)]; the argument is named [allowed] here. *)
Definition requireRole (allowed : list string) (req_user : option Requester)
    : Check :=
  match req_user with
  | None => refuse (json 401 false "Authentication required")
  | Some user =>
      let userRoles := or_default (roles user) ["user"] in
      let hasRole :=
        existsb (fun role => existsb (String.eqb role) userRoles) allowed in
      if negb hasRole then refuse (json 403 false "Insufficient permissions")
      else proceed
  end.

Definition requireAdmin : option Requester -> Check :=
  requireRole ["admin"].

Definition requireModerator : option Requester -> Check :=
  requireRole ["admin"; "moderator"].

Section OptionalAuth.
Context {env : ProcessEnv}.

(** [optionalAuth]: [req.user] as the middleware leaves it; it calls
    [next()] on every path. *)
Definition optionalAuth (db : DB) (bearer : option Token) (now : Z)
    : option User :=
  match present bearer with
  | None => None
  | Some t =>
      match Jwt.verify t JWT_SECRET now with
      | inl decoded =>
          match findById (Jwt.userId decoded) db with
          | Some stored =>
              let user := doc (hydrate false stored) in
              if isActive user && negb (isLocked user now) then Some user
              else None
          | None => None
          end
      | inr _ => None
      end
  end.

End OptionalAuth.

(** ** Account deactivation ([routes/user.js]) *)

Definition with_isActive (v : bool) (u : User) : User :=
  {| _id := _id u; email := email u; password := password u;
     isActive := v; passwordResetToken := passwordResetToken u;
     passwordResetExpires := passwordResetExpires u;
     lastLogin := lastLogin u; loginAttempts := loginAttempts u;
     lockUntil := lockUntil u; refreshTokens := refreshTokens u |}.

(** [User.findByIdAndUpdate(id, update, { new: true })]: the stored
    document of this id is updated and returned; no [save] hook runs. *)
Definition findByIdAndUpdate (db : DB) (id : ObjectId) (update : User -> User)
    : DB * option User :=
  (map (fun stored => if _id stored =? id then update stored else stored) db,
   option_map update (findById (Some id) db)).

(** DELETE /api/user/account, behind the gate. *)
Definition deactivateAccount (db : DB) (req_user : User) : DB * Outcome :=
  let (db', user) :=
    findByIdAndUpdate db (_id req_user)
      (fun u => with_refreshTokens [] (with_isActive false u)) in
  match user with
  | None => (db', Threw (AppError "User not found" 404))
  | Some _ => (db', Sent (json 200 true "Account deactivated successfully"))
  end.

(** ** Vocabulary of the further properties *)

(** No two stored documents share an [_id]. *)
Fixpoint distinct (ids : list ObjectId) : bool :=
  match ids with
  | [] => true
  | i :: rest => negb (existsb (Z.eqb i) rest) && distinct rest
  end.

Definition uniqueIds (db : DB) : bool := distinct (map _id db).

(** The failed-attempt counter is not negative, and a lock is
    recorded only beside at least five failed attempts. *)
Definition lockRecorded (u : User) : bool :=
  (0 <=? loginAttempts u) &&
  match lockUntil u with
  | Some _ => 5 <=? loginAttempts u
  | None => true
  end.

Definition lockoutOk (db : DB) : bool :=
  uniqueIds db && forallb lockRecorded db.

(** The stored account after a successful login at [now], given the
    document [stored] the handler loaded. *)
Section AfterLogin.
Context {env : ProcessEnv}.

Definition afterLogin (stored : User) (now : Z) (s : User) : User :=
  with_refreshTokens
    (filter (fun tokenObj => now <? expiresAt tokenObj) (refreshTokens stored)
     ++ [{| token := generateRefreshToken (_id stored) now;
            createdAt := now;
            expiresAt := now + 7 * 24 * 60 * 60 * 1000 |}])
    (with_lastLogin (Some now)
       (if 0 <? loginAttempts stored
        then with_lockUntil None (with_loginAttempts 0 s)
        else s)).

End AfterLogin.

(** The access and refresh lifetimes in force, in seconds. *)
Definition accessLifetime {env : ProcessEnv} : Z :=
  or_default JWT_EXPIRE (24 * 60 * 60).

Definition refreshLifetime {env : ProcessEnv} : Z :=
  or_default JWT_REFRESH_EXPIRE (7 * 24 * 60 * 60).

(** The answer of the logout handler. *)
Definition loggedOut : Outcome :=
  Sent (json 200 true "Logged out successfully").

(** ** Further runs on the sample deployment *)

Module Scenario.

(** Ada's access token from her login at [Sample.t0]. *)
Definition ada_accessToken : Token := @generateToken Sample.env 1 Sample.t0.

(** Ada logged in a second time, five seconds after the first. *)
Definition db_two_sessions : DB :=
  fst (@login Sample.env Sample.bcrypt Sample.db_logged_in
         "ada@x.com" "Abcdef1!" (Sample.t0 + 5000) "s4lt").

Definition ada_secondRefreshToken : Token :=
  @generateRefreshToken Sample.env 1 (Sample.t0 + 5000).

(** An administrator, as the role checks see her. *)
Definition admin : Requester :=
  {| account := Sample.ada; roles := Some ["admin"] |}.

(** A day of traffic: a wrong password, a login, a forgotten
    password, a refresh, a reset and a logout. *)
Definition traffic : list (Request * Z * string) :=
  [(Login "ada@x.com" "wrong", Sample.t0, "s4lt");
   (Login "ada@x.com" "Abcdef1!", Sample.t0 + 1000, "s4lt");
   (ForgotPassword "bob@x.com", Sample.t0 + 2000, "s4lt");
   (Refresh (Some (@generateRefreshToken Sample.env 1 (Sample.t0 + 1000))),
    Sample.t0 + 3000, "s4lt");
   (ResetPassword (@generatePasswordResetToken Sample.env (Sample.t0 + 2000))
      "Newpass1", Sample.t0 + 4000, "n3w1");
   (Logout (Some (@generateRefreshToken Sample.env 1 (Sample.t0 + 1000))),
    Sample.t0 + 5000, "s4lt")].

Definition three_wrong : list (string * Z * string) :=
  [("wrong", Sample.t0, "s4lt"); ("Wrong", Sample.t0 + 1000, "s4lt");
   ("abcdef1!", Sample.t0 + 2000, "s4lt")].

End Scenario.

(** * Polls (the voting routes; the polls are a mutable array in memory) *)

Module Voting.

Record PollOption := {
  option_id : string;
  text : string;
  votes : Z
}.

Record Poll := {
  id : string;
  title : string;
  description : string;
  options : list PollOption;
  endDate : Z;
  hasVoted : bool;
  totalVotes : Z;
  createdAt : Z;
  category : string;
  isActive : bool;
  userVote : option string
}.

(** The first element that satisfies [p], replaced by its image: the
    object that [Array.prototype.find] returned, mutated in place. *)
Fixpoint update_first {A} (p : A -> bool) (f : A -> A) (l : list A) : list A :=
  match l with
  | [] => []
  | x :: rest => if p x then f x :: rest else x :: update_first p f rest
  end.

(** [selectedOption.votes += 1] *)
Definition countVote (opt : PollOption) : PollOption :=
  {| option_id := option_id opt; text := text opt; votes := votes opt + 1 |}.

(** The four assignments of the vote handler on the poll found. *)
Definition castVote (optionId : string) (poll : Poll) : Poll :=
  {| id := id poll; title := title poll; description := description poll;
     options :=
       update_first (fun opt => String.eqb (option_id opt) optionId)
                    countVote (options poll);
     endDate := endDate poll;
     hasVoted := true;
     totalVotes := totalVotes poll + 1;
     createdAt := createdAt poll; category := category poll;
     isActive := isActive poll;
     userVote := Some optionId |}.

(** What the vote handler ends with: the [data] of its 200 response,
    or the error thrown. *)
Inductive VoteResult :=
| voted (pollId selectedOption : string) (votedAt : Z)
| failed (err : Thrown).

(** POST /api/voting/polls/:id/vote *)
Definition vote (mockPolls : list Poll) (pollId optionId : string) (now : Z)
    : list Poll * VoteResult :=
  match find (fun p => String.eqb (id p) pollId) mockPolls with
  | None => (mockPolls, failed (AppError "Poll not found" 404))
  | Some poll =>
      if endDate poll <? now then
        (mockPolls, failed (AppError "Poll has ended" 400))
      else if hasVoted poll then
        (mockPolls, failed (AppError "You have already voted in this poll" 400))
      else
        match find (fun opt => String.eqb (option_id opt) optionId)
                   (options poll) with
        | None => (mockPolls, failed (AppError "Invalid option selected" 400))
        | Some selectedOption =>
            (update_first (fun p => String.eqb (id p) pollId)
                          (castVote optionId) mockPolls,
             voted (id poll) optionId now)
        end
  end.

(** One entry of the voting history. *)
Record HistoryEntry := {
  entry_pollId : string;
  pollTitle : string;
  selectedOption : option PollOption;
  votedAt : Z;
  pollStatus : string
}.

(** GET /api/voting/my-votes: [totalVotes] and [votes] of the [data]. *)
Definition myVotes (mockPolls : list Poll) (now : Z)
    : Z * list HistoryEntry :=
  let votedPolls := filter hasVoted mockPolls in
  let votingHistory :=
    map (fun poll =>
           {| entry_pollId := id poll;
              pollTitle := title poll;
              selectedOption :=
                match userVote poll with
                | Some chosen =>
                    find (fun opt => String.eqb (option_id opt) chosen)
                         (options poll)
                | None => None
                end;
              votedAt := createdAt poll;
              pollStatus := if endDate poll <? now then "ended" else "active" |})
        votedPolls in
  (Z.of_nat (List.length votingHistory), votingHistory).

(** [Array.prototype.slice(start, end)], negative indices included. *)
Definition slice {A} (l : list A) (start stop : Z) : list A :=
  let len := Z.of_nat (List.length l) in
  let k := if start <? 0 then Z.max (len + start) 0 else Z.min start len in
  let final := if stop <? 0 then Z.max (len + stop) 0 else Z.min stop len in
  firstn (Z.to_nat (Z.max (final - k) 0)) (skipn (Z.to_nat k) l).

(** [sort((a, b) => new Date(b.createdAt) - new Date(a.createdAt))]:
    newest first; the sort is stable, so polls created at the same
    instant keep their order. *)
Fixpoint insertNewest (x : Poll) (sorted : list Poll) : list Poll :=
  match sorted with
  | [] => [x]
  | y :: rest =>
      if createdAt y <=? createdAt x then x :: sorted
      else y :: insertNewest x rest
  end.

Definition sortNewestFirst (l : list Poll) : list Poll :=
  fold_right insertNewest [] l.

(** [Math.ceil(total / limit)] for a divisor other than 0. *)
Definition ceilDiv (total limit : Z) : Z := - ((- total) / limit).

(** The query string of the listing, [page] and [limit] as
    [parseInt] reads them. *)
Record Query := {
  query_page : option Z;
  query_limit : option Z;
  query_category : option string;
  query_status : option string;
  query_hasVoted : option string;
  query_search : option string
}.

Record Pagination := {
  page : Z;
  limit : Z;
  total : Z;
  totalPages : Z
}.

Record Listing := {
  data : list Poll;
  pagination : Pagination
}.

(** A query value as [if (value)] tests it. *)
Definition given (s : option string) : option string :=
  match s with
  | Some "" => None
  | other => other
  end.

Section Listing.
(** [String.prototype.toLowerCase] and [String.prototype.includes]. *)
Variable toLowerCase : string -> string.
Variable includes : string -> string -> bool.

(** The polls a query selects, filtered and sorted. *)
Definition matching (mockPolls : list Poll) (q : Query) (now : Z)
    : list Poll :=
  let byCategory :=
    match given (query_category q) with
    | Some c => filter (fun poll => String.eqb (category poll) c) mockPolls
    | None => mockPolls
    end in
  let status := or_default (query_status q) "all" in
  let byStatus :=
    if String.eqb status "all" then byCategory
    else if String.eqb status "active" then
      filter (fun poll => now <? endDate poll) byCategory
    else if String.eqb status "ended" then
      filter (fun poll => endDate poll <=? now) byCategory
    else byCategory in
  let byVoted :=
    match query_hasVoted q with
    | Some h =>
        let voted := String.eqb h "true" in
        filter (fun poll => Bool.eqb (hasVoted poll) voted) byStatus
    | None => byStatus
    end in
  let bySearch :=
    match given (query_search q) with
    | Some s =>
        filter (fun poll =>
                  includes (toLowerCase (title poll)) (toLowerCase s)
                  || includes (toLowerCase (description poll)) (toLowerCase s))
               byVoted
    | None => byVoted
    end in
  sortNewestFirst bySearch.

(** GET /api/voting/polls *)
Definition getPolls (mockPolls : list Poll) (q : Query) (now : Z) : Listing :=
  let page := or_default (query_page q) 1 in
  let limit := or_default (query_limit q) 10 in
  let filteredPolls := matching mockPolls q now in
  let total := Z.of_nat (List.length filteredPolls) in
  let startIndex := (page - 1) * limit in
  let endIndex := startIndex + limit in
  {| data := slice filteredPolls startIndex endIndex;
     pagination := {| page := page; limit := limit; total := total;
                      totalPages := ceilDiv total limit |} |}.

End Listing.

(** The same query for another page. *)
Definition atPage (q : Query) (k : Z) : Query :=
  {| query_page := Some k; query_limit := query_limit q;
     query_category := query_category q; query_status := query_status q;
     query_hasVoted := query_hasVoted q; query_search := query_search q |}.

(** The votes counted over the options of a poll. *)
Definition tally (poll : Poll) : Z :=
  fold_right (fun opt acc => votes opt + acc) 0 (options poll).

(** Newest first. *)
Fixpoint newestFirst (l : list Poll) : bool :=
  match l with
  | [] => true
  | x :: rest =>
      forallb (fun y => createdAt y <=? createdAt x) rest && newestFirst rest
  end.

End Voting.

(** The polls as the module builds them when it is loaded at [loaded],
    and two string functions to run the listing on ASCII text. *)

Module PollSample.
Import Voting.

Definition day : Z := 24 * 60 * 60 * 1000.

Definition mockPolls (loaded : Z) : list Poll :=
  [ {| id := "1";
       title := "Professional Development Priorities for 2024";
       description :=
         "Help us understand what professional development areas are most important to you.";
       options :=
         [ {| option_id := "opt1"; text := "Digital Skills & Technology";
              votes := 145 |};
           {| option_id := "opt2"; text := "Leadership & Management";
              votes := 98 |};
           {| option_id := "opt3"; text := "Regulatory Updates";
              votes := 167 |};
           {| option_id := "opt4"; text := "Ethics & Professional Conduct";
              votes := 89 |} ];
       endDate := loaded + 30 * day;
       hasVoted := false;
       totalVotes := 499;
       createdAt := loaded - 7 * day;
       category := "professional-development";
       isActive := true;
       userVote := None |};
    {| id := "2";
       title := "Preferred Format for CPD Programs";
       description :=
         "Which format do you prefer for continuing professional development programs?";
       options :=
         [ {| option_id := "opt1"; text := "In-person workshops";
              votes := 234 |};
           {| option_id := "opt2"; text := "Online webinars"; votes := 189 |};
           {| option_id := "opt3";
              text := "Hybrid (both online and in-person)"; votes := 156 |};
           {| option_id := "opt4"; text := "Self-paced online modules";
              votes := 98 |} ];
       endDate := loaded + 15 * day;
       hasVoted := true;
       totalVotes := 677;
       createdAt := loaded - 14 * day;
       category := "cpd";
       isActive := true;
       userVote := Some "opt2" |};
    {| id := "3";
       title := "Annual Conference Theme Selection";
       description := "Vote for the theme of the 2024 Annual ICAN Conference.";
       options :=
         [ {| option_id := "opt1"; text := "Sustainability in Accounting";
              votes := 78 |};
           {| option_id := "opt2"; text := "AI and the Future of Finance";
              votes := 134 |};
           {| option_id := "opt3"; text := "Ethical Leadership in Business";
              votes := 92 |};
           {| option_id := "opt4"; text := "Digital Transformation Journey";
              votes := 67 |} ];
       endDate := loaded - 5 * day;
       hasVoted := true;
       totalVotes := 371;
       createdAt := loaded - 45 * day;
       category := "events";
       isActive := false;
       userVote := Some "opt2" |} ].

Definition lowerAscii (c : Ascii.ascii) : Ascii.ascii :=
  let n := Ascii.nat_of_ascii c in
  if (Nat.leb 65 n && Nat.leb n 90)%bool then Ascii.ascii_of_nat (n + 32)
  else c.

Fixpoint toLowerCase (s : string) : string :=
  match s with
  | EmptyString => EmptyString
  | String c rest => String (lowerAscii c) (toLowerCase rest)
  end.

Definition includes (s sub : string) : bool :=
  match String.index 0 sub s with
  | Some _ => true
  | None => false
  end.

(** ?limit=2&status=all *)
Definition two_a_page : Query :=
  {| query_page := None; query_limit := Some 2; query_category := None;
     query_status := Some "all"; query_hasVoted := None;
     query_search := None |}.

(** ?status=active&hasVoted=true&search=CPD *)
Definition active_voted_cpd : Query :=
  {| query_page := None; query_limit := None; query_category := None;
     query_status := Some "active"; query_hasVoted := Some "true";
     query_search := Some "CPD" |}.

End PollSample.

(** * Notifications (the model and its routes) *)

Module Notifications.

(** A stored notification, with the fields that the handlers and the
    model's methods name. [updatedAt], which the [timestamps] option
    maintains and no handler reads, is left out, as are the texts and
    the channels. *)
Record Notification := {
  _id : ObjectId;
  userId : ObjectId;
  type : string;
  priority : string;
  isRead : bool;
  readAt : option Z;
  expiresAt : option Z;
  createdAt : Z
}.

Definition Collection := list Notification.

Definition with_read (read : bool) (at_time : option Z) (n : Notification)
    : Notification :=
  {| _id := _id n; userId := userId n; type := type n;
     priority := priority n; isRead := read; readAt := at_time;
     expiresAt := expiresAt n; createdAt := createdAt n |}.

Definition with_expiresAt (e : option Z) (n : Notification) : Notification :=
  {| _id := _id n; userId := userId n; type := type n;
     priority := priority n; isRead := isRead n; readAt := readAt n;
     expiresAt := e; createdAt := createdAt n |}.

(** [pre('save')]: a missing expiry becomes 7 days from now for a
    system notification and 30 days for any other. *)
Definition preSaveExpiry (now : Z) (n : Notification) : Notification :=
  match expiresAt n with
  | Some _ => n
  | None =>
      let daysToExpire := if String.eqb (type n) "system" then 7 else 30 in
      with_expiresAt (Some (now + daysToExpire * 24 * 60 * 60 * 1000)) n
  end.

(** [save] of a document that was loaded from the collection: the
    hook runs, and the paths that the methods and the hook assign are
    written to the stored document of that [_id]. *)
Definition save (store : Collection) (n : Notification) (now : Z)
    : Collection * Notification :=
  let hooked := preSaveExpiry now n in
  (map (fun d =>
          if _id d =? _id hooked then
            with_expiresAt (expiresAt hooked)
              (with_read (isRead hooked) (readAt hooked) d)
          else d)
       store,
   hooked).

Definition markAsRead (store : Collection) (n : Notification) (now : Z)
    : Collection * Notification :=
  save store (with_read true (Some now) n) now.

Definition markAsUnread (store : Collection) (n : Notification) (now : Z)
    : Collection * Notification :=
  save store (with_read false None n) now.

Definition countDocuments (filter_by : Notification -> bool)
    (store : Collection) : Z :=
  Z.of_nat (List.length (filter filter_by store)).

Definition getUnreadCount (store : Collection) (user : ObjectId) : Z :=
  countDocuments (fun d => (userId d =? user) && negb (isRead d)) store.

(** [updateMany({ userId, isRead: false }, { isRead: true, readAt })],
    with its [modifiedCount]. *)
Definition markAllAsReadForUser (store : Collection) (user : ObjectId)
    (now : Z) : Collection * Z :=
  let selected d := (userId d =? user) && negb (isRead d) in
  (map (fun d => if selected d then with_read true (Some now) d else d) store,
   countDocuments selected store).

(** [deleteMany], with its [deletedCount]. *)
Definition deleteMany (filter_by : Notification -> bool) (store : Collection)
    : Collection * Z :=
  (filter (fun d => negb (filter_by d)) store, countDocuments filter_by store).

(** [findOneAndDelete]: the first match is removed and returned. *)
Fixpoint findOneAndDelete (filter_by : Notification -> bool)
    (store : Collection) : Collection * option Notification :=
  match store with
  | [] => ([], None)
  | d :: rest =>
      if filter_by d then (rest, Some d)
      else let (rest', found) := findOneAndDelete filter_by rest in
           (d :: rest', found)
  end.

(** [cleanup]: read notifications created more than 30 days ago go. *)
Definition cleanup (store : Collection) (now : Z) : Collection * Z :=
  let thirtyDaysAgo := now - 30 * 24 * 60 * 60 * 1000 in
  deleteMany (fun d => (createdAt d <? thirtyDaysAgo) && isRead d) store.

(** What a route answers with: a message and the notification, a
    message that starts with a count, a message alone, or the unread
    count. *)
Inductive Reply :=
| withNotification (message : string) (data : Notification)
| withCount (count : Z) (message : string)
| withMessage (message : string)
| unreadCount (count : Z).

Inductive Result :=
| sent (reply : Reply)
| threw (err : Thrown).

Definition NotFound : Thrown := AppError "Notification not found" 404.

(** The filter [{ _id: req.params.id, userId: req.user._id }]. *)
Definition owned (id user : ObjectId) (d : Notification) : bool :=
  (_id d =? id) && (userId d =? user).

(** GET /api/notifications/unread-count *)
Definition getUnread (store : Collection) (user : ObjectId) : Result :=
  sent (unreadCount (getUnreadCount store user)).

(** PUT /api/notifications/:id/read *)
Definition putRead (store : Collection) (user id : ObjectId) (now : Z)
    : Collection * Result :=
  match find (owned id user) store with
  | None => (store, threw NotFound)
  | Some notification =>
      let (store', saved) := markAsRead store notification now in
      (store', sent (withNotification "Notification marked as read" saved))
  end.

(** PUT /api/notifications/:id/unread *)
Definition putUnread (store : Collection) (user id : ObjectId) (now : Z)
    : Collection * Result :=
  match find (owned id user) store with
  | None => (store, threw NotFound)
  | Some notification =>
      let (store', saved) := markAsUnread store notification now in
      (store', sent (withNotification "Notification marked as unread" saved))
  end.

(** PUT /api/notifications/mark-all-read *)
Definition putMarkAllRead (store : Collection) (user : ObjectId) (now : Z)
    : Collection * Result :=
  let (store', modifiedCount) := markAllAsReadForUser store user now in
  (store', sent (withCount modifiedCount " notifications marked as read")).

(** DELETE /api/notifications/clear-read *)
Definition deleteClearRead (store : Collection) (user : ObjectId)
    : Collection * Result :=
  let (store', deletedCount) :=
    deleteMany (fun d => (userId d =? user) && isRead d) store in
  (store', sent (withCount deletedCount " read notifications deleted")).

(** DELETE /api/notifications/:id *)
Definition deleteNotification (store : Collection) (user id : ObjectId)
    : Collection * Result :=
  match findOneAndDelete (owned id user) store with
  | (_, None) => (store, threw NotFound)
  | (store', Some _) =>
      (store', sent (withMessage "Notification deleted successfully"))
  end.

(** The routes that write, as requests of an authenticated user. *)
Inductive Request :=
| PutRead (id : ObjectId)
| PutUnread (id : ObjectId)
| PutMarkAllRead
| DeleteClearRead
| DeleteNotification (id : ObjectId).

Definition handle (store : Collection) (user : ObjectId) (now : Z)
    (req : Request) : Collection * Result :=
  match req with
  | PutRead id => putRead store user id now
  | PutUnread id => putUnread store user id now
  | PutMarkAllRead => putMarkAllRead store user now
  | DeleteClearRead => deleteClearRead store user
  | DeleteNotification id => deleteNotification store user id
  end.

(** A run of requests, each with its requester and its clock. *)
Fixpoint serve (store : Collection)
    (trace : list (ObjectId * Z * Request)) : Collection :=
  match trace with
  | [] => store
  | (user, now, req) :: rest => serve (fst (handle store user now req)) rest
  end.

(** The notifications of a user, in the order of the collection. *)
Definition ofUser (user : ObjectId) (store : Collection) : Collection :=
  filter (fun d => userId d =? user) store.

Definition distinctIds (store : Collection) : bool :=
  distinct (map _id store).

(** A write to the document of one [_id]. *)
Definition rewrite_at (id : ObjectId) (g : Notification -> Notification)
    (d : Notification) : Notification :=
  if _id d =? id then g d else d.


(** Four notifications of two users. *)
Definition inbox : Collection :=
  [ {| _id := 101; userId := 1; type := "cpd"; priority := "medium";
       isRead := false; readAt := None; expiresAt := None;
       createdAt := 1705314000000 |};
    {| _id := 102; userId := 2; type := "system"; priority := "urgent";
       isRead := false; readAt := None; expiresAt := None;
       createdAt := 1705314100000 |};
    {| _id := 103; userId := 1; type := "event"; priority := "low";
       isRead := true; readAt := Some 1705314300000;
       expiresAt := Some 1707906200000; createdAt := 1705314200000 |};
    {| _id := 104; userId := 1; type := "system"; priority := "high";
       isRead := false; readAt := None; expiresAt := None;
       createdAt := 1705314250000 |} ].

(** Requests of user 1, none of user 2. *)
Definition busy : list (ObjectId * Z * Request) :=
  [ (1, 1705314600000, PutRead 101);
    (1, 1705314601000, PutRead 102);
    (1, 1705314602000, DeleteNotification 103);
    (1, 1705314603000, PutUnread 101);
    (1, 1705314604000, PutMarkAllRead);
    (1, 1705314605000, DeleteClearRead) ].

End Notifications.

(** * Properties *)

(** ** Stored documents under [updateOne] and [save] *)

Lemma find_map_stable (f : User -> User) (q : User -> bool) (db : DB) :
  (forall u, q (f u) = q u) ->
  find q (map f db) = option_map f (find q db).
Proof.
  intros Hq. induction db as [|u rest IH]; [reflexivity|].
  simpl. rewrite Hq. destruct (q u); [reflexivity | exact IH].
Qed.

Lemma applyOps_id ops u : _id (applyOps ops u) = _id u.
Proof.
  unfold applyOps. revert u.
  induction ops as [|op ops IH]; intro u; [reflexivity|].
  simpl. rewrite IH. destruct op; reflexivity.
Qed.

Lemma applyOps_email ops u : email (applyOps ops u) = email u.
Proof.
  unfold applyOps. revert u.
  induction ops as [|op ops IH]; intro u; [reflexivity|].
  simpl. rewrite IH. destruct op; reflexivity.
Qed.

Lemma persist_id d s : _id (persist d s) = _id s.
Proof.
  unfold persist. induction (modifiedPaths d) as [|p ps IH]; [reflexivity|].
  simpl. destruct p; exact IH.
Qed.

Lemma persist_email d s : email (persist d s) = email s.
Proof.
  unfold persist. induction (modifiedPaths d) as [|p ps IH]; [reflexivity|].
  simpl. destruct p; exact IH.
Qed.

Lemma persist_loginAttempts d s : loginAttempts (persist d s) = loginAttempts s.
Proof.
  unfold persist. induction (modifiedPaths d) as [|p ps IH]; [reflexivity|].
  simpl. destruct p; exact IH.
Qed.

Lemma persist_lockUntil d s : lockUntil (persist d s) = lockUntil s.
Proof.
  unfold persist. induction (modifiedPaths d) as [|p ps IH]; [reflexivity|].
  simpl. destruct p; exact IH.
Qed.

Lemma persist_isActive d s : isActive (persist d s) = isActive s.
Proof.
  unfold persist. induction (modifiedPaths d) as [|p ps IH]; [reflexivity|].
  simpl. destruct p; exact IH.
Qed.

(** Each assignable path after [persist]: the value of the document
    in memory if the path is marked, the stored value otherwise. *)
Lemma persist_password d s :
  password (persist d s) =
  if isModified path_password d then password (doc d) else password s.
Proof.
  unfold persist, isModified.
  induction (modifiedPaths d) as [|p ps IH]; [reflexivity|].
  simpl. destruct p; simpl; try exact IH; reflexivity.
Qed.

Lemma persist_refreshTokens d s :
  refreshTokens (persist d s) =
  if isModified path_refreshTokens d then refreshTokens (doc d)
  else refreshTokens s.
Proof.
  unfold persist, isModified.
  induction (modifiedPaths d) as [|p ps IH]; [reflexivity|].
  simpl. destruct p; simpl; try exact IH; reflexivity.
Qed.

Lemma persist_passwordResetToken d s :
  passwordResetToken (persist d s) =
  if isModified path_passwordResetToken d then passwordResetToken (doc d)
  else passwordResetToken s.
Proof.
  unfold persist, isModified.
  induction (modifiedPaths d) as [|p ps IH]; [reflexivity|].
  simpl. destruct p; simpl; try exact IH; reflexivity.
Qed.

Lemma persist_passwordResetExpires d s :
  passwordResetExpires (persist d s) =
  if isModified path_passwordResetExpires d then passwordResetExpires (doc d)
  else passwordResetExpires s.
Proof.
  unfold persist, isModified.
  induction (modifiedPaths d) as [|p ps IH]; [reflexivity|].
  simpl. destruct p; simpl; try exact IH; reflexivity.
Qed.

Lemma findOne_email_updateOne db id ops e :
  findOne (by_email e) (updateOne db id ops) =
  option_map (fun s => if _id s =? id then applyOps ops s else s)
             (findOne (by_email e) db).
Proof.
  unfold findOne, updateOne. apply find_map_stable.
  intro u. unfold by_email.
  destruct (_id u =? id); [rewrite applyOps_email|]; reflexivity.
Qed.

(** ** Lockout policy *)

Section LockoutProperties.
Context {env : ProcessEnv} {bcrypt : Bcrypt}.

Lemma incLoginAttempts_expired this now l :
  lockUntil this = Some l -> l < now ->
  incLoginAttempts this now = [unset_lockUntil; set_loginAttempts 1].
Proof.
  intros Hl Hlt. unfold incLoginAttempts. rewrite Hl.
  destruct (Z.ltb_spec l now); [reflexivity | lia].
Qed.

Lemma isLocked_expired this now l :
  lockUntil this = Some l -> l < now -> isLocked this now = false.
Proof.
  intros Hl Hlt. unfold isLocked. rewrite Hl. apply Z.ltb_ge. lia.
Qed.

(** A failed attempt on an unlocked account either restarts the
    counter at 1 or adds one to it, and in the second case sets the
    lock exactly when the new count is at least 5. *)
Lemma incLoginAttempts_unlocked this now :
  isLocked this now = false ->
  let after := applyOps (incLoginAttempts this now) this in
  (loginAttempts after = 1 /\ lockUntil after = None) \/
  (loginAttempts after = loginAttempts this + 1 /\
   (5 <= loginAttempts after ->
    lockUntil after = Some (now + 2 * 60 * 60 * 1000))).
Proof.
  intros Hunlocked. unfold incLoginAttempts. rewrite Hunlocked.
  destruct (match lockUntil this with Some l => l <? now | None => false end).
  - left. split; reflexivity.
  - right. simpl negb. rewrite andb_true_r.
    destruct (Z.leb_spec 5 (loginAttempts this + 1)); simpl.
    + split; [reflexivity | intros _; reflexivity].
    + split; [reflexivity | intros; lia].
Qed.

(** What a password mismatch on an active, unlocked account does. *)
Lemma login_wrong_password db e pw now salt u :
  findOne (by_email e) db = Some u ->
  isLocked u now = false ->
  isActive u = true ->
  comparePassword u pw = false ->
  login db e pw now salt =
    (updateOne db (_id u) (incLoginAttempts u now), InvalidCredentials) /\
  findOne (by_email e) (updateOne db (_id u) (incLoginAttempts u now)) =
    Some (applyOps (incLoginAttempts u now) u).
Proof.
  intros Hfind Hunlocked Hactive Hpw. split.
  - unfold login. rewrite Hfind. simpl.
    rewrite Hunlocked, Hactive, Hpw. reflexivity.
  - rewrite findOne_email_updateOne, Hfind. simpl.
    rewrite Z.eqb_refl. reflexivity.
Qed.

(** While the lock is in the future, login answers 423 before the
    password is looked at and writes nothing. *)
Lemma login_locked db e pw now salt u :
  findOne (by_email e) db = Some u ->
  isLocked u now = true ->
  login db e pw now salt = (db, AccountLocked).
Proof.
  intros Hfind Hlocked. unfold login. rewrite Hfind. simpl.
  rewrite Hlocked. reflexivity.
Qed.

Lemma loginRun_locked db e u l attempts :
  findOne (by_email e) db = Some u ->
  lockUntil u = Some l ->
  forallb (fun a => snd (fst a) <? l) attempts = true ->
  loginRun db e attempts = (db, map (fun _ => AccountLocked) attempts).
Proof.
  intros Hfind Hl.
  induction attempts as [|[[pw now] salt] rest IH]; intro Hall.
  - reflexivity.
  - simpl in Hall. apply andb_true_iff in Hall as [Hnow Hrest].
    simpl. rewrite (login_locked db e pw now salt u Hfind).
    + rewrite (IH Hrest). reflexivity.
    + unfold isLocked. rewrite Hl. exact Hnow.
Qed.

(** C2: on an unlocked, active account a failed login that leaves the
    failed-attempt counter at 5 sets lock-until to now + 2 hours, and
    every later login for that account made before lock-until is
    answered with AccountLocked (423), whatever password it carries,
    and leaves the store as it is. *)
Theorem C2_fifth_failure_locks db e pw now salt u :
  findOne (by_email e) db = Some u ->
  isLocked u now = false ->
  isActive u = true ->
  comparePassword u pw = false ->
  forall u',
    findOne (by_email e) (fst (login db e pw now salt)) = Some u' ->
    loginAttempts u' = 5 ->
    snd (login db e pw now salt) = InvalidCredentials /\
    lockUntil u' = Some (now + 2 * 60 * 60 * 1000) /\
    forall attempts,
      forallb (fun a => snd (fst a) <? now + 2 * 60 * 60 * 1000) attempts
        = true ->
      loginRun (fst (login db e pw now salt)) e attempts =
        (fst (login db e pw now salt),
         map (fun _ => AccountLocked) attempts).
Proof.
  intros Hfind Hunlocked Hactive Hpw u' Hfind' Hfive.
  destruct (login_wrong_password db e pw now salt u
              Hfind Hunlocked Hactive Hpw) as [Hlogin Hstored].
  rewrite Hlogin in *. simpl fst in *. simpl snd.
  rewrite Hstored in Hfind'. injection Hfind' as <-.
  assert (Hlock : lockUntil (applyOps (incLoginAttempts u now) u)
                  = Some (now + 2 * 60 * 60 * 1000)).
  { destruct (incLoginAttempts_unlocked u now Hunlocked) as [[H1 _]|[_ H5]].
    - rewrite H1 in Hfive. discriminate.
    - apply H5. lia. }
  split; [reflexivity|]. split; [exact Hlock|].
  intros attempts Hall.
  exact (loginRun_locked _ e _ _ attempts Hstored Hlock Hall).
Qed.

(** C8: when lock-until lies in the past, the next failed login (a
    password mismatch on the active account) removes lock-until and
    sets the failed-attempt counter to exactly 1, whatever the
    counter was. *)
Theorem C8_expired_lock_restarts_at_one db e pw now salt u l :
  findOne (by_email e) db = Some u ->
  lockUntil u = Some l ->
  l < now ->
  isActive u = true ->
  comparePassword u pw = false ->
  incLoginAttempts u now = [unset_lockUntil; set_loginAttempts 1] /\
  snd (login db e pw now salt) = InvalidCredentials /\
  exists u',
    findOne (by_email e) (fst (login db e pw now salt)) = Some u' /\
    loginAttempts u' = 1 /\
    lockUntil u' = None.
Proof.
  intros Hfind Hl Hlt Hactive Hpw.
  pose proof (incLoginAttempts_expired u now l Hl Hlt) as Hops.
  destruct (login_wrong_password db e pw now salt u Hfind
              (isLocked_expired u now l Hl Hlt) Hactive Hpw)
    as [Hlogin Hstored].
  split; [exact Hops|]. rewrite Hlogin. split; [reflexivity|].
  eexists. split; [exact Hstored|].
  rewrite Hops. split; reflexivity.
Qed.

(** C4: a login for an email no account has and a login with a wrong
    password for an existing, active, unlocked account end in the
    same error, AppError "Invalid credentials" with status 401, and so
    in the same response, whatever the error-handling middleware makes
    of an error. *)
Theorem C4_login_failures_indistinguishable
    db1 e1 pw1 now1 salt1 db2 e2 pw2 now2 salt2 u :
  findOne (by_email e1) db1 = None ->
  findOne (by_email e2) db2 = Some u ->
  isLocked u now2 = false ->
  isActive u = true ->
  comparePassword u pw2 = false ->
  snd (login db1 e1 pw1 now1 salt1) = Threw (AppError "Invalid credentials" 401) /\
  snd (login db2 e2 pw2 now2 salt2) = snd (login db1 e1 pw1 now1 salt1) /\
  forall errorHandler,
    respond errorHandler (snd (login db2 e2 pw2 now2 salt2)) =
    respond errorHandler (snd (login db1 e1 pw1 now1 salt1)).
Proof.
  intros Hnone Hfind Hunlocked Hactive Hpw.
  destruct (login_wrong_password db2 e2 pw2 now2 salt2 u
              Hfind Hunlocked Hactive Hpw) as [Hlogin _].
  rewrite Hlogin. unfold login. rewrite Hnone.
  split; [reflexivity|]. split; [reflexivity|]. intro errorHandler. reflexivity.
Qed.

End LockoutProperties.

(** ** Password hashing hook *)

Section SaveProperties.
Context {bcrypt : Bcrypt}.

Lemma preSaveHashPassword_id salt d :
  _id (doc (preSaveHashPassword salt d)) = _id (doc d).
Proof.
  unfold preSaveHashPassword.
  destruct (negb (isModified path_password d)); [reflexivity|].
  destruct (password (doc d)); reflexivity.
Qed.

Lemma preSaveHashPassword_modifiedPaths salt d :
  modifiedPaths (preSaveHashPassword salt d) = modifiedPaths d.
Proof.
  unfold preSaveHashPassword.
  destruct (negb (isModified path_password d)); [reflexivity|].
  destruct (password (doc d)); reflexivity.
Qed.

Lemma preSaveHashPassword_isModified salt p d :
  isModified p (preSaveHashPassword salt d) = isModified p d.
Proof.
  unfold isModified. rewrite preSaveHashPassword_modifiedPaths. reflexivity.
Qed.

(** The fields other than the password pass through the hook. *)
Lemma preSaveHashPassword_other salt d :
  with_password None (doc (preSaveHashPassword salt d)) =
  with_password None (doc d).
Proof.
  unfold preSaveHashPassword.
  destruct (negb (isModified path_password d)); [reflexivity|].
  destruct (password (doc d)); reflexivity.
Qed.

Lemma save_db db salt d :
  fst (save db salt d) =
  map (fun stored =>
         if _id stored =? _id (doc d)
         then persist (preSaveHashPassword salt d) stored else stored) db.
Proof.
  unfold save. simpl. rewrite preSaveHashPassword_id. reflexivity.
Qed.

Lemma save_findById db salt d i :
  findById (Some i) (fst (save db salt d)) =
  option_map (fun stored =>
                if _id stored =? _id (doc d)
                then persist (preSaveHashPassword salt d) stored
                else stored)
             (findById (Some i) db).
Proof.
  rewrite save_db. unfold findById. apply find_map_stable.
  intro u. destruct (_id u =? _id (doc d)); [rewrite persist_id|]; reflexivity.
Qed.

Lemma save_password_frame db salt d :
  isModified path_password d = false ->
  map password (fst (save db salt d)) = map password db.
Proof.
  intro Hclean. rewrite save_db, map_map. apply map_ext. intro s.
  destruct (_id s =? _id (doc d)); [|reflexivity].
  rewrite persist_password, preSaveHashPassword_isModified, Hclean.
  reflexivity.
Qed.

Lemma updateOne_password_frame db id ops :
  map password (updateOne db id ops) = map password db.
Proof.
  unfold updateOne. rewrite map_map. apply map_ext. intro s.
  destruct (_id s =? id); [|reflexivity].
  unfold applyOps. revert s.
  induction ops as [|op ops IH]; intro s; [reflexivity|].
  simpl. rewrite IH. destruct op; reflexivity.
Qed.

(** C9: saving a document whose password path is not marked modified
    runs the hashing hook as the identity and leaves every stored
    password hash as it was. *)
Theorem C9_save_without_password_keeps_hash db salt d :
  isModified path_password d = false ->
  preSaveHashPassword salt d = d /\
  map password (fst (save db salt d)) = map password db.
Proof.
  intro Hclean. split.
  - unfold preSaveHashPassword. rewrite Hclean. reflexivity.
  - apply save_password_frame. exact Hclean.
Qed.

End SaveProperties.

(** ** Updates that leave the password alone

    The handlers that do not assign [password] leave every stored
    hash as it was. *)

Section UnrelatedUpdates.
Context {env : ProcessEnv} {bcrypt : Bcrypt}.

Lemma save_returns_clean db salt d :
  modifiedPaths (snd (save db salt d)) = [].
Proof. reflexivity. Qed.

Lemma login_keeps_hashes db e pw now salt :
  map password (fst (login db e pw now salt)) = map password db.
Proof.
  unfold login.
  destruct (findOne (by_email e) db) as [stored|]; [|reflexivity].
  cbv zeta. cbn [hydrate doc].
  destruct (isLocked stored now); [reflexivity|].
  destruct (negb (isActive stored)); [reflexivity|].
  destruct (negb (comparePassword stored pw)).
  - cbn [fst]. apply updateOne_password_frame.
  - set (db1 := if 0 <? loginAttempts stored
                then updateOne db (_id stored) resetLoginAttempts else db).
    assert (H1 : map password db1 = map password db).
    { subst db1. destruct (0 <? loginAttempts stored);
        [apply updateOne_password_frame | reflexivity]. }
    pose proof (save_password_frame db1 salt
                  (set_lastLogin now (hydrate true stored))
                  eq_refl) as H2.
    pose proof (save_returns_clean db1 salt
                  (set_lastLogin now (hydrate true stored)))
      as Hclean2.
    destruct (save db1 salt
                (set_lastLogin now (hydrate true stored)))
      as [db2 user2].
    cbn [fst snd] in H2, Hclean2. unfold cleanExpiredTokens.
    match goal with
    | |- context [save db2 salt ?d] => set (cleaned := d)
    end.
    assert (Hc : isModified path_password cleaned = false).
    { subst cleaned. unfold isModified. cbn. rewrite Hclean2. reflexivity. }
    pose proof (save_password_frame db2 salt cleaned Hc) as H3.
    pose proof (save_returns_clean db2 salt cleaned) as Hclean3.
    destruct (save db2 salt cleaned) as [db3 user3].
    cbn [fst snd] in H3, Hclean3.
    match goal with
    | |- context [save db3 salt ?d] => set (pushed := d)
    end.
    assert (Hp : isModified path_password pushed = false).
    { subst pushed. unfold isModified. cbn. rewrite Hclean3. reflexivity. }
    pose proof (save_password_frame db3 salt pushed Hp) as H4.
    destruct (save db3 salt pushed) as [db4 user4].
    cbn [fst] in *. congruence.
Qed.

Lemma logout_keeps_hashes db rt salt :
  map password (fst (logout db rt salt)) = map password db.
Proof.
  unfold logout. destruct (present rt) as [t|]; [|reflexivity].
  destruct (findOne (by_refreshToken t) db) as [stored|]; [|reflexivity].
  cbn [fst]. apply save_password_frame. reflexivity.
Qed.

Lemma forgotPassword_keeps_hashes db e now salt :
  map password (fst (forgotPassword db e now salt)) = map password db.
Proof.
  unfold forgotPassword.
  destruct (findOne (by_email e) db) as [stored|]; [|reflexivity].
  cbn [fst]. apply save_password_frame. reflexivity.
Qed.

End UnrelatedUpdates.

(** ** Refresh tokens *)

Lemma find_same_id (q : User -> bool) (db : DB) (u : User) :
  find q db = Some u ->
  exists w, findById (Some (_id u)) db = Some w /\ _id w = _id u.
Proof.
  intro Hfind. apply find_some in Hfind as [Hin _].
  unfold findById. induction db as [|s rest IH]; [contradiction|].
  simpl. destruct (Z.eqb_spec (_id s) (_id u)) as [Heq|Hneq].
  - exists s. split; [reflexivity | exact Heq].
  - destruct Hin as [->|Hin]; [congruence | exact (IH Hin)].
Qed.

Lemma find_none_iff (q : User -> bool) (db : DB) :
  find q db = None <-> existsb q db = false.
Proof.
  induction db as [|s rest IH]; simpl; [tauto|].
  destruct (q s); simpl; [split; discriminate | exact IH].
Qed.

Section SessionProperties.
Context {env : ProcessEnv} {bcrypt : Bcrypt}.

Lemma verifyTyped_signed secret kind t now decoded :
  verifyTyped secret kind t now = inl decoded ->
  exists key, t = Jwt.Signed key decoded.
Proof.
  unfold verifyTyped, Jwt.verify. destruct t as [key claims|raw].
  - destruct (negb (String.eqb key secret)); [discriminate|].
    destruct (Jwt.exp claims <=? now / 1000); [discriminate|].
    destruct (Jwt.type claims) as [ty|]; [|discriminate].
    destruct (String.eqb ty kind); [|discriminate].
    intro H. injection H as <-. exists key. reflexivity.
  - discriminate.
Qed.

(** The refresh handler on a token that the account of its subject
    does not list. *)
Lemma refresh_unlisted db rt now u :
  findById (subjectOf rt) db = Some u ->
  by_refreshToken rt u = false ->
  (exists err, refresh db (Some rt) now = Threw err) /\
  (forall decoded,
      verifyRefreshToken rt now = inl decoded ->
      refresh db (Some rt) now = InvalidRefreshToken).
Proof.
  intros Hfind Hunlisted.
  assert (Hvalid : forall decoded,
             verifyRefreshToken rt now = inl decoded ->
             refresh db (Some rt) now = InvalidRefreshToken).
  { intros decoded Hverify.
    destruct (verifyTyped_signed _ _ _ _ _ Hverify) as [key ->].
    unfold refresh. simpl present. cbv beta iota. rewrite Hverify.
    simpl in Hfind. rewrite Hfind.
    unfold by_refreshToken in Hunlisted. rewrite Hunlisted. reflexivity. }
  split; [|exact Hvalid].
  destruct (verifyRefreshToken rt now) as [decoded|err] eqn:Hverify.
  - eexists. exact (Hvalid decoded eq_refl).
  - unfold refresh.
    destruct (present (Some rt)) as [rt'|] eqn:Hpresent.
    + assert (rt' = rt) as ->.
      { destruct rt as [key claims|raw]; simpl in Hpresent.
        - congruence.
        - destruct raw; [discriminate | congruence]. }
      rewrite Hverify. eexists. reflexivity.
    + eexists. reflexivity.
Qed.

Lemma logout_db db rt salt v :
  present (Some rt) = Some rt ->
  findOne (by_refreshToken rt) db = Some v ->
  fst (logout db (Some rt) salt) =
  map (fun stored =>
         if _id stored =? _id v
         then with_refreshTokens
                (filter (fun tokenObj =>
                           negb (Jwt.Token_eqb (token tokenObj) rt))
                        (refreshTokens v)) stored
         else stored) db.
Proof.
  intros Hpresent Hfind. unfold logout. rewrite Hpresent, Hfind.
  cbv zeta. rewrite save_db. apply map_ext. intro s. simpl.
  destruct (_id s =? _id v); reflexivity.
Qed.

Lemma filtered_out rt (l : list RefreshToken) :
  existsb (fun tokenObj => Jwt.Token_eqb (token tokenObj) rt)
    (filter (fun tokenObj => negb (Jwt.Token_eqb (token tokenObj) rt)) l)
  = false.
Proof.
  induction l as [|x l IH]; [reflexivity|].
  simpl. destruct (Jwt.Token_eqb (token x) rt) eqn:Hx; simpl.
  - exact IH.
  - rewrite Hx. exact IH.
Qed.

Lemma findById_In id db u : findById id db = Some u -> In u db.
Proof.
  destruct id as [i|]; [|discriminate].
  unfold findById. intro H. apply find_some in H. tauto.
Qed.

(** After a logout that acts on the account of the token's subject,
    or finds no account listing the token, this account does not list
    the token. *)
Lemma logout_unlists db rt salt u :
  findById (subjectOf rt) db = Some u ->
  match findOne (by_refreshToken rt) db with
  | Some v => _id v =? _id u
  | None => true
  end = true ->
  exists u',
    findById (subjectOf rt) (fst (logout db (Some rt) salt)) = Some u' /\
    by_refreshToken rt u' = false.
Proof.
  intros Hsubject Hmatch.
  pose proof (findById_In _ _ _ Hsubject) as Hin.
  destruct rt as [key claims|raw]; [|discriminate].
  simpl subjectOf in *.
  destruct (Jwt.userId claims) as [i|] eqn:Hid; [|discriminate].
  destruct (findOne (by_refreshToken (Jwt.Signed key claims)) db)
    as [v|] eqn:Hfind.
  - rewrite (logout_db db (Jwt.Signed key claims) salt v eq_refl Hfind).
    unfold findById in *. rewrite find_map_stable.
    + rewrite Hsubject. simpl. eexists. split; [reflexivity|].
      apply Z.eqb_eq in Hmatch. rewrite Hmatch, Z.eqb_refl.
      unfold by_refreshToken. simpl. apply filtered_out.
    + intro s. destruct (_id s =? _id v); reflexivity.
  - unfold logout. simpl present. cbv beta iota. rewrite Hfind. simpl.
    exists u. split; [exact Hsubject|].
    apply find_none_iff in Hfind.
    destruct (by_refreshToken (Jwt.Signed key claims) u) eqn:Hu;
      [|reflexivity].
    assert (existsb (by_refreshToken (Jwt.Signed key claims)) db = true)
      as Hex by (apply existsb_exists; exists u; split; assumption).
    congruence.
Qed.

(** C7: a refresh token that the account of its subject does not
    list is never exchanged: the handler throws, and when the token
    verifies as an unexpired refresh token the error is AppError
    "Invalid refresh token" with status 401.  The same holds after a
    logout with that token, when the account the logout found listing
    it is this one. *)
Theorem C7_unlisted_refresh_token_rejected db rt now u :
  findById (subjectOf rt) db = Some u ->
  (by_refreshToken rt u = false ->
   (exists err, refresh db (Some rt) now = Threw err) /\
   (forall decoded,
       verifyRefreshToken rt now = inl decoded ->
       refresh db (Some rt) now = InvalidRefreshToken)) /\
  (forall salt,
      match findOne (by_refreshToken rt) db with
      | Some v => _id v =? _id u
      | None => true
      end = true ->
      (exists err,
          refresh (fst (logout db (Some rt) salt)) (Some rt) now = Threw err) /\
      (forall decoded,
          verifyRefreshToken rt now = inl decoded ->
          refresh (fst (logout db (Some rt) salt)) (Some rt) now
            = InvalidRefreshToken)).
Proof.
  intro Hsubject. split.
  - intro Hunlisted. exact (refresh_unlisted db rt now u Hsubject Hunlisted).
  - intros salt Hmatch.
    destruct (logout_unlists db rt salt u Hsubject Hmatch)
      as [u' [Hsubject' Hunlisted']].
    exact (refresh_unlisted _ rt now u' Hsubject' Hunlisted').
Qed.

End SessionProperties.

(** ** Password replacement *)

Section PasswordChangeProperties.
Context {env : ProcessEnv} {bcrypt : Bcrypt}.

Lemma sessionsRevoked_intro db id u :
  findById (Some id) db = Some u ->
  refreshTokens u = [] ->
  sessionsRevoked db id.
Proof.
  intros Hfind Hempty. exists u. split; [exact Hfind|]. split; [exact Hempty|].
  intros rt now Hsubject. apply (refresh_unlisted db rt now u).
  - rewrite Hsubject. exact Hfind.
  - unfold by_refreshToken. rewrite Hempty. reflexivity.
Qed.

Lemma findById_id db i u : findById (Some i) db = Some u -> _id u = i.
Proof.
  unfold findById. intro H. apply find_some in H as [_ H].
  apply Z.eqb_eq. exact H.
Qed.

Lemma resetPassword_inv db t newPassword now salt :
  sent_ok (snd (resetPassword db t newPassword now salt)) = true ->
  exists u decoded,
    verifyPasswordResetToken t now = inl decoded /\
    findOne (by_resetToken t now) db = Some u /\
    resetPassword db t newPassword now salt =
      (fst (save db salt (resetDoc u newPassword)), PasswordResetDone).
Proof.
  unfold resetPassword.
  destruct (verifyPasswordResetToken t now) as [decoded|err];
    [|discriminate].
  destruct (findOne (by_resetToken t now) db) as [u|]; [|discriminate].
  intros _. exists u, decoded. repeat split.
Qed.

Lemma changePassword_inv db req_user currentPassword newPassword salt :
  sent_ok (snd (changePassword db req_user currentPassword newPassword salt))
    = true ->
  exists u,
    findById (Some (_id req_user)) db = Some u /\
    comparePassword u currentPassword = true /\
    comparePassword u newPassword = false /\
    fst (changePassword db req_user currentPassword newPassword salt) =
      fst (save db salt (changeDoc u newPassword)).
Proof.
  unfold changePassword.
  destruct (findById (Some (_id req_user)) db) as [u|]; [|discriminate].
  simpl hydrate. cbv zeta. simpl doc.
  destruct (comparePassword u currentPassword) eqn:Hcur; [|discriminate].
  destruct (comparePassword u newPassword) eqn:Hnew; [discriminate|].
  intros _. exists u. repeat split; assumption.
Qed.

Lemma resetDoc_id u newPassword : _id (doc (resetDoc u newPassword)) = _id u.
Proof. reflexivity. Qed.

Lemma changeDoc_id u newPassword : _id (doc (changeDoc u newPassword)) = _id u.
Proof.
  unfold changeDoc, set_password. simpl.
  destruct (password u) as [old|]; [|reflexivity].
  destruct (String.eqb old newPassword); reflexivity.
Qed.

(** The stored account after a reset: whichever stored document has
    the id of the matched one gets the four assigned paths. *)
Lemma resetPassword_stored db salt u newPassword w :
  findById (Some (_id u)) db = Some w ->
  exists w',
    findById (Some (_id u)) (fst (save db salt (resetDoc u newPassword)))
      = Some w' /\
    refreshTokens w' = [] /\
    passwordResetToken w' = None /\
    passwordResetExpires w' = None /\
    password w' = Some (bcrypt_hash newPassword salt).
Proof.
  intro Hw. rewrite save_findById, Hw. cbn [option_map].
  rewrite resetDoc_id, (findById_id _ _ _ Hw), Z.eqb_refl.
  eexists. split; [reflexivity|].
  rewrite persist_refreshTokens, persist_passwordResetToken,
    persist_passwordResetExpires, persist_password.
  repeat split.
Qed.

Lemma changePassword_stored db salt u newPassword :
  findById (Some (_id u)) db = Some u ->
  exists u',
    findById (Some (_id u)) (fst (save db salt (changeDoc u newPassword)))
      = Some u' /\
    refreshTokens u' = [] /\
    passwordResetToken u' = passwordResetToken u /\
    passwordResetExpires u' = passwordResetExpires u.
Proof.
  intro Hu. rewrite save_findById, Hu. cbn [option_map].
  rewrite changeDoc_id, Z.eqb_refl.
  eexists. split; [reflexivity|].
  rewrite persist_refreshTokens, persist_passwordResetToken,
    persist_passwordResetExpires.
  rewrite !preSaveHashPassword_isModified.
  unfold changeDoc, set_password. simpl.
  destruct (password u) as [old|]; [|repeat split].
  destruct (String.eqb old newPassword); repeat split.
Qed.

(** C5: a successful password replacement, by reset token or by the
    authenticated change, leaves the account with an empty
    refresh-token list, so that no refresh token with this account as
    subject can be exchanged in the resulting store: the refresh
    handler throws, with AppError "Invalid refresh token" (401) when
    the token still verifies. *)
Theorem C5_password_change_revokes_refresh_tokens db c salt :
  sent_ok (snd (passwordChange db c salt)) = true ->
  exists id,
    accountOf db c = Some id /\
    sessionsRevoked (fst (passwordChange db c salt)) id.
Proof.
  destruct c as [t newPassword now|req_user currentPassword newPassword];
    simpl; intro Hok.
  - destruct (resetPassword_inv _ _ _ _ _ Hok)
      as [u [decoded [_ [Hfind Hrun]]]].
    exists (_id u). rewrite Hfind. split; [reflexivity|].
    rewrite Hrun. simpl fst.
    destruct (find_same_id _ _ _ Hfind) as [w [Hw _]].
    destruct (resetPassword_stored db salt u newPassword w Hw)
      as [w' [Hw' [Hempty _]]].
    exact (sessionsRevoked_intro _ _ w' Hw' Hempty).
  - destruct (changePassword_inv _ _ _ _ _ Hok) as [u [Hfind [_ [_ Hrun]]]].
    exists (_id req_user). split; [reflexivity|].
    rewrite Hrun.
    pose proof (findById_id _ _ _ Hfind) as Hid. rewrite <- Hid in *.
    destruct (changePassword_stored db salt u newPassword Hfind)
      as [u' [Hu' [Hempty _]]].
    exact (sessionsRevoked_intro _ _ u' Hu' Hempty).
Qed.

Lemma Token_eqb_refl (t : Token) : Jwt.Token_eqb t t = true.
Proof.
  unfold Jwt.Token_eqb. destruct (Jwt.Token_eq_dec t t); congruence.
Qed.

(** The reset query on the store a reset left behind: the documents
    with the id of the consumed account no longer match. *)
Lemma reset_query_after_reset db salt u newPassword t now :
  existsb (by_resetToken t now)
          (fst (save db salt (resetDoc u newPassword))) =
  existsb (fun v => negb (_id v =? _id u) && by_resetToken t now v) db.
Proof.
  rewrite save_db, resetDoc_id.
  induction db as [|s rest IH]; [reflexivity|].
  cbn [map existsb]. rewrite IH. f_equal.
  destruct (_id s =? _id u); [|reflexivity].
  unfold by_resetToken at 1. rewrite persist_passwordResetToken.
  reflexivity.
Qed.

(** Where single use does hold: a successful resetPassword clears the
    stored reset token and its expiry on the account it matched, and
    a later resetPassword with the same token value fails with
    AppError "Invalid or expired reset token" (400) and writes
    nothing, as long as no other account stores that token value with
    an expiry still ahead. *)
Theorem C6_reset_token_consumed db t newPassword now salt :
  sent_ok (snd (resetPassword db t newPassword now salt)) = true ->
  exists u u',
    findOne (by_resetToken t now) db = Some u /\
    findById (Some (_id u)) (fst (resetPassword db t newPassword now salt))
      = Some u' /\
    passwordResetToken u' = None /\
    passwordResetExpires u' = None /\
    forall newPassword' now' salt',
      existsb (fun v => negb (_id v =? _id u) && by_resetToken t now' v) db
        = false ->
      resetPassword (fst (resetPassword db t newPassword now salt))
                    t newPassword' now' salt' =
        (fst (resetPassword db t newPassword now salt), InvalidResetToken).
Proof.
  intro Hok.
  destruct (resetPassword_inv _ _ _ _ _ Hok)
    as [u [decoded [_ [Hfind Hrun]]]].
  rewrite Hrun. cbn [fst].
  destruct (find_same_id _ _ _ Hfind) as [w [Hw _]].
  destruct (resetPassword_stored db salt u newPassword w Hw)
    as [w' [Hw' [_ [Htoken [Hexpires _]]]]].
  exists u, w'. repeat split; try assumption.
  intros newPassword' now' salt' Hothers.
  unfold resetPassword.
  destruct (verifyPasswordResetToken t now'); [|reflexivity].
  assert (Hnone : findOne (by_resetToken t now')
                    (fst (save db salt (resetDoc u newPassword))) = None).
  { apply find_none_iff. rewrite reset_query_after_reset. exact Hothers. }
  rewrite Hnone. reflexivity.
Qed.

(** C10: a successful authenticated change-password empties the
    refresh-token list and leaves the stored password-reset token
    and its expiry as they were; a reset token stored before the
    change is still accepted by resetPassword while it verifies and
    its stored expiry is ahead, and when the query matches this
    account the reset replaces its password hash. *)
Theorem C10_change_password_keeps_reset_token
    db req_user currentPassword newPassword salt :
  sent_ok (snd (changePassword db req_user currentPassword newPassword salt))
    = true ->
  exists u u',
    findById (Some (_id req_user)) db = Some u /\
    findById (Some (_id req_user))
      (fst (changePassword db req_user currentPassword newPassword salt))
      = Some u' /\
    refreshTokens u' = [] /\
    passwordResetToken u' = passwordResetToken u /\
    passwordResetExpires u' = passwordResetExpires u /\
    forall t e decoded newPassword' now' salt',
      passwordResetToken u = Some t ->
      passwordResetExpires u = Some e ->
      now' < e ->
      verifyPasswordResetToken t now' = inl decoded ->
      let db' :=
        fst (changePassword db req_user currentPassword newPassword salt) in
      snd (resetPassword db' t newPassword' now' salt') = PasswordResetDone /\
      forall w,
        findOne (by_resetToken t now') db' = Some w ->
        _id w = _id req_user ->
        exists u'',
          findById (Some (_id req_user))
            (fst (resetPassword db' t newPassword' now' salt')) = Some u'' /\
          password u'' = Some (bcrypt_hash newPassword' salt').
Proof.
  intro Hok.
  destruct (changePassword_inv _ _ _ _ _ Hok) as [u [Hfind [_ [_ Hrun]]]].
  rewrite Hrun.
  pose proof (findById_id _ _ _ Hfind) as Hid. rewrite <- Hid in *.
  destruct (changePassword_stored db salt u newPassword Hfind)
    as [u' [Hu' [Hempty [Htoken Hexpires]]]].
  exists u, u'.
  split; [exact Hfind|]. split; [exact Hu'|]. split; [exact Hempty|].
  split; [exact Htoken|]. split; [exact Hexpires|].
  intros t e decoded newPassword' now' salt' Ht He Hahead Hverify db'.
  subst db'. split.
  - (* the reset is accepted *)
    unfold resetPassword. rewrite Hverify.
    destruct (findOne (by_resetToken t now')
                (fst (save db salt (changeDoc u newPassword))))
      as [w|] eqn:Hquery; [reflexivity|].
    exfalso. apply find_none_iff in Hquery.
    assert (Hin : In u' (fst (save db salt (changeDoc u newPassword)))).
    { unfold findById in Hu'. apply find_some in Hu'. tauto. }
    assert (Hmatch : by_resetToken t now' u' = true).
    { unfold by_resetToken. rewrite Htoken, Hexpires, Ht, He.
      rewrite Token_eqb_refl. simpl. apply Z.ltb_lt. exact Hahead. }
    assert (Hex : existsb (by_resetToken t now')
                    (fst (save db salt (changeDoc u newPassword))) = true).
    { apply existsb_exists. exists u'. split; assumption. }
    congruence.
  - (* and it replaces the hash of the matched account *)
    intros w Hw Hsame. unfold resetPassword. rewrite Hverify, Hw. cbn [fst].
    destruct (resetPassword_stored
                (fst (save db salt (changeDoc u newPassword)))
                salt' w newPassword' u') as [u'' [Hu'' [_ [_ [_ Hpw]]]]].
    + rewrite Hsame. exact Hu'.
    + exists u''. split; [|exact Hpw]. rewrite <- Hsame. exact Hu''.
Qed.

End PasswordChangeProperties.

(** ** The request gate and the token kinds *)

Section GateProperties.
Context {env : ProcessEnv}.

(** The three typed verifiers return a payload only when its [type]
    claim is the expected kind. *)
Lemma verifyTyped_kind secret kind t now decoded :
  verifyTyped secret kind t now = inl decoded ->
  Jwt.type decoded = Some kind.
Proof.
  unfold verifyTyped.
  destruct (Jwt.verify t secret now) as [claims|err]; [|discriminate].
  destruct (Jwt.type claims) as [ty|] eqn:Hty; [|discriminate].
  destruct (String.eqb_spec ty kind) as [->|_]; [|discriminate].
  intro H. injection H as <-. exact Hty.
Qed.

(** The gate never reads the [type] claim: two tokens under the same
    key that differ in it alone are treated alike. *)
Lemma authenticateToken_ignores_type db key uid ty1 ty2 ts issued expiry now :
  authenticateToken db
    (Some (Jwt.Signed key
       {| Jwt.userId := uid; Jwt.type := ty1; Jwt.timestamp := ts;
          Jwt.iat := issued; Jwt.exp := expiry |})) now =
  authenticateToken db
    (Some (Jwt.Signed key
       {| Jwt.userId := uid; Jwt.type := ty2; Jwt.timestamp := ts;
          Jwt.iat := issued; Jwt.exp := expiry |})) now.
Proof.
  unfold authenticateToken, Jwt.verify. cbn [present Jwt.exp].
  destruct (negb (String.eqb key JWT_SECRET)); [reflexivity|].
  destruct (expiry <=? now / 1000); reflexivity.
Qed.

(** An unexpired email-verification token opens the gate for the
    account it names. *)
Lemma authenticateToken_email_verification db uid issued now u :
  findById (Some uid) db = Some u ->
  isActive u = true ->
  isLocked u now = false ->
  now / 1000 < issued / 1000 + 24 * 60 * 60 ->
  authenticateToken db
    (Some (generateEmailVerificationToken uid issued)) now =
  next (with_password None u).
Proof.
  intros Hfind Hactive Hunlocked Hfresh.
  unfold authenticateToken, generateEmailVerificationToken, Jwt.sign,
    Jwt.verify.
  cbn [present Jwt.exp Jwt.userId]. rewrite String.eqb_refl. cbn [negb].
  destruct (Z.leb_spec (issued / 1000 + 24 * 60 * 60) (now / 1000)); [lia|].
  cbn [Jwt.userId]. rewrite Hfind. cbn [hydrate doc].
  change (isActive (with_password None u)) with (isActive u).
  change (isLocked (with_password None u) now) with (isLocked u now).
  rewrite Hactive, Hunlocked. reflexivity.
Qed.

End GateProperties.

(** C1: the request gate does not compare the token kind.  With Ada
    active and unlocked, an email-verification token issued for her
    verifies as such, is refused by the password-reset verifier
    because of its kind, and is accepted by [authenticateToken] as an
    access token: the request proceeds with [req.user] set to her
    account.  A password-reset token is turned away only because it
    names no account. *)
Theorem C1_gate_accepts_email_verification_token :
  let now := Sample.t0 + 60000 in
  (exists decoded,
      @verifyEmailVerificationToken Sample.env Sample.ada_emailToken now
        = inl decoded) /\
  @verifyPasswordResetToken Sample.env Sample.ada_emailToken now
    = inr (Error "Invalid token type") /\
  @authenticateToken Sample.env Sample.db (Some Sample.ada_emailToken) now
    = next (with_password None Sample.ada) /\
  @authenticateToken Sample.env Sample.db (Some Sample.shared_resetToken) now
    = halt (json 401 false "User not found").
Proof.
  intro now. split; [eexists; reflexivity|].
  split; [reflexivity|]. split; [|reflexivity].
  apply (@authenticateToken_email_verification Sample.env);
    [reflexivity | reflexivity | reflexivity | vm_compute; reflexivity].
Qed.

(** ** Forgot-password responses *)

Section ForgotPasswordProperties.
Context {env : ProcessEnv} {bcrypt : Bcrypt}.

(** The two branches of the handler answer with different messages. *)
Lemma forgotPassword_messages db e now salt :
  exists res,
    snd (forgotPassword db e now salt) = Sent res /\
    status res = 200 /\
    success res = true /\
    message res =
      match findOne (by_email e) db with
      | None =>
          "If an account with that email exists, a password reset link has been sent"
      | Some _ => "Password reset instructions sent to your email"
      end.
Proof.
  unfold forgotPassword.
  destruct (findOne (by_email e) db); eexists; repeat split.
Qed.

Lemma forgotPassword_reveals_account db e1 e2 now1 now2 salt1 salt2 u :
  findOne (by_email e1) db = None ->
  findOne (by_email e2) db = Some u ->
  snd (forgotPassword db e1 now1 salt1) <>
  snd (forgotPassword db e2 now2 salt2).
Proof.
  intros Hnone Hsome Heq.
  destruct (forgotPassword_messages db e1 now1 salt1)
    as [r1 [H1 [_ [_ Hm1]]]].
  destruct (forgotPassword_messages db e2 now2 salt2)
    as [r2 [H2 [_ [_ Hm2]]]].
  rewrite Hnone in Hm1. rewrite Hsome in Hm2.
  rewrite H1, H2 in Heq. injection Heq as ->.
  rewrite Hm1 in Hm2. discriminate.
Qed.

End ForgotPasswordProperties.

(** C3: forgotPassword does not answer alike for a known and an
    unknown email.  Both responses are 200 with [success: true], but
    for "unknown@x.com" the message is the generic one and for
    "ada@x.com", which has an account, it is "Password reset
    instructions sent to your email": the two bodies differ. *)
Theorem C3_forgot_password_bodies_differ :
  let unknown :=
    snd (@forgotPassword Sample.env Sample.bcrypt Sample.db
           "unknown@x.com" Sample.t0 "s4lt") in
  let known :=
    snd (@forgotPassword Sample.env Sample.bcrypt Sample.db
           "ada@x.com" Sample.t0 "s4lt") in
  unknown = Sent (json 200 true
    "If an account with that email exists, a password reset link has been sent") /\
  known = Sent (json 200 true
    "Password reset instructions sent to your email") /\
  unknown <> known.
Proof.
  intros unknown known. split; [reflexivity|]. split; [reflexivity|].
  apply (@forgotPassword_reveals_account Sample.env Sample.bcrypt
           Sample.db "unknown@x.com" "ada@x.com" Sample.t0 Sample.t0
           "s4lt" "s4lt" Sample.ada);
    reflexivity.
Qed.

(** ** An invariant of the store: refresh tokens stay with their subject *)

Section StoreInvariant.
Context {env : ProcessEnv} {bcrypt : Bcrypt}.

Lemma preSaveHashPassword_refreshTokens salt d :
  refreshTokens (doc (preSaveHashPassword salt d)) = refreshTokens (doc d).
Proof.
  change (refreshTokens (with_password None (doc (preSaveHashPassword salt d)))
          = refreshTokens (with_password None (doc d))).
  rewrite preSaveHashPassword_other. reflexivity.
Qed.

Lemma tokensOwned_stored db q stored :
  tokensOwned db = true ->
  findOne q db = Some stored ->
  forallb (ownedBy (_id stored)) (refreshTokens stored) = true.
Proof.
  unfold tokensOwned, findOne. intros Hinv Hfind.
  apply find_some in Hfind as [Hin _].
  rewrite forallb_forall in Hinv. exact (Hinv stored Hin).
Qed.

Lemma tokensOwned_updateOne db id ops :
  tokensOwned db = true -> tokensOwned (updateOne db id ops) = true.
Proof.
  unfold tokensOwned, updateOne. rewrite !forallb_forall.
  intros Hinv x Hin. apply in_map_iff in Hin as [s [<- Hs]].
  destruct (_id s =? id); [|exact (Hinv s Hs)].
  rewrite applyOps_id.
  replace (refreshTokens (applyOps ops s)) with (refreshTokens s);
    [exact (Hinv s Hs)|].
  unfold applyOps. clear Hs. revert s.
  induction ops as [|op ops IH]; intro s; [reflexivity|].
  simpl. rewrite <- IH. destruct op; reflexivity.
Qed.

(** [save] keeps the invariant when the list it may write is owned
    by the document saved. *)
Lemma tokensOwned_save db salt d :
  tokensOwned db = true ->
  (isModified path_refreshTokens d = true ->
   forallb (ownedBy (_id (doc d))) (refreshTokens (doc d)) = true) ->
  tokensOwned (fst (save db salt d)) = true.
Proof.
  intros Hinv Hdoc. rewrite save_db.
  unfold tokensOwned in *. rewrite forallb_forall in Hinv.
  apply forallb_forall. intros x Hin. apply in_map_iff in Hin as [s [<- Hs]].
  destruct (Z.eqb_spec (_id s) (_id (doc d))) as [Hid|_]; [|exact (Hinv s Hs)].
  rewrite persist_id, persist_refreshTokens, preSaveHashPassword_isModified.
  destruct (isModified path_refreshTokens d).
  - rewrite preSaveHashPassword_refreshTokens, Hid. exact (Hdoc eq_refl).
  - exact (Hinv s Hs).
Qed.

Lemma forallb_filter_keeps {A} (p q : A -> bool) (l : list A) :
  forallb p l = true -> forallb p (filter q l) = true.
Proof.
  rewrite !forallb_forall. intros H x Hin.
  apply filter_In in Hin as [Hin _]. exact (H x Hin).
Qed.

Lemma ownedBy_generateRefreshToken id now created expires :
  ownedBy id {| token := generateRefreshToken id now;
                createdAt := created; expiresAt := expires |} = true.
Proof. unfold ownedBy. simpl. apply Z.eqb_refl. Qed.

Lemma tokensOwned_login db e pw now salt :
  tokensOwned db = true ->
  tokensOwned (fst (login db e pw now salt)) = true.
Proof.
  intro Hinv. unfold login.
  destruct (findOne (by_email e) db) as [stored|] eqn:Hfind; [|exact Hinv].
  pose proof (tokensOwned_stored db _ stored Hinv Hfind) as Hstored.
  cbv zeta. cbn [hydrate doc].
  destruct (isLocked stored now); [exact Hinv|].
  destruct (negb (isActive stored)); [exact Hinv|].
  destruct (negb (comparePassword stored pw)).
  - cbn [fst]. apply tokensOwned_updateOne. exact Hinv.
  - set (db1 := if 0 <? loginAttempts stored
                then updateOne db (_id stored) resetLoginAttempts else db).
    assert (H1 : tokensOwned db1 = true).
    { subst db1. destruct (0 <? loginAttempts stored);
        [apply tokensOwned_updateOne|]; exact Hinv. }
    unfold cleanExpiredTokens, save at 1. cbv zeta.
    set (user2 := {| doc := doc (preSaveHashPassword salt
                                   (set_lastLogin now (hydrate true stored)));
                     modifiedPaths := [] |}).
    assert (Hid2 : _id (doc user2) = _id stored) by reflexivity.
    assert (Hrt2 : refreshTokens (doc user2) = refreshTokens stored)
      by reflexivity.
    match goal with
    | |- context [save ?db2 salt (set_refreshTokens ?l user2)] =>
        set (cleaned := set_refreshTokens l user2);
        assert (H2 : tokensOwned db2 = true)
    end.
    { apply (tokensOwned_save db1 salt
               (set_lastLogin now (hydrate true stored)) H1).
      discriminate. }
    unfold save at 1. cbv zeta.
    set (user3 := {| doc := doc (preSaveHashPassword salt cleaned);
                     modifiedPaths := [] |}).
    assert (Hown3 : forallb (ownedBy (_id stored))
                      (refreshTokens (doc user3)) = true).
    { subst user3. cbn [doc]. rewrite preSaveHashPassword_refreshTokens.
      subst cleaned. cbn. apply forallb_filter_keeps. exact Hstored. }
    assert (Hid3 : _id (doc user3) = _id stored).
    { subst user3. cbn [doc]. rewrite preSaveHashPassword_id. reflexivity. }
    match goal with
    | |- context [save ?db3 salt (set_refreshTokens ?l user3)] =>
        assert (H3 : tokensOwned db3 = true)
    end.
    { apply (tokensOwned_save _ salt cleaned H2). intros _.
      subst cleaned. cbn. apply forallb_filter_keeps. exact Hstored. }
    match goal with
    | |- context [save ?db3 salt ?pushed] =>
        pose proof (tokensOwned_save db3 salt pushed H3) as H4;
        destruct (save db3 salt pushed) as [db4 user4]
    end.
    cbn [fst] in *. apply H4. intros _. cbn [set_refreshTokens assign doc].
    change (_id (with_refreshTokens ?l ?u)) with (_id u).
    change (refreshTokens (with_refreshTokens ?l ?u)) with l.
    rewrite Hid3, forallb_app, Hown3. cbn [forallb andb].
    rewrite Hid2, ownedBy_generateRefreshToken. reflexivity.
Qed.

Lemma tokensOwned_logout db rt salt :
  tokensOwned db = true ->
  tokensOwned (fst (logout db rt salt)) = true.
Proof.
  intro Hinv. unfold logout. destruct (present rt) as [t|]; [|exact Hinv].
  destruct (findOne (by_refreshToken t) db) as [stored|] eqn:Hfind;
    [|exact Hinv].
  cbn [fst]. apply tokensOwned_save; [exact Hinv|]. intros _. cbn.
  apply forallb_filter_keeps.
  exact (tokensOwned_stored db _ stored Hinv Hfind).
Qed.

Lemma tokensOwned_forgotPassword db e now salt :
  tokensOwned db = true ->
  tokensOwned (fst (forgotPassword db e now salt)) = true.
Proof.
  intro Hinv. unfold forgotPassword.
  destruct (findOne (by_email e) db) as [stored|]; [|exact Hinv].
  cbn [fst]. apply tokensOwned_save; [exact Hinv | discriminate].
Qed.

Lemma tokensOwned_resetPassword db t pw now salt :
  tokensOwned db = true ->
  tokensOwned (fst (resetPassword db t pw now salt)) = true.
Proof.
  intro Hinv. unfold resetPassword.
  destruct (verifyPasswordResetToken t now); [|exact Hinv].
  destruct (findOne (by_resetToken t now) db) as [stored|]; [|exact Hinv].
  cbn [fst]. apply tokensOwned_save; [exact Hinv | reflexivity].
Qed.

Lemma tokensOwned_changePassword db req_user cur pw salt :
  tokensOwned db = true ->
  tokensOwned (fst (changePassword db req_user cur pw salt)) = true.
Proof.
  intro Hinv. unfold changePassword.
  destruct (findById (Some (_id req_user)) db) as [stored|]; [|exact Hinv].
  cbv zeta.
  destruct (negb (comparePassword (doc (hydrate true stored)) cur));
    [exact Hinv|].
  destruct (comparePassword (doc (hydrate true stored)) pw); [exact Hinv|].
  cbn [fst]. apply tokensOwned_save; [exact Hinv | reflexivity].
Qed.

(** Every request keeps the invariant, and so does every sequence of
    requests. *)
Lemma tokensOwned_handle db r now salt :
  tokensOwned db = true ->
  tokensOwned (fst (handle db r now salt)) = true.
Proof.
  intro Hinv. destruct r; cbn [handle].
  - apply tokensOwned_login. exact Hinv.
  - exact Hinv.
  - apply tokensOwned_logout. exact Hinv.
  - apply tokensOwned_forgotPassword. exact Hinv.
  - apply tokensOwned_resetPassword. exact Hinv.
  - unfold changePasswordRoute.
    destruct (authenticateToken db bearer now); [|exact Hinv].
    apply tokensOwned_changePassword. exact Hinv.
Qed.

Lemma tokensOwned_serve rs : forall db,
  tokensOwned db = true -> tokensOwned (serve db rs) = true.
Proof.
  induction rs as [|[[r now] salt] rest IH]; intros db Hinv; [exact Hinv|].
  cbn [serve]. apply IH. apply tokensOwned_handle. exact Hinv.
Qed.

(** In a store with the invariant, a logout with a token acts on the
    account of its subject, so the token is dead afterwards. *)
Lemma logout_revokes db rt salt now u :
  tokensOwned db = true ->
  findById (subjectOf rt) db = Some u ->
  (exists err,
      refresh (fst (logout db (Some rt) salt)) (Some rt) now = Threw err) /\
  (forall decoded,
      verifyRefreshToken rt now = inl decoded ->
      refresh (fst (logout db (Some rt) salt)) (Some rt) now
        = InvalidRefreshToken).
Proof.
  intros Hinv Hsubject.
  destruct (logout_unlists db rt salt u Hsubject) as [u' [Hu' Hunlisted]].
  - destruct (findOne (by_refreshToken rt) db) as [v|] eqn:Hfind;
      [|reflexivity].
    pose proof (tokensOwned_stored db _ v Hinv Hfind) as Hv.
    unfold findOne in Hfind. apply find_some in Hfind as [_ Hholds].
    unfold by_refreshToken in Hholds.
    apply existsb_exists in Hholds as [x [Hx Heq]].
    rewrite forallb_forall in Hv. specialize (Hv x Hx).
    unfold ownedBy in Hv. unfold Jwt.Token_eqb in Heq.
    destruct (Jwt.Token_eq_dec (token x) rt) as [Htok|]; [|discriminate].
    rewrite Htok in Hv.
    destruct (subjectOf rt) as [i|]; [|discriminate].
    apply Z.eqb_eq in Hv. subst i.
    rewrite (findById_id _ _ _ Hsubject). apply Z.eqb_refl.
  - exact (refresh_unlisted _ rt now u' Hu' Hunlisted).
Qed.

End StoreInvariant.

(** ** The properties on the sample deployment *)

(** Ada fails a fifth time at [t0]; a second and a millisecond before
    the lock ends she is still turned away, correct password or not. *)
Lemma C2_fifth_failure_locks_sample :
  let locked :=
    fst (@login Sample.env Sample.bcrypt Sample.db_four_failures
           "ada@x.com" "wrong" Sample.t0 "s4lt") in
  @loginRun Sample.env Sample.bcrypt locked "ada@x.com"
    [("Abcdef1!", Sample.t0 + 1000, "s4lt");
     ("wrong", Sample.t0 + 7199999, "s4lt")]
  = (locked, [AccountLocked; AccountLocked]).
Proof.
  intro locked.
  pose (u := with_loginAttempts 4 Sample.ada).
  destruct (@C2_fifth_failure_locks Sample.env Sample.bcrypt
              Sample.db_four_failures "ada@x.com" "wrong" Sample.t0 "s4lt" u
              eq_refl eq_refl eq_refl eq_refl
              (applyOps (@incLoginAttempts u Sample.t0) u)
              eq_refl eq_refl) as [_ [_ Hrun]].
  exact (Hrun [("Abcdef1!", Sample.t0 + 1000, "s4lt");
               ("wrong", Sample.t0 + 7199999, "s4lt")] eq_refl).
Defined.

Lemma C4_login_failures_sample :
  snd (@login Sample.env Sample.bcrypt Sample.db
         "ada@x.com" "wrong" Sample.t0 "s4lt") =
  snd (@login Sample.env Sample.bcrypt Sample.db
         "unknown@x.com" "Abcdef1!" Sample.t0 "s4lt").
Proof.
  exact (proj1 (proj2
    (@C4_login_failures_indistinguishable Sample.env Sample.bcrypt
       Sample.db "unknown@x.com" "Abcdef1!" Sample.t0 "s4lt"
       Sample.db "ada@x.com" "wrong" Sample.t0 "s4lt" Sample.ada
       eq_refl eq_refl eq_refl eq_refl eq_refl))).
Defined.

(** Ada, logged in and holding a reset token, replaces her password
    either way; her refresh token is then refused. *)
Lemma C5_password_change_sample :
  (exists id,
      @accountOf Sample.db_forgot
        (viaReset Sample.ada_resetToken "Newpass1" (Sample.t0 + 5000))
        = Some id /\
      @sessionsRevoked Sample.env
        (fst (@passwordChange Sample.env Sample.bcrypt Sample.db_forgot
                (viaReset Sample.ada_resetToken "Newpass1" (Sample.t0 + 5000))
                "n3w1")) id) /\
  (exists id,
      @accountOf Sample.db_forgot
        (viaChange Sample.ada "Abcdef1!" "Newpass1") = Some id /\
      @sessionsRevoked Sample.env
        (fst (@passwordChange Sample.env Sample.bcrypt Sample.db_forgot
                (viaChange Sample.ada "Abcdef1!" "Newpass1") "n3w1")) id).
Proof.
  split.
  - exact (@C5_password_change_revokes_refresh_tokens Sample.env Sample.bcrypt
             Sample.db_forgot
             (viaReset Sample.ada_resetToken "Newpass1" (Sample.t0 + 5000))
             "n3w1" eq_refl).
  - exact (@C5_password_change_revokes_refresh_tokens Sample.env Sample.bcrypt
             Sample.db_forgot (viaChange Sample.ada "Abcdef1!" "Newpass1")
             "n3w1" eq_refl).
Defined.

(** C6: a reset token is not single-use.  The token carries no
    subject and no random part, only the clock reading of its issue,
    and the handler looks accounts up by the stored token value.  Ada
    and Bob ask for a reset within the same millisecond: both
    requests issue the same token value, and both accounts store it.
    A resetPassword with that value answers 200 and replaces Ada's
    password, leaving Bob's; a second resetPassword with the same
    value does not fail with "Invalid or expired reset token": it
    answers 200 again and replaces Bob's password. *)
Theorem C6_shared_reset_token_used_twice :
  let first :=
    @resetPassword Sample.env Sample.bcrypt Sample.db_two_resets
      Sample.shared_resetToken "Newpass1" (Sample.t0 + 1000) "n3w1" in
  let second :=
    @resetPassword Sample.env Sample.bcrypt (fst first)
      Sample.shared_resetToken "Newpass2" (Sample.t0 + 2000) "n3w2" in
  Sample.db_two_resets =
    fst (@forgotPassword Sample.env Sample.bcrypt
           (fst (@forgotPassword Sample.env Sample.bcrypt Sample.db
                   "ada@x.com" Sample.t0 "s4lt"))
           "bob@x.com" Sample.t0 "s4lt") /\
  map passwordResetToken Sample.db_two_resets
    = [Some Sample.shared_resetToken; Some Sample.shared_resetToken] /\
  snd first = PasswordResetDone /\
  map password (fst first)
    = [Some "n3w1Newpass1"; password Sample.bob] /\
  map passwordResetToken (fst first)
    = [None; Some Sample.shared_resetToken] /\
  snd second = PasswordResetDone /\
  snd second <> InvalidResetToken /\
  map password (fst second)
    = [Some "n3w1Newpass1"; Some "n3w2Newpass2"] /\
  option_map password (findById (Some 2) (fst second))
    = Some (Some "n3w2Newpass2").
Proof.
  intros first second. vm_compute.
  repeat match goal with |- _ /\ _ => split end;
    try reflexivity; discriminate.
Qed.

(** With Ada the only holder of her token, the second use fails. *)
Lemma C6_reset_token_consumed_sample :
  let first :=
    @resetPassword Sample.env Sample.bcrypt Sample.db_forgot
      Sample.ada_resetToken "Newpass1" (Sample.t0 + 5000) "n3w1" in
  @resetPassword Sample.env Sample.bcrypt (fst first)
    Sample.ada_resetToken "Newpass2" (Sample.t0 + 6000) "n3w2"
  = (fst first, InvalidResetToken).
Proof.
  intro first.
  destruct (@C6_reset_token_consumed Sample.env Sample.bcrypt
              Sample.db_forgot Sample.ada_resetToken "Newpass1"
              (Sample.t0 + 5000) "n3w1" eq_refl)
    as [u [u' [Hmatched [_ [_ [_ Hsecond]]]]]].
  vm_compute in Hmatched. injection Hmatched as <-.
  exact (Hsecond "Newpass2" (Sample.t0 + 6000) "n3w2" eq_refl).
Defined.

(** Ada's refresh token is exchanged while listed, refused on an
    account that never listed it, and refused after her logout. *)
Lemma C7_unlisted_refresh_token_sample :
  let now := Sample.t0 + 1000 in
  sent_ok (@refresh Sample.env Sample.db_logged_in
             (Some Sample.ada_refreshToken) now) = true /\
  @refresh Sample.env Sample.db (Some Sample.ada_refreshToken) now
    = InvalidRefreshToken /\
  @refresh Sample.env
    (fst (@logout Sample.bcrypt Sample.db_logged_in
            (Some Sample.ada_refreshToken) "s4lt"))
    (Some Sample.ada_refreshToken) now
    = InvalidRefreshToken.
Proof.
  intro now. split; [reflexivity|]. split.
  - destruct (@C7_unlisted_refresh_token_rejected Sample.env Sample.bcrypt
                Sample.db Sample.ada_refreshToken now Sample.ada eq_refl)
      as [Hunlisted _].
    destruct (Hunlisted eq_refl) as [_ Hvalid].
    eapply Hvalid. reflexivity.
  - destruct (@C7_unlisted_refresh_token_rejected Sample.env Sample.bcrypt
                Sample.db_logged_in Sample.ada_refreshToken now
                (hd Sample.ada Sample.db_logged_in) eq_refl)
      as [_ Hlogout].
    destruct (Hlogout "s4lt" eq_refl) as [_ Hvalid].
    eapply Hvalid. reflexivity.
Defined.

(** Ada's lock ran out a second ago with the counter at 5; her next
    wrong password leaves the counter at 1 and no lock. *)
Lemma C8_expired_lock_sample :
  exists u',
    findOne (by_email "ada@x.com")
      (fst (@login Sample.env Sample.bcrypt Sample.db_lock_expired
              "ada@x.com" "wrong" Sample.t0 "s4lt")) = Some u' /\
    loginAttempts u' = 1 /\
    lockUntil u' = None.
Proof.
  exact (proj2 (proj2
    (@C8_expired_lock_restarts_at_one Sample.env Sample.bcrypt
       Sample.db_lock_expired "ada@x.com" "wrong" Sample.t0 "s4lt"
       (with_lockUntil (Some (Sample.t0 - 1000))
          (with_loginAttempts 5 Sample.ada))
       (Sample.t0 - 1000) eq_refl eq_refl eq_refl eq_refl eq_refl))).
Defined.

(** Saving Ada's document after assigning [lastLogin] only. *)
Lemma C9_save_sample :
  map password
    (fst (@save Sample.bcrypt Sample.db "n3w1"
            (set_lastLogin Sample.t0 (hydrate true Sample.ada))))
  = map password Sample.db.
Proof.
  exact (proj2 (@C9_save_without_password_keeps_hash Sample.bcrypt
                  Sample.db "n3w1"
                  (set_lastLogin Sample.t0 (hydrate true Sample.ada))
                  eq_refl)).
Defined.

(** Ada changes her password while a reset token is stored for her;
    the token then still resets her password. *)
Lemma C10_change_password_sample :
  let changed :=
    fst (@changePassword Sample.bcrypt Sample.db_forgot Sample.ada
           "Abcdef1!" "Newpass1" "n3w1") in
  snd (@resetPassword Sample.env Sample.bcrypt changed
         Sample.ada_resetToken "Third3rd" (Sample.t0 + 5000) "n3w2")
  = PasswordResetDone.
Proof.
  intro changed.
  destruct (@C10_change_password_keeps_reset_token Sample.env Sample.bcrypt
              Sample.db_forgot Sample.ada "Abcdef1!" "Newpass1" "n3w1"
              eq_refl)
    as [u [u' [Hbefore [_ [_ [_ [_ Husable]]]]]]].
  vm_compute in Hbefore. injection Hbefore as <-.
  destruct (Husable Sample.ada_resetToken (Sample.t0 + 1000 + 60 * 60 * 1000)
              (Jwt.Build_Payload None (Some "password-reset")
                 (Some (Sample.t0 + 1000))
                 ((Sample.t0 + 1000) / 1000)
                 ((Sample.t0 + 1000) / 1000 + 60 * 60))
              "Third3rd" (Sample.t0 + 5000) "n3w2"
              eq_refl eq_refl eq_refl eq_refl) as [Hdone _].
  exact Hdone.
Defined.

(** The lockout scenario end to end: five wrong passwords in a row are
    each answered with the generic error, the sixth attempt is locked
    out although its password is right, and the right password after
    the two hours succeeds and leaves the counter at 0 and no lock. *)
Example lockout_scenario :
  let run :=
    @loginRun Sample.env Sample.bcrypt Sample.db "ada@x.com"
      [("wrong", Sample.t0, "s4lt"); ("wrong", Sample.t0 + 1000, "s4lt");
       ("wrong", Sample.t0 + 2000, "s4lt"); ("wrong", Sample.t0 + 3000, "s4lt");
       ("wrong", Sample.t0 + 4000, "s4lt");
       ("Abcdef1!", Sample.t0 + 5000, "s4lt");
       ("Abcdef1!", Sample.t0 + 4000 + 2 * 60 * 60 * 1000 + 1, "s4lt")] in
  map sent_ok (snd run) = [false; false; false; false; false; false; true] /\
  firstn 6 (snd run) =
    [InvalidCredentials; InvalidCredentials; InvalidCredentials;
     InvalidCredentials; InvalidCredentials; AccountLocked] /\
  option_map (fun u => (loginAttempts u, lockUntil u))
    (findOne (by_email "ada@x.com") (fst run)) = Some (0, None).
Proof. vm_compute. repeat split. Qed.

(** * Further properties *)

(** ** What the request gate guarantees *)

Section GateGuarantees.
Context {env : ProcessEnv}.

Lemma authenticateToken_next_inv db bearer now u :
  authenticateToken db bearer now = next u ->
  exists claims stored,
    bearer = Some (Jwt.Signed JWT_SECRET claims) /\
    now / 1000 < Jwt.exp claims /\
    findById (Jwt.userId claims) db = Some stored /\
    u = with_password None stored /\
    isActive stored = true /\
    isLocked stored now = false.
Proof.
  unfold authenticateToken.
  destruct bearer as [[key claims|raw]|]; cbn [present].
  - unfold Jwt.verify.
    destruct (String.eqb_spec key JWT_SECRET) as [->|_]; cbn [negb];
      [|discriminate].
    destruct (Z.leb_spec (Jwt.exp claims) (now / 1000)) as [|Hfresh];
      [discriminate|].
    destruct (findById (Jwt.userId claims) db) as [stored|] eqn:Hfind;
      [|discriminate].
    cbn [hydrate doc].
    change (isActive (with_password None stored)) with (isActive stored).
    change (isLocked (with_password None stored) now)
      with (isLocked stored now).
    destruct (isActive stored) eqn:Hactive; cbn [negb]; [|discriminate].
    destruct (isLocked stored now) eqn:Hlocked; [discriminate|].
    intro Hnext. injection Hnext as <-.
    exists claims, stored. repeat split; assumption.
  - destruct raw; discriminate.
  - discriminate.
Qed.

(** When [authenticateToken] lets a request through, the bearer token
    is signed under [JWT_SECRET] and has not expired, and [req.user]
    is the stored account its subject names, loaded without the
    password hash, active and not locked at that moment. *)
Theorem authenticateToken_sound db bearer now u :
  authenticateToken db bearer now = next u ->
  exists claims stored,
    bearer = Some (Jwt.Signed JWT_SECRET claims) /\
    now / 1000 < Jwt.exp claims /\
    findById (Jwt.userId claims) db = Some stored /\
    u = with_password None stored /\
    password u = None /\
    isActive stored = true /\
    isLocked stored now = false.
Proof.
  intro Hnext.
  destruct (authenticateToken_next_inv db bearer now u Hnext)
    as [claims [stored [Hb [Hfresh [Hfind [Hu [Hactive Hlocked]]]]]]].
  exists claims, stored. subst u. repeat split; assumption.
Qed.

(** A refresh token presented as a bearer token is turned away as
    "Invalid token" whatever the store holds, as long as the two
    signing secrets differ. *)
Theorem gate_rejects_refresh_token db id issued now :
  String.eqb JWT_REFRESH_SECRET JWT_SECRET = false ->
  authenticateToken db (Some (generateRefreshToken id issued)) now =
    halt (json 401 false "Invalid token").
Proof.
  intro Hsecrets.
  unfold authenticateToken, generateRefreshToken, Jwt.sign, Jwt.verify.
  cbn [present]. rewrite Hsecrets. reflexivity.
Qed.

(** [optionalAuth] attaches an account exactly when [authenticateToken]
    would let the same request through, and then the same account. *)
Theorem optionalAuth_agrees_with_gate db bearer now u :
  optionalAuth db bearer now = Some u <->
  authenticateToken db bearer now = next u.
Proof.
  unfold optionalAuth, authenticateToken.
  destruct (present bearer) as [t|]; [|split; discriminate].
  destruct (Jwt.verify t JWT_SECRET now) as [decoded|[m c|m|m|m]];
    try (split; discriminate).
  destruct (findById (Jwt.userId decoded) db) as [stored|];
    [|split; discriminate].
  cbv zeta.
  destruct (isActive (doc (hydrate false stored))); cbn [negb andb];
    [|split; discriminate].
  destruct (isLocked (doc (hydrate false stored)) now); cbn [negb];
    [split; discriminate|].
  split; intro H; injection H as <-; reflexivity.
Qed.

End GateGuarantees.

(** ** Role checks *)

Lemma has_role_monotone (userRoles allowed allowed' : list string) :
  forallb (fun r => existsb (String.eqb r) allowed') allowed = true ->
  existsb (fun role => existsb (String.eqb role) userRoles) allowed = true ->
  existsb (fun role => existsb (String.eqb role) userRoles) allowed' = true.
Proof.
  intros Hincl Hhas.
  apply existsb_exists in Hhas as [r [Hr Hmember]].
  rewrite forallb_forall in Hincl. specialize (Hincl r Hr).
  apply existsb_exists in Hincl as [r' [Hr' Heq]].
  apply String.eqb_eq in Heq. subst r'.
  apply existsb_exists. exists r. split; assumption.
Qed.

(** Whoever passes [requireRole] for a list of roles passes it for
    every list that contains those roles; so whoever passes
    [requireAdmin] passes [requireModerator]. *)
Theorem requireRole_monotone allowed allowed' req_user :
  forallb (fun r => existsb (String.eqb r) allowed') allowed = true ->
  requireRole allowed req_user = proceed ->
  requireRole allowed' req_user = proceed.
Proof.
  intro Hincl. unfold requireRole.
  destruct req_user as [user|]; [|discriminate]. cbv zeta.
  destruct (existsb _ allowed) eqn:Hhas; cbn [negb]; [|discriminate].
  intros _.
  rewrite (has_role_monotone _ allowed allowed' Hincl Hhas). reflexivity.
Qed.

(** The fallback to the role "user" applies only when the [roles] path
    is undefined.  An account whose roles array is empty passes no
    role check at all, not even [requireRole(['user'])]; and a check
    that allows no role lets nobody through. *)
Theorem requireRole_without_roles allowed acc req_user :
  requireRole allowed (Some {| account := acc; roles := Some [] |}) =
    refuse (json 403 false "Insufficient permissions") /\
  requireRole ["user"] (Some {| account := acc; roles := None |}) = proceed /\
  requireRole [] req_user <> proceed.
Proof.
  split; [|split].
  - unfold requireRole. cbn [roles or_default].
    replace (existsb (fun role => existsb (String.eqb role) []) allowed)
      with false; [reflexivity|].
    induction allowed as [|r rest IH]; [reflexivity | exact IH].
  - reflexivity.
  - destruct req_user; discriminate.
Qed.

(** ** Token kinds and lifetimes *)

Section TokenProperties.
Context {env : ProcessEnv} {bcrypt : Bcrypt}.

Lemma verifyTyped_own secret kind uid ts lifetime issued now :
  verifyTyped secret kind
    (Jwt.sign uid (Some kind) ts secret lifetime issued) now =
  if now / 1000 <? issued / 1000 + lifetime
  then inl {| Jwt.userId := uid; Jwt.type := Some kind; Jwt.timestamp := ts;
              Jwt.iat := issued / 1000;
              Jwt.exp := issued / 1000 + lifetime |}
  else inr (TokenExpiredError "jwt expired").
Proof.
  unfold verifyTyped, Jwt.sign, Jwt.verify. cbn [Jwt.exp Jwt.type].
  rewrite !String.eqb_refl. cbn [negb].
  destruct (Z.leb_spec (issued / 1000 + lifetime) (now / 1000));
    destruct (Z.ltb_spec (now / 1000) (issued / 1000 + lifetime));
    try lia; cbn [Jwt.type]; rewrite ?String.eqb_refl; reflexivity.
Qed.

(** Each typed verifier accepts the token of its own generator
    exactly until the lifetime runs out (in whole seconds since the
    second of issue), returns the claims the generator signed, and
    from then on throws TokenExpiredError. *)
Theorem issued_tokens_verify_until_expiry id issued now :
  verifyRefreshToken (generateRefreshToken id issued) now =
    (if now / 1000 <? issued / 1000 + refreshLifetime
     then inl {| Jwt.userId := Some id; Jwt.type := Some "refresh";
                 Jwt.timestamp := None; Jwt.iat := issued / 1000;
                 Jwt.exp := issued / 1000 + refreshLifetime |}
     else inr (TokenExpiredError "jwt expired")) /\
  verifyPasswordResetToken (generatePasswordResetToken issued) now =
    (if now / 1000 <? issued / 1000 + 60 * 60
     then inl {| Jwt.userId := None; Jwt.type := Some "password-reset";
                 Jwt.timestamp := Some issued; Jwt.iat := issued / 1000;
                 Jwt.exp := issued / 1000 + 60 * 60 |}
     else inr (TokenExpiredError "jwt expired")) /\
  verifyEmailVerificationToken (generateEmailVerificationToken id issued) now =
    (if now / 1000 <? issued / 1000 + 24 * 60 * 60
     then inl {| Jwt.userId := Some id; Jwt.type := Some "email-verification";
                 Jwt.timestamp := None; Jwt.iat := issued / 1000;
                 Jwt.exp := issued / 1000 + 24 * 60 * 60 |}
     else inr (TokenExpiredError "jwt expired")).
Proof.
  split; [|split]; apply verifyTyped_own.
Qed.

Lemma verifyTyped_other_kind secret kind uid ty ts key lifetime issued now :
  ty <> Some kind ->
  exists err,
    verifyTyped secret kind (Jwt.sign uid ty ts key lifetime issued) now
      = inr err.
Proof.
  intro Hkind. unfold verifyTyped, Jwt.sign, Jwt.verify.
  destruct (negb (String.eqb key secret)); [eexists; reflexivity|].
  cbn [Jwt.exp].
  destruct (issued / 1000 + lifetime <=? now / 1000); [eexists; reflexivity|].
  cbn [Jwt.type]. destruct ty as [t|]; [|eexists; reflexivity].
  destruct (String.eqb_spec t kind) as [->|_]; [congruence|].
  eexists. reflexivity.
Qed.

Lemma refresh_verify_fails db t now err :
  present (Some t) = Some t ->
  verifyRefreshToken t now = inr err ->
  refresh db (Some t) now = Threw err.
Proof.
  intros Hpresent Hverify. unfold refresh. rewrite Hpresent, Hverify.
  reflexivity.
Qed.

Lemma resetPassword_verify_fails db t newPassword now salt err :
  verifyPasswordResetToken t now = inr err ->
  resetPassword db t newPassword now salt = (db, InvalidResetToken).
Proof.
  intro Hverify. unfold resetPassword. rewrite Hverify. reflexivity.
Qed.

(** The refresh handler never exchanges an access, password-reset or
    email-verification token, and the reset-password handler never
    accepts an access, refresh or email-verification token: whatever
    the store, the clock and the configured secrets, the handler
    throws and writes nothing. *)
Theorem handlers_refuse_tokens_of_other_kinds
    db id issued now newPassword salt :
  (exists err, refresh db (Some (generateToken id issued)) now = Threw err) /\
  (exists err,
      refresh db (Some (generatePasswordResetToken issued)) now = Threw err) /\
  (exists err,
      refresh db (Some (generateEmailVerificationToken id issued)) now
        = Threw err) /\
  resetPassword db (generateToken id issued) newPassword now salt
    = (db, InvalidResetToken) /\
  resetPassword db (generateRefreshToken id issued) newPassword now salt
    = (db, InvalidResetToken) /\
  resetPassword db (generateEmailVerificationToken id issued)
                newPassword now salt
    = (db, InvalidResetToken).
Proof.
  repeat split.
  - destruct (verifyTyped_other_kind JWT_REFRESH_SECRET "refresh" (Some id)
                None None JWT_SECRET accessLifetime issued now)
      as [err Herr]; [discriminate|].
    exists err. apply refresh_verify_fails; [reflexivity | exact Herr].
  - destruct (verifyTyped_other_kind JWT_REFRESH_SECRET "refresh" None
                (Some "password-reset") (Some issued) JWT_SECRET (60 * 60)
                issued now) as [err Herr]; [discriminate|].
    exists err. apply refresh_verify_fails; [reflexivity | exact Herr].
  - destruct (verifyTyped_other_kind JWT_REFRESH_SECRET "refresh" (Some id)
                (Some "email-verification") None JWT_SECRET (24 * 60 * 60)
                issued now) as [err Herr]; [discriminate|].
    exists err. apply refresh_verify_fails; [reflexivity | exact Herr].
  - destruct (verifyTyped_other_kind JWT_SECRET "password-reset" (Some id)
                None None JWT_SECRET accessLifetime issued now)
      as [err Herr]; [discriminate|].
    exact (resetPassword_verify_fails db _ newPassword now salt err Herr).
  - destruct (verifyTyped_other_kind JWT_SECRET "password-reset" (Some id)
                (Some "refresh") None JWT_REFRESH_SECRET refreshLifetime
                issued now) as [err Herr]; [discriminate|].
    exact (resetPassword_verify_fails db _ newPassword now salt err Herr).
  - destruct (verifyTyped_other_kind JWT_SECRET "password-reset" (Some id)
                (Some "email-verification") None JWT_SECRET (24 * 60 * 60)
                issued now) as [err Herr]; [discriminate|].
    exact (resetPassword_verify_fails db _ newPassword now salt err Herr).
Qed.

End TokenProperties.

(** ** Successful login *)

Lemma distinct_absent i ids :
  distinct (i :: ids) = true -> ~ In i ids.
Proof.
  cbn [distinct]. intros H Hin. apply andb_true_iff in H as [H _].
  apply negb_true_iff in H.
  assert (existsb (Z.eqb i) ids = true) as Hex
    by (apply existsb_exists; exists i; split; [exact Hin | apply Z.eqb_refl]).
  congruence.
Qed.

(** With distinct ids, the account a query finds is the one its id
    finds. *)
Lemma unique_find (q : User -> bool) (db : DB) (s : User) :
  uniqueIds db = true ->
  find q db = Some s ->
  findById (Some (_id s)) db = Some s.
Proof.
  unfold uniqueIds, findById.
  induction db as [|x rest IH]; [discriminate|].
  intros Huniq Hfind. cbn [find] in *. cbn [map] in Huniq.
  destruct (q x).
  - injection Hfind as ->. rewrite Z.eqb_refl. reflexivity.
  - destruct (Z.eqb_spec (_id x) (_id s)) as [Heq|_].
    + exfalso. apply (distinct_absent _ _ Huniq).
      rewrite Heq. apply in_map. apply find_some in Hfind. tauto.
    + apply IH; [|exact Hfind].
      cbn [distinct] in Huniq. apply andb_true_iff in Huniq. tauto.
Qed.

Section LoginSuccess.
Context {env : ProcessEnv} {bcrypt : Bcrypt}.

(** The three saves of the success path, with the [updateOne] in
    front of them, amount to one update of the stored account. *)
Lemma login_success_run db e pw now salt stored :
  findOne (by_email e) db = Some stored ->
  isLocked stored now = false ->
  isActive stored = true ->
  comparePassword stored pw = true ->
  fst (login db e pw now salt) =
    map (fun s => if _id s =? _id stored then afterLogin stored now s else s)
        db /\
  exists user,
    snd (login db e pw now salt) =
      Sent {| status := 200; success := true; message := "Login successful";
              data := Some (userAndTokens user
                              (generateToken (_id stored) now)
                              (generateRefreshToken (_id stored) now));
              resetToken := None |}.
Proof.
  intros Hfind Hunlocked Hactive Hpw.
  unfold login. rewrite Hfind. cbv zeta. cbn [hydrate doc].
  rewrite Hunlocked, Hactive, Hpw. cbn [negb].
  unfold cleanExpiredTokens, save. cbn. split; [|eexists; reflexivity].
  unfold afterLogin, updateOne.
  destruct (0 <? loginAttempts stored); rewrite !map_map; apply map_ext;
    intro s; destruct (_id s =? _id stored) eqn:Hs;
    cbn; rewrite ?Hs; cbn; rewrite ?Hs; cbn; rewrite ?Hs; reflexivity.
Qed.

Lemma afterLogin_id stored now s : _id (afterLogin stored now s) = _id s.
Proof. unfold afterLogin. destruct (0 <? loginAttempts stored); reflexivity. Qed.

Lemma afterLogin_email stored now s : email (afterLogin stored now s) = email s.
Proof. unfold afterLogin. destruct (0 <? loginAttempts stored); reflexivity. Qed.

Lemma afterLogin_isActive stored now s :
  isActive (afterLogin stored now s) = isActive s.
Proof. unfold afterLogin. destruct (0 <? loginAttempts stored); reflexivity. Qed.

Lemma afterLogin_found db e now stored :
  findOne (by_email e) db = Some stored ->
  findOne (by_email e)
    (map (fun s => if _id s =? _id stored then afterLogin stored now s else s)
         db) = Some (afterLogin stored now stored).
Proof.
  intro Hfind. unfold findOne in *. rewrite find_map_stable.
  - rewrite Hfind. cbn [option_map]. rewrite Z.eqb_refl. reflexivity.
  - intro u. unfold by_email.
    destruct (_id u =? _id stored); [rewrite afterLogin_email|]; reflexivity.
Qed.

Lemma afterLogin_by_id db now stored :
  findById (Some (_id stored)) db = Some stored ->
  findById (Some (_id stored))
    (map (fun s => if _id s =? _id stored then afterLogin stored now s else s)
         db) = Some (afterLogin stored now stored).
Proof.
  intro Hfind. unfold findById in *. rewrite find_map_stable.
  - rewrite Hfind. cbn [option_map]. rewrite Z.eqb_refl. reflexivity.
  - intro u.
    destruct (_id u =? _id stored) eqn:Hu; rewrite ?afterLogin_id, ?Hu;
      reflexivity.
Qed.

(** A login with the right password on an active, unlocked account
    answers 200 with an access and a refresh token for it, and leaves
    the account with last-login at the present, the failed-attempt
    counter and the lock cleared when the counter was positive, no
    expired refresh token in its list, and the new refresh token at
    the end of it. *)
Theorem login_success_effect db e pw now salt stored :
  findOne (by_email e) db = Some stored ->
  isLocked stored now = false ->
  isActive stored = true ->
  comparePassword stored pw = true ->
  exists user u',
    snd (login db e pw now salt) =
      Sent {| status := 200; success := true; message := "Login successful";
              data := Some (userAndTokens user
                              (generateToken (_id stored) now)
                              (generateRefreshToken (_id stored) now));
              resetToken := None |} /\
    findOne (by_email e) (fst (login db e pw now salt)) = Some u' /\
    lastLogin u' = Some now /\
    (0 < loginAttempts stored -> loginAttempts u' = 0 /\ lockUntil u' = None) /\
    isLocked u' now = false /\
    refreshTokens u' =
      (filter (fun tokenObj => now <? expiresAt tokenObj)
              (refreshTokens stored)
       ++ [{| token := generateRefreshToken (_id stored) now;
              createdAt := now;
              expiresAt := now + 7 * 24 * 60 * 60 * 1000 |}])%list /\
    forallb (fun tokenObj => now <? expiresAt tokenObj) (refreshTokens u')
      = true.
Proof.
  intros Hfind Hunlocked Hactive Hpw.
  destruct (login_success_run db e pw now salt stored
              Hfind Hunlocked Hactive Hpw) as [Hdb [user Hout]].
  exists user, (afterLogin stored now stored).
  split; [exact Hout|]. rewrite Hdb.
  split; [exact (afterLogin_found db e now stored Hfind)|].
  split; [reflexivity|]. split; [|split; [|split; [reflexivity|]]].
  - intro Hpos. apply Z.ltb_lt in Hpos. unfold afterLogin. rewrite Hpos.
    split; reflexivity.
  - unfold afterLogin, isLocked.
    destruct (0 <? loginAttempts stored); [reflexivity|]. exact Hunlocked.
  - unfold afterLogin. cbn [refreshTokens with_refreshTokens].
    rewrite forallb_app. apply andb_true_iff. split.
    + apply forallb_forall. intros x Hx. apply filter_In in Hx. tauto.
    + cbn. rewrite andb_true_r. apply Z.ltb_lt. lia.
Qed.

Lemma verifyRefreshToken_own id issued now :
  now / 1000 < issued / 1000 + refreshLifetime ->
  verifyRefreshToken (generateRefreshToken id issued) now =
    inl {| Jwt.userId := Some id; Jwt.type := Some "refresh";
           Jwt.timestamp := None; Jwt.iat := issued / 1000;
           Jwt.exp := issued / 1000 + refreshLifetime |}.
Proof.
  intro Hfresh. unfold verifyRefreshToken, generateRefreshToken.
  fold refreshLifetime. rewrite verifyTyped_own.
  apply Z.ltb_lt in Hfresh. rewrite Hfresh. reflexivity.
Qed.

(** The refresh token a successful login returns is exchanged by the
    refresh handler, in the store the login left, at any moment
    before its lifetime ends. *)
Theorem login_then_refresh db e pw now salt stored now' :
  uniqueIds db = true ->
  findOne (by_email e) db = Some stored ->
  isLocked stored now = false ->
  isActive stored = true ->
  comparePassword stored pw = true ->
  now' / 1000 < now / 1000 + refreshLifetime ->
  refresh (fst (login db e pw now salt))
          (Some (generateRefreshToken (_id stored) now)) now' =
    Sent {| status := 200; success := true;
            message := "Token refreshed successfully";
            data := Some (newToken (generateToken (_id stored) now'));
            resetToken := None |}.
Proof.
  intros Huniq Hfind Hunlocked Hactive Hpw Hfresh.
  destruct (login_success_run db e pw now salt stored
              Hfind Hunlocked Hactive Hpw) as [Hdb _].
  rewrite Hdb. unfold refresh.
  change (present (Some (generateRefreshToken (_id stored) now)))
    with (Some (generateRefreshToken (_id stored) now)).
  cbv beta iota.
  rewrite (verifyRefreshToken_own (_id stored) now now' Hfresh).
  cbn [Jwt.userId].
  rewrite (afterLogin_by_id db now stored (unique_find _ db stored Huniq Hfind)).
  unfold afterLogin at 1. cbn [refreshTokens with_refreshTokens].
  rewrite existsb_app. cbn [existsb token].
  rewrite Token_eqb_refl. cbn [orb]. rewrite orb_true_r. cbn [negb].
  rewrite afterLogin_isActive, afterLogin_id, Hactive. reflexivity.
Qed.

(** The gate on an unexpired access token of [generateToken]. *)
Lemma gate_access_token db id issued now stored :
  findById (Some id) db = Some stored ->
  now / 1000 < issued / 1000 + accessLifetime ->
  authenticateToken db (Some (generateToken id issued)) now =
    if negb (isActive stored) then
      halt (json 401 false "Account is deactivated")
    else if isLocked stored now then
      halt (json 401 false "Account is temporarily locked")
    else next (with_password None stored).
Proof.
  intros Hfind Hfresh.
  unfold authenticateToken, generateToken, Jwt.sign, Jwt.verify.
  cbn [present Jwt.exp]. rewrite String.eqb_refl. cbn [negb].
  unfold accessLifetime in Hfresh.
  destruct (Z.leb_spec (issued / 1000 + or_default JWT_EXPIRE (24 * 60 * 60))
              (now / 1000)); [lia|].
  cbn [Jwt.userId]. rewrite Hfind. reflexivity.
Qed.

(** The access token a successful login returns passes the request
    gate, in the store the login left, from the login on until its
    lifetime ends; [req.user] is the account as the login left it. *)
Theorem login_then_gate db e pw now salt stored now' :
  uniqueIds db = true ->
  findOne (by_email e) db = Some stored ->
  isLocked stored now = false ->
  isActive stored = true ->
  comparePassword stored pw = true ->
  now <= now' ->
  now' / 1000 < now / 1000 + accessLifetime ->
  authenticateToken (fst (login db e pw now salt))
                    (Some (generateToken (_id stored) now)) now' =
    next (with_password None (afterLogin stored now stored)).
Proof.
  intros Huniq Hfind Hunlocked Hactive Hpw Hlater Hfresh.
  destruct (login_success_run db e pw now salt stored
              Hfind Hunlocked Hactive Hpw) as [Hdb _].
  rewrite Hdb.
  rewrite (gate_access_token _ (_id stored) now now'
             (afterLogin stored now stored)
             (afterLogin_by_id db now stored
                (unique_find _ db stored Huniq Hfind)) Hfresh).
  rewrite afterLogin_isActive, Hactive. cbn [negb].
  replace (isLocked (afterLogin stored now stored) now') with false;
    [reflexivity|].
  symmetry. unfold afterLogin, isLocked. cbn.
  destruct (0 <? loginAttempts stored); [reflexivity|].
  unfold isLocked in Hunlocked.
  destruct (lockUntil stored) as [l|]; [|reflexivity].
  apply Z.ltb_ge in Hunlocked. apply Z.ltb_ge. lia.
Qed.

Lemma refresh_sent_inv db (rt : Token) now res :
  refresh db (Some rt) now = Sent res ->
  exists stored,
    findById (subjectOf rt) db = Some stored /\
    by_refreshToken rt stored = true /\
    isActive stored = true /\
    res = {| status := 200; success := true;
             message := "Token refreshed successfully";
             data := Some (newToken (generateToken (_id stored) now));
             resetToken := None |}.
Proof.
  unfold refresh.
  destruct (present (Some rt)) as [t|] eqn:Hpresent; [|discriminate].
  assert (t = rt) as ->.
  { destruct rt as [key claims|raw]; cbn in Hpresent; [congruence|].
    destruct raw; [discriminate | congruence]. }
  destruct (verifyRefreshToken rt now) as [decoded|err] eqn:Hverify;
    [|discriminate].
  destruct (verifyTyped_signed _ _ _ _ _ Hverify) as [key ->].
  cbn [subjectOf].
  destruct (findById (Jwt.userId decoded) db) as [stored|] eqn:Hfind;
    [|discriminate].
  cbv zeta. fold (by_refreshToken (Jwt.Signed key decoded) stored).
  destruct (by_refreshToken (Jwt.Signed key decoded) stored) eqn:Hlisted;
    cbn [negb]; [|discriminate].
  destruct (isActive stored) eqn:Hactive; cbn [negb]; [|discriminate].
  intro H. injection H as <-.
  exists stored.
  split; [reflexivity|]. split; [exact Hlisted|]. split; [exact Hactive|].
  reflexivity.
Qed.

(** What a successful refresh means: the token is listed by the
    active account of its subject, and the access token returned
    passes the request gate until its lifetime ends unless the
    account is locked at that moment (the refresh handler itself does
    not look at the lock). *)
Theorem refresh_success_then_gate db (rt : Token) now res :
  refresh db (Some rt) now = Sent res ->
  exists stored,
    findById (subjectOf rt) db = Some stored /\
    by_refreshToken rt stored = true /\
    isActive stored = true /\
    res = {| status := 200; success := true;
             message := "Token refreshed successfully";
             data := Some (newToken (generateToken (_id stored) now));
             resetToken := None |} /\
    forall now',
      now' / 1000 < now / 1000 + accessLifetime ->
      authenticateToken db (Some (generateToken (_id stored) now)) now' =
        if isLocked stored now'
        then halt (json 401 false "Account is temporarily locked")
        else next (with_password None stored).
Proof.
  intro Hsent.
  destruct (refresh_sent_inv db rt now res Hsent)
    as [stored [Hfind [Hlisted [Hactive Hres]]]].
  exists stored.
  split; [exact Hfind|]. split; [exact Hlisted|]. split; [exact Hactive|].
  split; [exact Hres|].
  intros now' Hfresh.
  assert (Hid : findById (Some (_id stored)) db = Some stored).
  { destruct (subjectOf rt) as [i|]; [|discriminate].
    rewrite (findById_id _ _ _ Hfind). exact Hfind. }
  rewrite (gate_access_token db (_id stored) now now' stored Hid Hfresh).
  rewrite Hactive. reflexivity.
Qed.

End LoginSuccess.

(** ** Logout *)

Lemma unique_same_id (db : DB) (s v : User) :
  uniqueIds db = true -> In s db -> In v db -> _id s = _id v -> s = v.
Proof.
  unfold uniqueIds. induction db as [|x rest IH]; [contradiction|].
  intros Huniq Hs Hv Hid. cbn [map] in Huniq.
  pose proof (distinct_absent _ _ Huniq) as Habsent.
  cbn [distinct] in Huniq. apply andb_true_iff in Huniq as [_ Hrest].
  destruct Hs as [->|Hs]; destruct Hv as [->|Hv].
  - reflexivity.
  - exfalso. apply Habsent. rewrite Hid. apply in_map. exact Hv.
  - exfalso. apply Habsent. rewrite <- Hid. apply in_map. exact Hs.
  - exact (IH Hrest Hs Hv Hid).
Qed.

Lemma existsb_filter_other (t rt : Token) (l : list RefreshToken) :
  Jwt.Token_eqb t rt = false ->
  existsb (fun tokenObj => Jwt.Token_eqb (token tokenObj) t)
    (filter (fun tokenObj => negb (Jwt.Token_eqb (token tokenObj) rt)) l) =
  existsb (fun tokenObj => Jwt.Token_eqb (token tokenObj) t) l.
Proof.
  intro Hother. induction l as [|x l IH]; [reflexivity|].
  cbn [filter existsb].
  destruct (Jwt.Token_eqb (token x) rt) eqn:Hx; cbn [negb existsb].
  - rewrite IH.
    replace (Jwt.Token_eqb (token x) t) with false; [reflexivity|].
    symmetry. unfold Jwt.Token_eqb in *.
    destruct (Jwt.Token_eq_dec (token x) rt) as [Hxrt|]; [|discriminate].
    destruct (Jwt.Token_eq_dec (token x) t) as [Hxt|]; [|reflexivity].
    destruct (Jwt.Token_eq_dec t rt); [discriminate | congruence].
  - rewrite IH. reflexivity.
Qed.

Section LogoutProperties.
Context {env : ProcessEnv} {bcrypt : Bcrypt}.

Lemma present_some rt t : present (Some rt) = Some t -> t = rt.
Proof.
  destruct rt as [key claims|raw]; cbn; [congruence|].
  destruct raw; [discriminate | congruence].
Qed.

Lemma logout_shape db (rt : Token) salt :
  (logout db (Some rt) salt = (db, loggedOut) /\
   (rt = Jwt.Malformed "" \/ findOne (by_refreshToken rt) db = None)) \/
  exists v,
    findOne (by_refreshToken rt) db = Some v /\
    logout db (Some rt) salt =
      (map (fun stored =>
              if _id stored =? _id v
              then with_refreshTokens
                     (filter (fun tokenObj =>
                                negb (Jwt.Token_eqb (token tokenObj) rt))
                             (refreshTokens v)) stored
              else stored) db,
       loggedOut).
Proof.
  destruct (present (Some rt)) as [t|] eqn:Hpresent.
  - rewrite (present_some rt t Hpresent) in Hpresent.
    destruct (findOne (by_refreshToken rt) db) as [v|] eqn:Hfind.
    + right. exists v. split; [reflexivity|].
      pose proof (logout_db db rt salt v Hpresent Hfind) as Hdb.
      unfold logout in *. rewrite Hpresent, Hfind in *. cbn [fst] in Hdb.
      cbv zeta. rewrite Hdb. reflexivity.
    + left. unfold logout. rewrite Hpresent, Hfind. split; [reflexivity|].
      right. reflexivity.
  - left. unfold logout. rewrite Hpresent. split; [reflexivity|]. left.
    destruct rt as [key claims|raw]; [discriminate|].
    destruct raw; [reflexivity | discriminate].
Qed.

(** A token that no claim set stands behind is listed nowhere in a
    store where listed tokens name their holder. *)
Lemma tokensOwned_unlisted db (rt : Token) :
  tokensOwned db = true ->
  subjectOf rt = None ->
  findOne (by_refreshToken rt) db = None.
Proof.
  intros Hinv Hsubject. apply find_none_iff.
  destruct (existsb (by_refreshToken rt) db) eqn:Hex; [|reflexivity].
  apply existsb_exists in Hex as [x [Hx Hholds]].
  unfold tokensOwned in Hinv. rewrite forallb_forall in Hinv.
  specialize (Hinv x Hx). rewrite forallb_forall in Hinv.
  unfold by_refreshToken in Hholds.
  apply existsb_exists in Hholds as [o [Ho Heq]].
  specialize (Hinv o Ho). unfold ownedBy in Hinv.
  unfold Jwt.Token_eqb in Heq.
  destruct (Jwt.Token_eq_dec (token o) rt) as [Htok|]; [|discriminate].
  rewrite Htok, Hsubject in Hinv. discriminate.
Qed.

(** Logging out with one refresh token removes that token only: every
    other refresh token stays listed where it was, and no other field
    of any account changes. *)
Theorem logout_keeps_other_sessions db (rt : Token) salt (t : Token) :
  uniqueIds db = true ->
  Jwt.Token_eqb t rt = false ->
  map (by_refreshToken t) (fst (logout db (Some rt) salt))
    = map (by_refreshToken t) db /\
  map (with_refreshTokens []) (fst (logout db (Some rt) salt))
    = map (with_refreshTokens []) db.
Proof.
  intros Huniq Hother.
  destruct (logout_shape db rt salt) as [[Hrun _]|[v [Hfind Hrun]]];
    rewrite Hrun; cbn [fst]; [split; reflexivity|].
  unfold findOne in Hfind. apply find_some in Hfind as [Hv _].
  rewrite !map_map. split; apply map_ext_in; intros s Hs;
    destruct (Z.eqb_spec (_id s) (_id v)) as [Hid|_]; try reflexivity.
  rewrite (unique_same_id db s v Huniq Hs Hv Hid).
  unfold by_refreshToken. cbn [refreshTokens with_refreshTokens].
  apply existsb_filter_other. exact Hother.
Qed.

(** In a store where listed tokens name their holder, a second logout
    with the same token changes nothing more: after the first one no
    account lists the token. *)
Theorem logout_idempotent db (rt : Token) salt salt' :
  tokensOwned db = true ->
  findOne (by_refreshToken rt) (fst (logout db (Some rt) salt)) = None /\
  logout (fst (logout db (Some rt) salt)) (Some rt) salt' =
    (fst (logout db (Some rt) salt), loggedOut).
Proof.
  intro Hinv.
  assert (Hnone : findOne (by_refreshToken rt)
                    (fst (logout db (Some rt) salt)) = None).
  { destruct (logout_shape db rt salt)
      as [[Hrun [Hempty|Hnone]]|[v [Hfind Hrun]]]; rewrite Hrun; cbn [fst].
    - apply tokensOwned_unlisted; [exact Hinv|]. rewrite Hempty. reflexivity.
    - exact Hnone.
    - apply find_none_iff.
      pose proof (tokensOwned_stored db _ v Hinv Hfind) as Hvowned.
      unfold findOne in Hfind. apply find_some in Hfind as [Hv Hholds].
      destruct (existsb _ _) eqn:Hex; [|reflexivity].
      apply existsb_exists in Hex as [x' [Hx' Hholds']].
      apply in_map_iff in Hx' as [x [<- Hx]].
      destruct (Z.eqb_spec (_id x) (_id v)) as [Hid|Hid].
      + unfold by_refreshToken in Hholds'.
        cbn [refreshTokens with_refreshTokens] in Hholds'.
        rewrite filtered_out in Hholds'. discriminate.
      + exfalso. apply Hid.
        assert (Hfx : forallb (ownedBy (_id x)) (refreshTokens x) = true).
        { unfold tokensOwned in Hinv. rewrite forallb_forall in Hinv.
          exact (Hinv x Hx). }
        unfold by_refreshToken in Hholds, Hholds'.
        apply existsb_exists in Hholds as [o [Ho Heq]].
        apply existsb_exists in Hholds' as [o' [Ho' Heq']].
        rewrite forallb_forall in Hvowned, Hfx.
        specialize (Hvowned o Ho). specialize (Hfx o' Ho').
        unfold ownedBy in Hvowned, Hfx. unfold Jwt.Token_eqb in Heq, Heq'.
        destruct (Jwt.Token_eq_dec (token o) rt) as [Ht|]; [|discriminate].
        destruct (Jwt.Token_eq_dec (token o') rt) as [Ht'|]; [|discriminate].
        rewrite Ht in Hvowned. rewrite Ht' in Hfx.
        destruct (subjectOf rt) as [i|]; [|discriminate].
        apply Z.eqb_eq in Hvowned. apply Z.eqb_eq in Hfx. congruence. }
  split; [exact Hnone|].
  destruct (logout_shape (fst (logout db (Some rt) salt)) rt salt')
    as [[Hrun _]|[v [Hfind _]]]; [exact Hrun | congruence].
Qed.

End LogoutProperties.

(** ** The password-reset flow *)

Lemma div_1000_add_hour (issued : Z) :
  (issued + 60 * 60 * 1000) / 1000 = issued / 1000 + 60 * 60.
Proof.
  replace (issued + 60 * 60 * 1000) with (issued + (60 * 60) * 1000) by lia.
  apply Z.div_add. lia.
Qed.

Section ResetFlow.
Context {env : ProcessEnv} {bcrypt : Bcrypt}.

(** A password-reset token is dead one hour after the millisecond of
    its issue: from then on resetPassword answers 400 "Invalid or
    expired reset token" and writes nothing, whatever the store
    holds. *)
Theorem reset_token_dead_after_an_hour db issued now newPassword salt :
  issued + 60 * 60 * 1000 <= now ->
  resetPassword db (generatePasswordResetToken issued) newPassword now salt
    = (db, InvalidResetToken).
Proof.
  intro Hlate.
  apply (resetPassword_verify_fails db _ newPassword now salt
           (TokenExpiredError "jwt expired")).
  unfold verifyPasswordResetToken, generatePasswordResetToken.
  rewrite verifyTyped_own.
  pose proof (Z.div_le_mono _ _ 1000 ltac:(lia) Hlate) as Hdiv.
  rewrite div_1000_add_hour in Hdiv.
  destruct (Z.ltb_spec (now / 1000) (issued / 1000 + 60 * 60));
    [lia | reflexivity].
Qed.

Lemma forgotPassword_run db e now salt stored :
  findOne (by_email e) db = Some stored ->
  fst (forgotPassword db e now salt) =
    map (fun s =>
           if _id s =? _id stored
           then with_passwordResetExpires (Some (now + 60 * 60 * 1000))
                  (with_passwordResetToken
                     (Some (generatePasswordResetToken now)) s)
           else s) db.
Proof.
  intro Hfind. unfold forgotPassword. rewrite Hfind. cbv zeta. cbn [fst].
  rewrite save_db. apply map_ext. intro s. cbn.
  destruct (_id s =? _id stored); reflexivity.
Qed.

(** The token that forgotPassword stores for an account resets that
    account's password while it has not expired, provided no other
    account stores the same token value: resetPassword answers 200,
    the account's hash becomes the hash of the new password, its
    stored reset token and expiry are cleared and its refresh-token
    list is emptied. *)
Theorem forgot_then_reset db e now salt stored newPassword now' salt' :
  findOne (by_email e) db = Some stored ->
  now' / 1000 < now / 1000 + 60 * 60 ->
  existsb (fun v => negb (_id v =? _id stored)
                    && by_resetToken (generatePasswordResetToken now) now' v)
          db = false ->
  let requested := fst (forgotPassword db e now salt) in
  let reset :=
    resetPassword requested (generatePasswordResetToken now)
                  newPassword now' salt' in
  snd reset = PasswordResetDone /\
  exists u',
    findById (Some (_id stored)) (fst reset) = Some u' /\
    password u' = Some (bcrypt_hash newPassword salt') /\
    passwordResetToken u' = None /\
    passwordResetExpires u' = None /\
    refreshTokens u' = [].
Proof.
  intros Hfind Hfresh Hothers requested reset. subst reset requested.
  rewrite (forgotPassword_run db e now salt stored Hfind).
  set (tok := generatePasswordResetToken now) in *.
  set (mark := fun s : User =>
         if _id s =? _id stored
         then with_passwordResetExpires (Some (now + 60 * 60 * 1000))
                (with_passwordResetToken (Some tok) s)
         else s).
  assert (Hverify : exists decoded,
             verifyPasswordResetToken tok now' = inl decoded).
  { unfold verifyPasswordResetToken, tok, generatePasswordResetToken.
    rewrite verifyTyped_own. apply Z.ltb_lt in Hfresh. rewrite Hfresh.
    eexists. reflexivity. }
  destruct Hverify as [decoded Hverify].
  assert (Hahead : now' < now + 60 * 60 * 1000).
  { pose proof (Z.mul_div_le now 1000 ltac:(lia)).
    pose proof (Z.mod_pos_bound now' 1000 ltac:(lia)).
    pose proof (Z.div_mod now' 1000 ltac:(lia)). lia. }
  (* the query matches a document of the same id *)
  assert (Hmatch : exists w,
             findOne (by_resetToken tok now') (map mark db) = Some w /\
             _id w = _id stored).
  { unfold findOne in *.
    assert (Hin : In stored db) by (apply find_some in Hfind; tauto).
    clear Hfind. induction db as [|x rest IH]; [contradiction|].
    cbn [map find]. cbn [existsb] in Hothers.
    apply orb_false_iff in Hothers as [Hx Hrest].
    unfold mark at 1.
    destruct (Z.eqb_spec (_id x) (_id stored)) as [Hid|Hid].
    - exists (mark x). unfold mark. rewrite Hid, Z.eqb_refl.
      unfold by_resetToken.
      cbn [passwordResetToken passwordResetExpires
           with_passwordResetExpires with_passwordResetToken].
      rewrite Token_eqb_refl.
      apply Z.ltb_lt in Hahead. rewrite Hahead. cbn [andb].
      split; [reflexivity | exact Hid].
    - cbn [negb andb] in Hx. rewrite Hx.
      destruct Hin as [->|Hin]; [congruence|].
      exact (IH Hrest Hin). }
  destruct Hmatch as [w [Hw Hid]].
  unfold resetPassword. rewrite Hverify, Hw. cbv zeta. cbn [fst snd].
  split; [reflexivity|].
  destruct (find_same_id _ _ _ Hw) as [w0 [Hw0 _]].
  destruct (resetPassword_stored (map mark db) salt' w newPassword w0 Hw0)
    as [u' [Hu' [Hempty [Htoken [Hexpires Hpw]]]]].
  exists u'. rewrite <- Hid. repeat split; assumption.
Qed.

End ResetFlow.

(** ** Counting failed logins *)

Section FailureCounting.
Context {env : ProcessEnv} {bcrypt : Bcrypt}.

Lemma comparePassword_password u v pw :
  password u = password v -> comparePassword u pw = comparePassword v pw.
Proof. intro H. unfold comparePassword. rewrite H. reflexivity. Qed.

(** Wrong passwords on an active account without a lock are each
    answered with the generic 401, are counted one by one, and set no
    lock as long as the counter stays below five. *)
Theorem failures_below_five_do_not_lock attempts : forall db e u,
  findOne (by_email e) db = Some u ->
  isActive u = true ->
  lockUntil u = None ->
  forallb (fun a => negb (comparePassword u (fst (fst a)))) attempts = true ->
  loginAttempts u + Z.of_nat (List.length attempts) < 5 ->
  snd (loginRun db e attempts) = map (fun _ => InvalidCredentials) attempts /\
  exists u',
    findOne (by_email e) (fst (loginRun db e attempts)) = Some u' /\
    loginAttempts u' = loginAttempts u + Z.of_nat (List.length attempts) /\
    lockUntil u' = None.
Proof.
  induction attempts as [|[[pw now] salt] rest IH];
    intros db e u Hfind Hactive Hnolock Hwrong Hbelow.
  - cbn. split; [reflexivity|]. exists u. rewrite Z.add_0_r. auto.
  - cbn [forallb fst] in Hwrong. apply andb_true_iff in Hwrong as [Hpw Hrest].
    apply negb_true_iff in Hpw.
    assert (Hunlocked : isLocked u now = false)
      by (unfold isLocked; rewrite Hnolock; reflexivity).
    destruct (login_wrong_password db e pw now salt u
                Hfind Hunlocked Hactive Hpw) as [Hlogin Hstored].
    cbn [loginRun]. rewrite Hlogin.
    assert (Hops : incLoginAttempts u now = [inc_loginAttempts 1]).
    { unfold incLoginAttempts. rewrite Hnolock, Hunlocked.
      cbn [List.length] in Hbelow.
      destruct (Z.leb_spec 5 (loginAttempts u + 1)); [lia | reflexivity]. }
    rewrite Hops in *. cbn [applyOps fold_left applyOp] in Hstored.
    set (u1 := with_loginAttempts (loginAttempts u + 1) u) in *.
    destruct (IH (updateOne db (_id u) [inc_loginAttempts 1]) e u1 Hstored
                Hactive Hnolock) as [Houts [u' [Hu' [Hcount Hlock]]]].
    + rewrite <- Hrest. clear. induction rest as [|a rest IH];
        [reflexivity|].
      cbn [forallb]. rewrite IH.
      rewrite (comparePassword_password u1 u); reflexivity.
    + cbn [List.length] in Hbelow. subst u1. cbn [loginAttempts with_loginAttempts].
      lia.
    + destruct (loginRun (updateOne db (_id u) [inc_loginAttempts 1]) e rest)
        as [db2 outs].
      cbn [fst snd] in *. split; [rewrite Houts; reflexivity|].
      exists u'. split; [exact Hu'|]. split; [|exact Hlock].
      rewrite Hcount. subst u1. cbn [loginAttempts with_loginAttempts List.length].
      lia.
Qed.

End FailureCounting.

(** ** What requests do to the store *)

Section StoreShapes.
Context {env : ProcessEnv} {bcrypt : Bcrypt}.

(** The four ways a login leaves the store. *)
Lemma login_shape db e pw now salt :
  (login db e pw now salt = (db, InvalidCredentials) /\
   findOne (by_email e) db = None) \/
  (exists stored,
      findOne (by_email e) db = Some stored /\
      ((isLocked stored now = true /\
        login db e pw now salt = (db, AccountLocked)) \/
       (isLocked stored now = false /\ isActive stored = false /\
        login db e pw now salt =
          (db, Threw (AppError "Account is deactivated" 401))) \/
       (isLocked stored now = false /\ isActive stored = true /\
        comparePassword stored pw = false /\
        login db e pw now salt =
          (updateOne db (_id stored) (incLoginAttempts stored now),
           InvalidCredentials)) \/
       (isLocked stored now = false /\ isActive stored = true /\
        comparePassword stored pw = true /\
        sent_ok (snd (login db e pw now salt)) = true /\
        fst (login db e pw now salt) =
          map (fun s =>
                 if _id s =? _id stored then afterLogin stored now s else s)
              db))).
Proof.
  destruct (findOne (by_email e) db) as [stored|] eqn:Hfind.
  - right. exists stored. split; [reflexivity|].
    destruct (isLocked stored now) eqn:Hlocked.
    + left. split; [reflexivity|].
      exact (login_locked db e pw now salt stored Hfind Hlocked).
    + right. destruct (isActive stored) eqn:Hactive.
      * right. destruct (comparePassword stored pw) eqn:Hpw.
        -- right. repeat split.
           ++ destruct (login_success_run db e pw now salt stored
                          Hfind Hlocked Hactive Hpw) as [_ [user ->]].
              reflexivity.
           ++ exact (proj1 (login_success_run db e pw now salt stored
                              Hfind Hlocked Hactive Hpw)).
        -- left. repeat split.
           exact (proj1 (login_wrong_password db e pw now salt stored
                           Hfind Hlocked Hactive Hpw)).
      * left. repeat split. unfold login. rewrite Hfind. cbv zeta.
        cbn [hydrate doc]. rewrite Hlocked, Hactive. reflexivity.
  - left. split; [|reflexivity]. unfold login. rewrite Hfind. reflexivity.
Qed.

Lemma applyOps_isActive ops u : isActive (applyOps ops u) = isActive u.
Proof.
  unfold applyOps. revert u.
  induction ops as [|op ops IH]; intro u; [reflexivity|].
  simpl. rewrite IH. destruct op; reflexivity.
Qed.

(** The identity of an account: its id, its email and its active flag. *)
Lemma save_keeps_identity db salt d :
  map (fun u => (_id u, email u, isActive u)) (fst (save db salt d)) =
  map (fun u => (_id u, email u, isActive u)) db.
Proof.
  rewrite save_db, map_map. apply map_ext. intro s.
  destruct (_id s =? _id (doc d)); [|reflexivity].
  rewrite persist_id, persist_email, persist_isActive. reflexivity.
Qed.

Lemma updateOne_keeps_identity db id ops :
  map (fun u => (_id u, email u, isActive u)) (updateOne db id ops) =
  map (fun u => (_id u, email u, isActive u)) db.
Proof.
  unfold updateOne. rewrite map_map. apply map_ext. intro s.
  destruct (_id s =? id); [|reflexivity].
  rewrite applyOps_id, applyOps_email, applyOps_isActive. reflexivity.
Qed.

Lemma handle_keeps_identity db r now salt :
  map (fun u => (_id u, email u, isActive u)) (fst (handle db r now salt)) =
  map (fun u => (_id u, email u, isActive u)) db.
Proof.
  destruct r as [e pw|rt|rt|e|t pw|bearer cur pw]; cbn [handle].
  - destruct (login_shape db e pw now salt)
      as [[-> _]|[stored [_ [[_ ->]|[[_ [_ ->]]|[[_ [_ [_ ->]]]
                                                |[_ [_ [_ [_ ->]]]]]]]]]];
      cbn [fst]; try reflexivity.
    + apply updateOne_keeps_identity.
    + rewrite map_map. apply map_ext. intro s.
      destruct (_id s =? _id stored); [|reflexivity].
      rewrite afterLogin_id, afterLogin_email, afterLogin_isActive.
      reflexivity.
  - reflexivity.
  - unfold logout. destruct (present rt) as [t|]; [|reflexivity].
    destruct (findOne (by_refreshToken t) db); [|reflexivity].
    cbn [fst]. apply save_keeps_identity.
  - unfold forgotPassword. destruct (findOne (by_email e) db); [|reflexivity].
    cbn [fst]. apply save_keeps_identity.
  - unfold resetPassword.
    destruct (verifyPasswordResetToken t now); [|reflexivity].
    destruct (findOne (by_resetToken t now) db); [|reflexivity].
    cbn [fst]. apply save_keeps_identity.
  - unfold changePasswordRoute.
    destruct (authenticateToken db bearer now) as [req_user|res];
      [|reflexivity].
    unfold changePassword.
    destruct (findById (Some (_id req_user)) db) as [stored|]; [|reflexivity].
    cbv zeta.
    destruct (negb (comparePassword (doc (hydrate true stored)) cur));
      [reflexivity|].
    destruct (comparePassword (doc (hydrate true stored)) pw); [reflexivity|].
    cbn [fst]. apply save_keeps_identity.
Qed.

Lemma serve_identity_frame rs : forall db,
  map (fun u => (_id u, email u, isActive u)) (serve db rs) =
  map (fun u => (_id u, email u, isActive u)) db.
Proof.
  induction rs as [|[[r now] salt] rest IH]; intro db; [reflexivity|].
  cbn [serve]. rewrite IH. apply handle_keeps_identity.
Qed.

(** No sequence of authentication requests adds or removes an
    account, or changes the id, the email or the active flag of one. *)
Theorem serve_keeps_identity rs db :
  map (fun u => (_id u, email u, isActive u)) (serve db rs) =
  map (fun u => (_id u, email u, isActive u)) db.
Proof. apply serve_identity_frame. Qed.

(** A request that ends in an error has written nothing, with one
    exception: the login that counted a failed attempt. *)
Theorem errors_write_nothing db r now salt err :
  snd (handle db r now salt) = Threw err ->
  fst (handle db r now salt) = db \/
  exists e pw stored,
    r = Login e pw /\
    err = AppError "Invalid credentials" 401 /\
    findOne (by_email e) db = Some stored /\
    comparePassword stored pw = false /\
    fst (handle db r now salt) =
      updateOne db (_id stored) (incLoginAttempts stored now).
Proof.
  destruct r as [e pw|rt|rt|e|t pw|bearer cur pw]; cbn [handle].
  - destruct (login_shape db e pw now salt)
      as [[Hrun _]|[stored [Hfind [[_ Hrun]|[[_ [_ Hrun]]
                                  |[[_ [_ [Hpw Hrun]]]|[_ [_ [_ [Hok _]]]]]]]]]].
    + rewrite Hrun. left. reflexivity.
    + rewrite Hrun. left. reflexivity.
    + rewrite Hrun. left. reflexivity.
    + rewrite Hrun. cbn [fst snd]. intro Herr. right.
      exists e, pw, stored. injection Herr as <-. repeat split; assumption.
    + intro Herr. rewrite Herr in Hok. discriminate.
  - left. reflexivity.
  - unfold logout. destruct (present rt) as [t|]; [|left; reflexivity].
    destruct (findOne (by_refreshToken t) db); [discriminate|].
    left. reflexivity.
  - unfold forgotPassword.
    destruct (findOne (by_email e) db); [discriminate | left; reflexivity].
  - unfold resetPassword.
    destruct (verifyPasswordResetToken t now); [|left; reflexivity].
    destruct (findOne (by_resetToken t now) db);
      [discriminate | left; reflexivity].
  - unfold changePasswordRoute.
    destruct (authenticateToken db bearer now) as [req_user|res];
      [|left; reflexivity].
    unfold changePassword.
    destruct (findById (Some (_id req_user)) db) as [stored|];
      [|left; reflexivity].
    cbv zeta.
    destruct (negb (comparePassword (doc (hydrate true stored)) cur));
      [left; reflexivity|].
    destruct (comparePassword (doc (hydrate true stored)) pw);
      [left; reflexivity | discriminate].
Qed.

(** Only a reset-password or change-password request can change a
    stored password hash. *)
Theorem only_password_requests_change_hashes db r now salt :
  match r with
  | ResetPassword _ _ | ChangePassword _ _ _ => True
  | _ => map password (fst (handle db r now salt)) = map password db
  end.
Proof.
  destruct r as [e pw|rt|rt|e|t pw|bearer cur pw]; cbn [handle]; try exact I.
  - apply login_keeps_hashes.
  - reflexivity.
  - apply logout_keeps_hashes.
  - apply forgotPassword_keeps_hashes.
Qed.

End StoreShapes.

(** ** The lock and the failure counter *)

Section LockInvariant.
Context {env : ProcessEnv} {bcrypt : Bcrypt}.

Lemma lockRecorded_inc u now :
  lockRecorded u = true ->
  isLocked u now = false ->
  lockRecorded (applyOps (incLoginAttempts u now) u) = true.
Proof.
  unfold lockRecorded, incLoginAttempts, isLocked.
  intros Hrec Hunlocked. apply andb_true_iff in Hrec as [Hpos Hlock].
  apply Z.leb_le in Hpos.
  destruct (lockUntil u) as [l|] eqn:Hl.
  - apply Z.leb_le in Hlock. rewrite Hunlocked.
    destruct (l <? now); cbn; rewrite ?Hl; cbn.
    + reflexivity.
    + destruct (Z.leb_spec 5 (loginAttempts u + 1)); [|lia]. cbn.
      apply andb_true_iff. split; apply Z.leb_le; lia.
  - cbn. destruct (Z.leb_spec 5 (loginAttempts u + 1)); cbn; rewrite ?Hl.
    + apply andb_true_iff. split; apply Z.leb_le; lia.
    + rewrite andb_true_r. apply Z.leb_le. lia.
Qed.

Lemma lockRecorded_afterLogin stored now :
  lockRecorded stored = true ->
  lockRecorded (afterLogin stored now stored) = true.
Proof.
  intro Hrec. unfold afterLogin.
  destruct (0 <? loginAttempts stored); [reflexivity | exact Hrec].
Qed.

Lemma uniqueIds_identity db db' :
  map (fun u => (_id u, email u, isActive u)) db' =
  map (fun u => (_id u, email u, isActive u)) db ->
  uniqueIds db' = uniqueIds db.
Proof.
  intro H. unfold uniqueIds.
  assert (Hids : forall l : DB,
             map _id l =
             map (fun t : ObjectId * string * bool => fst (fst t))
                 (map (fun u => (_id u, email u, isActive u)) l))
    by (intro l; rewrite map_map; reflexivity).
  rewrite (Hids db'), (Hids db), H. reflexivity.
Qed.

Lemma save_keeps_lockRecorded db salt d :
  forallb lockRecorded db = true ->
  forallb lockRecorded (fst (save db salt d)) = true.
Proof.
  rewrite save_db, !forallb_forall. intros Hall x Hx.
  apply in_map_iff in Hx as [s [<- Hs]].
  destruct (_id s =? _id (doc d)); [|exact (Hall s Hs)].
  unfold lockRecorded. rewrite persist_loginAttempts, persist_lockUntil.
  exact (Hall s Hs).
Qed.

Lemma save_keeps_lockoutOk db salt d :
  lockoutOk db = true -> lockoutOk (fst (save db salt d)) = true.
Proof.
  unfold lockoutOk. intro H. apply andb_true_iff in H as [Hu Hl].
  apply andb_true_iff. split.
  - rewrite (uniqueIds_identity db _ (save_keeps_identity db salt d)).
    exact Hu.
  - apply save_keeps_lockRecorded. exact Hl.
Qed.

Lemma handle_keeps_lockoutOk db r now salt :
  lockoutOk db = true -> lockoutOk (fst (handle db r now salt)) = true.
Proof.
  intro Hok.
  pose proof (handle_keeps_identity db r now salt) as Hidentity.
  destruct r as [e pw|rt|rt|e|t pw|bearer cur pw]; cbn [handle] in *.
  - unfold lockoutOk in *. apply andb_true_iff in Hok as [Hu Hl].
    apply andb_true_iff. split;
      [rewrite (uniqueIds_identity db _ Hidentity); exact Hu|].
    clear Hidentity. rewrite forallb_forall in Hl.
    destruct (login_shape db e pw now salt)
      as [[-> _]|[stored [Hfind [[_ ->]|[[_ [_ ->]]|[[Hunl [_ [_ ->]]]
                                                |[_ [_ [_ [_ ->]]]]]]]]]];
      cbn [fst]; try (apply forallb_forall; exact Hl).
    + unfold findOne in Hfind. apply find_some in Hfind as [Hstored _].
      apply forallb_forall. intros x Hx. unfold updateOne in Hx.
      apply in_map_iff in Hx as [s [<- Hs]].
      destruct (Z.eqb_spec (_id s) (_id stored)) as [Hid|_];
        [|exact (Hl s Hs)].
      rewrite (unique_same_id db s stored Hu Hs Hstored Hid).
      apply lockRecorded_inc; [exact (Hl stored Hstored) | exact Hunl].
    + unfold findOne in Hfind. apply find_some in Hfind as [Hstored _].
      apply forallb_forall. intros x Hx.
      apply in_map_iff in Hx as [s [<- Hs]].
      destruct (Z.eqb_spec (_id s) (_id stored)) as [Hid|_];
        [|exact (Hl s Hs)].
      rewrite (unique_same_id db s stored Hu Hs Hstored Hid).
      apply lockRecorded_afterLogin. exact (Hl stored Hstored).
  - exact Hok.
  - unfold logout. destruct (present rt) as [t|]; [|exact Hok].
    destruct (findOne (by_refreshToken t) db); [|exact Hok].
    cbn [fst]. apply save_keeps_lockoutOk. exact Hok.
  - unfold forgotPassword. destruct (findOne (by_email e) db); [|exact Hok].
    cbn [fst]. apply save_keeps_lockoutOk. exact Hok.
  - unfold resetPassword.
    destruct (verifyPasswordResetToken t now); [|exact Hok].
    destruct (findOne (by_resetToken t now) db); [|exact Hok].
    cbn [fst]. apply save_keeps_lockoutOk. exact Hok.
  - unfold changePasswordRoute.
    destruct (authenticateToken db bearer now) as [req_user|res];
      [|exact Hok].
    unfold changePassword.
    destruct (findById (Some (_id req_user)) db) as [stored|]; [|exact Hok].
    cbv zeta.
    destruct (negb (comparePassword (doc (hydrate true stored)) cur));
      [exact Hok|].
    destruct (comparePassword (doc (hydrate true stored)) pw); [exact Hok|].
    cbn [fst]. apply save_keeps_lockoutOk. exact Hok.
Qed.

(** From a store with distinct ids in which every lock stands beside
    at least five counted failures, every sequence of requests leads
    to such a store again; there, an account that is locked at some
    moment has at least five failed attempts on record, and no
    counter is negative. *)
Theorem lock_needs_five_failures rs : forall db,
  lockoutOk db = true ->
  lockoutOk (serve db rs) = true /\
  forall u now,
    In u (serve db rs) ->
    0 <= loginAttempts u /\
    (isLocked u now = true -> 5 <= loginAttempts u).
Proof.
  assert (Hserve : forall rs db,
             lockoutOk db = true -> lockoutOk (serve db rs) = true).
  { clear rs. induction rs as [|[[r now] salt] rest IH]; intros db Hok;
      [exact Hok|].
    cbn [serve]. apply IH. apply handle_keeps_lockoutOk. exact Hok. }
  intros db Hok. split; [exact (Hserve rs db Hok)|].
  intros u now Hu.
  pose proof (Hserve rs db Hok) as Hfinal. unfold lockoutOk in Hfinal.
  apply andb_true_iff in Hfinal as [_ Hall].
  rewrite forallb_forall in Hall. specialize (Hall u Hu).
  unfold lockRecorded in Hall. apply andb_true_iff in Hall as [Hpos Hlock].
  apply Z.leb_le in Hpos. split; [exact Hpos|].
  unfold isLocked. destruct (lockUntil u); [|discriminate].
  intros _. apply Z.leb_le. exact Hlock.
Qed.

End LockInvariant.

(** ** Deactivation *)

Section Deactivation.
Context {env : ProcessEnv} {bcrypt : Bcrypt}.

Lemma deactivateAccount_db db req_user :
  fst (deactivateAccount db req_user) =
  map (fun s => if _id s =? _id req_user
                then with_refreshTokens [] (with_isActive false s) else s) db.
Proof.
  unfold deactivateAccount, findByIdAndUpdate.
  destruct (option_map _ (findById (Some (_id req_user)) db)); reflexivity.
Qed.

Lemma deactivated_stays_inactive db req_user rs u :
  In u (serve (fst (deactivateAccount db req_user)) rs) ->
  _id u = _id req_user ->
  isActive u = false.
Proof.
  intros Hu Hid.
  pose proof (serve_identity_frame rs (fst (deactivateAccount db req_user)))
    as Hframe.
  apply (in_map (fun u => (_id u, email u, isActive u))) in Hu.
  rewrite Hframe, deactivateAccount_db, map_map in Hu.
  apply in_map_iff in Hu as [s [Heq _]].
  destruct (Z.eqb_spec (_id s) (_id req_user)) as [_|Hneq].
  - injection Heq as _ _ Hactive. rewrite <- Hactive. reflexivity.
  - injection Heq as Hids _ _. congruence.
Qed.

(** Deactivation holds against everything the authentication surface
    can do afterwards: whatever requests follow, the request gate
    never lets a request through as the deactivated account, no
    refresh token of that account is exchanged, and no login for it
    succeeds. *)
Theorem deactivated_account_is_shut_out db req_user rs :
  let later := serve (fst (deactivateAccount db req_user)) rs in
  (forall bearer now u,
      authenticateToken later bearer now = next u ->
      _id u <> _id req_user) /\
  (forall (rt : Token) now,
      subjectOf rt = Some (_id req_user) ->
      exists err, refresh later (Some rt) now = Threw err) /\
  (forall e pw now salt stored,
      findOne (by_email e) later = Some stored ->
      _id stored = _id req_user ->
      exists err, snd (login later e pw now salt) = Threw err).
Proof.
  intro later. subst later. split; [|split].
  - intros bearer now u Hnext Hid.
    destruct (authenticateToken_next_inv _ bearer now u Hnext)
      as [claims [stored [_ [_ [Hfind [Hu [Hactive _]]]]]]].
    pose proof (findById_In _ _ _ Hfind) as Hin.
    subst u. cbn in Hid.
    rewrite (deactivated_stays_inactive db req_user rs stored Hin Hid)
      in Hactive.
    discriminate.
  - intros rt now Hsubject.
    destruct (refresh _ (Some rt) now) as [res|err] eqn:Hrun;
      [|exists err; reflexivity].
    exfalso.
    destruct (refresh_sent_inv _ rt now res Hrun)
      as [stored [Hfind [_ [Hactive _]]]].
    pose proof (findById_In _ _ _ Hfind) as Hin.
    rewrite Hsubject in Hfind.
    rewrite (deactivated_stays_inactive db req_user rs stored Hin
               (findById_id _ _ _ Hfind)) in Hactive.
    discriminate.
  - intros e pw now salt stored Hfind Hid.
    assert (Hinactive : isActive stored = false).
    { apply (deactivated_stays_inactive db req_user rs); [|exact Hid].
      unfold findOne in Hfind. apply find_some in Hfind. tauto. }
    destruct (login_shape (serve (fst (deactivateAccount db req_user)) rs)
                e pw now salt)
      as [[Hrun _]|[stored' [Hfind' [[_ Hrun]|[[_ [_ Hrun]]
                       |[[_ [Hact _]]|[_ [Hact _]]]]]]]];
      try (rewrite Hrun; eexists; reflexivity);
      rewrite Hfind in Hfind'; injection Hfind' as <-; congruence.
Qed.

End Deactivation.

(** ** The further properties on the sample deployment *)

Lemma authenticateToken_sound_sample :
  exists claims stored,
    Some Scenario.ada_accessToken
      = Some (Jwt.Signed (@JWT_SECRET Sample.env) claims) /\
    (Sample.t0 + 1000) / 1000 < Jwt.exp claims /\
    findById (Jwt.userId claims) Sample.db_logged_in = Some stored /\
    with_password None (hd Sample.ada Sample.db_logged_in)
      = with_password None stored /\
    password (with_password None (hd Sample.ada Sample.db_logged_in))
      = None /\
    isActive stored = true /\
    isLocked stored (Sample.t0 + 1000) = false.
Proof.
  exact (@authenticateToken_sound Sample.env Sample.db_logged_in
           (Some Scenario.ada_accessToken) (Sample.t0 + 1000)
           (with_password None (hd Sample.ada Sample.db_logged_in)) eq_refl).
Defined.

Lemma gate_rejects_refresh_token_sample :
  @authenticateToken Sample.env Sample.db_logged_in
    (Some Sample.ada_refreshToken) (Sample.t0 + 1000)
  = halt (json 401 false "Invalid token").
Proof.
  exact (@gate_rejects_refresh_token Sample.env Sample.db_logged_in 1
           Sample.t0 (Sample.t0 + 1000) eq_refl).
Defined.

Lemma requireRole_monotone_sample :
  requireModerator (Some Scenario.admin) = proceed.
Proof.
  exact (requireRole_monotone ["admin"] ["admin"; "moderator"]
           (Some Scenario.admin) eq_refl eq_refl).
Defined.

Lemma login_success_effect_sample :
  exists u',
    findOne (by_email "ada@x.com") Sample.db_logged_in = Some u' /\
    lastLogin u' = Some Sample.t0 /\
    map token (refreshTokens u') = [Sample.ada_refreshToken].
Proof.
  destruct (@login_success_effect Sample.env Sample.bcrypt Sample.db
              "ada@x.com" "Abcdef1!" Sample.t0 "s4lt" Sample.ada
              eq_refl eq_refl eq_refl eq_refl)
    as [user [u' [_ [Hfound [Hlast [_ [_ [Htokens _]]]]]]]].
  exists u'. split; [exact Hfound|]. split; [exact Hlast|].
  rewrite Htokens. reflexivity.
Defined.

Lemma login_then_refresh_sample :
  @refresh Sample.env Sample.db_logged_in
    (Some Sample.ada_refreshToken) (Sample.t0 + 1000)
  = Sent {| status := 200; success := true;
            message := "Token refreshed successfully";
            data := Some (newToken
                            (@generateToken Sample.env 1 (Sample.t0 + 1000)));
            resetToken := None |}.
Proof.
  exact (@login_then_refresh Sample.env Sample.bcrypt Sample.db
           "ada@x.com" "Abcdef1!" Sample.t0 "s4lt" Sample.ada
           (Sample.t0 + 1000) eq_refl eq_refl eq_refl eq_refl eq_refl
           eq_refl).
Defined.

Lemma login_then_gate_sample :
  @authenticateToken Sample.env Sample.db_logged_in
    (Some Scenario.ada_accessToken) (Sample.t0 + 1000)
  = next (with_password None
            (@afterLogin Sample.env Sample.ada Sample.t0 Sample.ada)).
Proof.
  apply (@login_then_gate Sample.env Sample.bcrypt Sample.db
           "ada@x.com" "Abcdef1!" Sample.t0 "s4lt" Sample.ada
           (Sample.t0 + 1000)); try reflexivity.
  unfold Sample.t0. lia.
Defined.

Lemma refresh_success_then_gate_sample :
  exists stored,
    findById (subjectOf Sample.ada_refreshToken) Sample.db_logged_in
      = Some stored /\
    @authenticateToken Sample.env Sample.db_logged_in
      (Some (@generateToken Sample.env (_id stored) (Sample.t0 + 1000)))
      (Sample.t0 + 2000)
    = if isLocked stored (Sample.t0 + 2000)
      then halt (json 401 false "Account is temporarily locked")
      else next (with_password None stored).
Proof.
  destruct (@refresh_success_then_gate Sample.env Sample.db_logged_in
              Sample.ada_refreshToken (Sample.t0 + 1000)
              {| status := 200; success := true;
                 message := "Token refreshed successfully";
                 data := Some (newToken
                                 (@generateToken Sample.env 1
                                    (Sample.t0 + 1000)));
                 resetToken := None |} eq_refl)
    as [stored [Hfind [_ [_ [_ Hgate]]]]].
  exists stored. split; [exact Hfind|].
  apply Hgate. reflexivity.
Defined.

Lemma logout_keeps_other_sessions_sample :
  map (by_refreshToken Scenario.ada_secondRefreshToken)
    (fst (@logout Sample.bcrypt Scenario.db_two_sessions
            (Some Sample.ada_refreshToken) "s4lt"))
  = [true; false].
Proof.
  rewrite (proj1 (@logout_keeps_other_sessions Sample.bcrypt
                    Scenario.db_two_sessions Sample.ada_refreshToken "s4lt"
                    Scenario.ada_secondRefreshToken eq_refl eq_refl)).
  reflexivity.
Defined.

Lemma logout_idempotent_sample :
  @logout Sample.bcrypt
    (fst (@logout Sample.bcrypt Sample.db_logged_in
            (Some Sample.ada_refreshToken) "s4lt"))
    (Some Sample.ada_refreshToken) "s4lt"
  = (fst (@logout Sample.bcrypt Sample.db_logged_in
            (Some Sample.ada_refreshToken) "s4lt"), loggedOut).
Proof.
  exact (proj2 (@logout_idempotent Sample.bcrypt Sample.db_logged_in
                  Sample.ada_refreshToken "s4lt" "s4lt" eq_refl)).
Defined.

Lemma reset_token_dead_after_an_hour_sample :
  @resetPassword Sample.env Sample.bcrypt Sample.db_forgot
    Sample.ada_resetToken "Newpass1" (Sample.t0 + 1000 + 60 * 60 * 1000) "n3w1"
  = (Sample.db_forgot, InvalidResetToken).
Proof.
  apply (@reset_token_dead_after_an_hour Sample.env Sample.bcrypt
           Sample.db_forgot (Sample.t0 + 1000)
           (Sample.t0 + 1000 + 60 * 60 * 1000) "Newpass1" "n3w1").
  lia.
Defined.

Lemma forgot_then_reset_sample :
  exists u',
    findById (Some 1)
      (fst (@resetPassword Sample.env Sample.bcrypt
              (fst (@forgotPassword Sample.env Sample.bcrypt Sample.db
                      "ada@x.com" Sample.t0 "s4lt"))
              Sample.shared_resetToken "Newpass1" (Sample.t0 + 1000) "n3w1"))
      = Some u' /\
    password u' = Some "n3w1Newpass1".
Proof.
  destruct (@forgot_then_reset Sample.env Sample.bcrypt Sample.db
              "ada@x.com" Sample.t0 "s4lt" Sample.ada "Newpass1"
              (Sample.t0 + 1000) "n3w1" eq_refl eq_refl eq_refl)
    as [_ [u' [Hfound [Hpw _]]]].
  exists u'. split; [exact Hfound | exact Hpw].
Defined.

Lemma failures_below_five_sample :
  exists u',
    findOne (by_email "ada@x.com")
      (fst (@loginRun Sample.env Sample.bcrypt Sample.db "ada@x.com"
              Scenario.three_wrong)) = Some u' /\
    loginAttempts u' = 3 /\
    lockUntil u' = None.
Proof.
  exact (proj2 (@failures_below_five_do_not_lock Sample.env Sample.bcrypt
                  Scenario.three_wrong Sample.db "ada@x.com" Sample.ada
                  eq_refl eq_refl eq_refl eq_refl eq_refl)).
Defined.

Lemma errors_write_nothing_sample :
  fst (@handle Sample.env Sample.bcrypt Sample.db
         (Login "ada@x.com" "wrong") Sample.t0 "s4lt")
  = updateOne Sample.db 1 (incLoginAttempts Sample.ada Sample.t0).
Proof.
  destruct (@errors_write_nothing Sample.env Sample.bcrypt Sample.db
              (Login "ada@x.com" "wrong") Sample.t0 "s4lt"
              (AppError "Invalid credentials" 401) eq_refl)
    as [Hsame|[e [pw [stored [Hr [_ [Hfind [_ Hdb]]]]]]]].
  - vm_compute in Hsame. discriminate.
  - injection Hr as <- <-. vm_compute in Hfind. injection Hfind as <-.
    exact Hdb.
Defined.

Lemma lock_needs_five_failures_sample :
  lockoutOk (@serve Sample.env Sample.bcrypt Sample.db Scenario.traffic)
  = true.
Proof.
  exact (proj1 (@lock_needs_five_failures Sample.env Sample.bcrypt
                  Scenario.traffic Sample.db eq_refl)).
Defined.

Lemma tokensOwned_serve_sample :
  tokensOwned (@serve Sample.env Sample.bcrypt Sample.db Scenario.traffic)
  = true.
Proof.
  exact (@tokensOwned_serve Sample.env Sample.bcrypt Scenario.traffic
           Sample.db eq_refl).
Defined.

(** * Properties of the polls *)

Module VotingFacts.
Import Voting.

(** ** Voting *)

Lemma find_update_first {A} (p : A -> bool) (f : A -> A) (l : list A) x :
  find p l = Some x ->
  p (f x) = true ->
  find p (update_first p f l) = Some (f x).
Proof.
  intros Hfind Hkeeps. induction l as [|y rest IH]; [discriminate|].
  cbn [find update_first] in *. destruct (p y) eqn:Hy.
  - injection Hfind as ->. cbn [find]. rewrite Hkeeps. reflexivity.
  - cbn [find]. rewrite Hy. exact (IH Hfind).
Qed.

Lemma others_untouched pollId optionId (polls : list Poll) :
  filter (fun q => negb (String.eqb (id q) pollId))
    (update_first (fun p => String.eqb (id p) pollId) (castVote optionId) polls)
  = filter (fun q => negb (String.eqb (id q) pollId)) polls.
Proof.
  induction polls as [|p rest IH]; [reflexivity|].
  cbn [update_first]. destruct (String.eqb (id p) pollId) eqn:Hp.
  - cbn [filter castVote id]. rewrite Hp. reflexivity.
  - cbn [filter]. rewrite Hp, IH. reflexivity.
Qed.

(** What a vote handler that answered 200 has done. *)
Lemma vote_voted_inv polls pollId optionId now polls' p s t :
  vote polls pollId optionId now = (polls', voted p s t) ->
  exists poll chosen,
    find (fun q => String.eqb (id q) pollId) polls = Some poll /\
    find (fun opt => String.eqb (option_id opt) optionId) (options poll)
      = Some chosen /\
    now <= endDate poll /\
    hasVoted poll = false /\
    polls' = update_first (fun q => String.eqb (id q) pollId)
                          (castVote optionId) polls /\
    p = pollId /\ s = optionId /\ t = now.
Proof.
  unfold vote.
  destruct (find (fun q => String.eqb (id q) pollId) polls) as [poll|] eqn:Hpoll;
    [|discriminate].
  destruct (Z.ltb_spec (endDate poll) now) as [|Hopen]; [discriminate|].
  destruct (hasVoted poll) eqn:Hvoted; [discriminate|].
  destruct (find (fun opt => String.eqb (option_id opt) optionId)
                 (options poll)) as [chosen|] eqn:Hopt; [|discriminate].
  intro Hres. injection Hres as <- <- <- <-.
  exists poll, chosen. repeat split; try assumption; try reflexivity.
  apply find_some in Hpoll as [_ Hid]. apply String.eqb_eq. exact Hid.
Qed.

Lemma update_first_split {A} (p : A -> bool) (f : A -> A) (l : list A) x :
  find p l = Some x ->
  exists pre post,
    l = (pre ++ x :: post)%list /\
    forallb (fun y => negb (p y)) pre = true /\
    update_first p f l = (pre ++ f x :: post)%list.
Proof.
  revert x. induction l as [|y rest IH]; intros x Hfind; [discriminate|].
  cbn [find update_first] in *. destruct (p y) eqn:Hy.
  - injection Hfind as ->. exists [], rest. repeat split; reflexivity.
  - destruct (IH x Hfind) as [pre [post [Hl [Hpre Hupd]]]].
    exists (y :: pre), post. cbn [app forallb]. split; [f_equal; exact Hl|].
    split; [rewrite Hy; exact Hpre | f_equal; exact Hupd].
Qed.

Lemma tally_raised (before after : list PollOption) chosen :
  fold_right (fun opt acc => votes opt + acc) 0
    (before ++ {| option_id := option_id chosen; text := text chosen;
                  votes := votes chosen + 1 |} :: after)
  = fold_right (fun opt acc => votes opt + acc) 0 (before ++ chosen :: after)
    + 1.
Proof.
  induction before as [|o rest IH]; cbn [app fold_right votes]; lia.
Qed.

(** A vote that is recorded changes one poll, the first one of that
    id, and in it one option, the first one of the chosen id: the
    votes of that option go up by one, and so do [totalVotes] and the
    sum over the options; [hasVoted] becomes true and [userVote] the
    chosen id. Every other option of the poll, every other field of
    it and every other poll is as before, at the same place. *)
Theorem vote_counts_once polls pollId optionId now polls' p s t :
  vote polls pollId optionId now = (polls', voted p s t) ->
  exists pre poll post before chosen after poll',
    polls = (pre ++ poll :: post)%list /\
    forallb (fun q => negb (String.eqb (id q) pollId)) pre = true /\
    id poll = pollId /\
    options poll = (before ++ chosen :: after)%list /\
    forallb (fun opt => negb (String.eqb (option_id opt) optionId)) before
      = true /\
    option_id chosen = optionId /\
    polls' = (pre ++ poll' :: post)%list /\
    poll' =
      {| id := id poll; title := title poll;
         description := description poll;
         options :=
           before ++
           {| option_id := option_id chosen; text := text chosen;
              votes := votes chosen + 1 |} :: after;
         endDate := endDate poll;
         hasVoted := true;
         totalVotes := totalVotes poll + 1;
         createdAt := createdAt poll; category := category poll;
         isActive := isActive poll;
         userVote := Some optionId |} /\
    tally poll' = tally poll + 1.
Proof.
  intro Hvote.
  destruct (vote_voted_inv _ _ _ _ _ _ _ _ Hvote)
    as [poll [chosen [Hpoll [Hopt [_ [_ [-> _]]]]]]].
  destruct (update_first_split _ (castVote optionId) polls poll Hpoll)
    as [pre [post [Hpolls [Hpre Hupdated]]]].
  destruct (update_first_split _ countVote (options poll) chosen Hopt)
    as [before [after [Hoptions [Hbefore Hraised]]]].
  apply find_some in Hpoll as [_ Hid]. apply String.eqb_eq in Hid.
  apply find_some in Hopt as [_ Hoid]. apply String.eqb_eq in Hoid.
  exists pre, poll, post, before, chosen, after.
  eexists. split; [exact Hpolls|]. split; [exact Hpre|].
  split; [exact Hid|]. split; [exact Hoptions|]. split; [exact Hbefore|].
  split; [exact Hoid|]. split; [exact Hupdated|].
  split; [unfold castVote; rewrite Hraised; reflexivity|].
  unfold tally, castVote. cbn [options]. rewrite Hraised, Hoptions.
  apply tally_raised.
Qed.

(** Once a vote on a poll is recorded, every further vote on that
    poll, for whatever option and at whatever time, is refused with a
    400 and changes nothing. *)
Theorem vote_only_once polls pollId optionId now polls' p s t :
  vote polls pollId optionId now = (polls', voted p s t) ->
  forall optionId' now',
    vote polls' pollId optionId' now' =
      (polls', failed (AppError "Poll has ended" 400)) \/
    vote polls' pollId optionId' now' =
      (polls', failed (AppError "You have already voted in this poll" 400)).
Proof.
  intros Hvote optionId' now'.
  destruct (vote_voted_inv _ _ _ _ _ _ _ _ Hvote)
    as [poll [chosen [Hpoll [_ [_ [_ [-> _]]]]]]].
  assert (Hfound : find (fun q => String.eqb (id q) pollId)
                     (update_first (fun q => String.eqb (id q) pollId)
                                   (castVote optionId) polls)
                   = Some (castVote optionId poll)).
  { apply find_update_first; [exact Hpoll|].
    apply find_some in Hpoll. cbn [castVote id]. tauto. }
  unfold vote. rewrite Hfound. cbn [castVote endDate hasVoted].
  destruct (endDate poll <? now'); [left | right]; reflexivity.
Qed.

Lemma voted_count pollId optionId (polls : list Poll) poll :
  find (fun q => String.eqb (id q) pollId) polls = Some poll ->
  hasVoted poll = false ->
  List.length (filter hasVoted
                 (update_first (fun q => String.eqb (id q) pollId)
                               (castVote optionId) polls))
  = S (List.length (filter hasVoted polls)).
Proof.
  induction polls as [|q rest IH]; [discriminate|].
  cbn [find update_first]. destruct (String.eqb (id q) pollId).
  - intros H Hvoted. injection H as ->. cbn [filter castVote hasVoted].
    rewrite Hvoted. reflexivity.
  - intros H Hvoted. cbn [filter].
    destruct (hasVoted q); cbn [List.length]; rewrite (IH H Hvoted);
      reflexivity.
Qed.

Lemma history_of_others pollId (polls : list Poll) now :
  filter (fun entry => negb (String.eqb (entry_pollId entry) pollId))
         (snd (myVotes polls now))
  = snd (myVotes (filter (fun q => negb (String.eqb (id q) pollId)) polls)
                 now).
Proof.
  unfold myVotes. cbn [snd]. induction polls as [|q rest IH]; [reflexivity|].
  cbn [filter]. destruct (hasVoted q) eqn:Hvoted; cbn [map filter].
  - cbn [entry_pollId]. destruct (String.eqb (id q) pollId); cbn [negb filter].
    + exact IH.
    + rewrite Hvoted. cbn [map]. rewrite IH. reflexivity.
  - destruct (String.eqb (id q) pollId); cbn [negb filter].
    + exact IH.
    + rewrite Hvoted. exact IH.
Qed.

(** After a recorded vote the voting history is one entry longer. It
    holds the entry of the poll voted on, whose selected option is
    the option that the handler found under the chosen id, with the
    text it had and one vote more than it had; the entries of the
    polls of another id are the same as before. *)
Theorem vote_shows_in_history polls pollId optionId now polls' p s t now' :
  vote polls pollId optionId now = (polls', voted p s t) ->
  exists poll chosen,
    find (fun q => String.eqb (id q) pollId) polls = Some poll /\
    find (fun opt => String.eqb (option_id opt) optionId) (options poll)
      = Some chosen /\
    fst (myVotes polls' now') = fst (myVotes polls now') + 1 /\
    In {| entry_pollId := pollId;
          pollTitle := title poll;
          selectedOption :=
            Some {| option_id := optionId; text := text chosen;
                    votes := votes chosen + 1 |};
          votedAt := createdAt poll;
          pollStatus := if endDate poll <? now' then "ended" else "active" |}
       (snd (myVotes polls' now')) /\
    filter (fun entry => negb (String.eqb (entry_pollId entry) pollId))
           (snd (myVotes polls' now'))
    = filter (fun entry => negb (String.eqb (entry_pollId entry) pollId))
             (snd (myVotes polls now')).
Proof.
  intro Hvote.
  destruct (vote_voted_inv _ _ _ _ _ _ _ _ Hvote)
    as [poll [chosen [Hpoll [Hopt [_ [Hfresh [-> _]]]]]]].
  exists poll, chosen. split; [exact Hpoll|]. split; [exact Hopt|].
  pose proof (find_some _ _ Hpoll) as [_ Hid]. apply String.eqb_eq in Hid.
  pose proof (find_some _ _ Hopt) as [_ Hoid]. apply String.eqb_eq in Hoid.
  split; [|split].
  - unfold myVotes. cbn [fst]. rewrite !length_map.
    rewrite (voted_count pollId optionId polls poll Hpoll Hfresh). lia.
  - assert (Hin : In (castVote optionId poll)
                    (filter hasVoted
                       (update_first (fun q => String.eqb (id q) pollId)
                                     (castVote optionId) polls))).
    { apply filter_In. split; [|reflexivity].
      assert (Hfound : find (fun q => String.eqb (id q) pollId)
                         (update_first (fun q => String.eqb (id q) pollId)
                                       (castVote optionId) polls)
                       = Some (castVote optionId poll)).
      { apply find_update_first; [exact Hpoll|].
        cbn [castVote id]. rewrite Hid. apply String.eqb_refl. }
      apply find_some in Hfound. tauto. }
    unfold myVotes. cbn [snd]. apply in_map_iff.
    exists (castVote optionId poll). split; [|exact Hin].
    cbn [castVote id title userVote options createdAt endDate].
    rewrite (find_update_first _ countVote (options poll) chosen Hopt)
      by (cbn [countVote option_id]; rewrite Hoid; apply String.eqb_refl).
    unfold countVote. rewrite Hid, Hoid. reflexivity.
  - rewrite !history_of_others, others_untouched. reflexivity.
Qed.

(** ** The listing *)

Lemma firstn_add {A} (a b : nat) (l : list A) :
  firstn (a + b) l = (firstn a l ++ firstn b (skipn a l))%list.
Proof.
  revert l. induction a as [|a IH]; intro l; [reflexivity|].
  destruct l as [|x rest]; cbn [Nat.add firstn skipn app].
  - rewrite firstn_nil. reflexivity.
  - rewrite IH. reflexivity.
Qed.

(** [slice] between two indices that are not negative. *)
Lemma slice_nonneg {A} (l : list A) (start stop : Z) :
  0 <= start -> 0 <= stop ->
  slice l start stop =
  firstn (Z.to_nat stop - Z.to_nat start) (skipn (Z.to_nat start) l).
Proof.
  intros Hstart Hstop. unfold slice.
  destruct (Z.ltb_spec start 0) as [|_]; [lia|].
  destruct (Z.ltb_spec stop 0) as [|_]; [lia|].
  destruct (Z_lt_le_dec start (Z.of_nat (List.length l))) as [Hin|Hout].
  - rewrite (Z.min_l start) by lia.
    destruct (Z_lt_le_dec stop (Z.of_nat (List.length l))) as [Hs|Hs].
    + rewrite (Z.min_l stop) by lia. f_equal. lia.
    + rewrite (Z.min_r stop) by lia.
      rewrite !firstn_all2; [reflexivity| |]; rewrite length_skipn; lia.
  - rewrite (Z.min_r start) by lia. rewrite Nat2Z.id.
    rewrite skipn_all. rewrite (skipn_all2 l) by lia.
    rewrite !firstn_nil. reflexivity.
Qed.

Lemma pages_concat {A} (l : list A) (lim m : nat) :
  List.concat (map (fun i => firstn lim (skipn (i * lim) l)) (seq 0 m))
  = firstn (m * lim) l.
Proof.
  induction m as [|m IH]; [reflexivity|].
  rewrite seq_S, map_app, concat_app, IH. cbn [Nat.add map List.concat].
  rewrite app_nil_r. replace (S m * lim)%nat with (m * lim + lim)%nat by lia.
  symmetry. apply firstn_add.
Qed.

Lemma ceilDiv_covers (total lim : Z) :
  0 < lim -> 0 <= total ->
  0 <= ceilDiv total lim /\ total <= ceilDiv total lim * lim.
Proof.
  intros Hlim Htotal. unfold ceilDiv.
  pose proof (Z.div_mod (- total) lim) as Hdm.
  pose proof (Z.mod_pos_bound (- total) lim Hlim) as Hmod.
  assert (Hq : (- total) / lim <= 0) by (apply Z.div_le_upper_bound; lia).
  split; nia.
Qed.

Lemma In_insertNewest x y sorted :
  In y (insertNewest x sorted) <-> y = x \/ In y sorted.
Proof.
  induction sorted as [|z rest IH]; cbn [insertNewest In].
  - intuition congruence.
  - destruct (createdAt z <=? createdAt x); cbn [In]; intuition congruence.
Qed.

Lemma In_sortNewestFirst y l : In y (sortNewestFirst l) <-> In y l.
Proof.
  unfold sortNewestFirst. induction l as [|x rest IH]; cbn [fold_right In].
  - tauto.
  - rewrite In_insertNewest, IH. intuition congruence.
Qed.

Lemma length_insertNewest x sorted :
  List.length (insertNewest x sorted) = S (List.length sorted).
Proof.
  induction sorted as [|z rest IH]; cbn [insertNewest]; [reflexivity|].
  destruct (createdAt z <=? createdAt x); cbn [List.length]; congruence.
Qed.

Lemma length_sortNewestFirst l :
  List.length (sortNewestFirst l) = List.length l.
Proof.
  unfold sortNewestFirst. induction l as [|x rest IH]; [reflexivity|].
  cbn [fold_right]. rewrite length_insertNewest, IH. reflexivity.
Qed.

Lemma newestFirst_insert x sorted :
  newestFirst sorted = true -> newestFirst (insertNewest x sorted) = true.
Proof.
  induction sorted as [|z rest IH]; [reflexivity|].
  cbn [insertNewest newestFirst]. intro Hsorted.
  apply andb_prop in Hsorted as [Hz Hrest].
  destruct (Z.leb_spec (createdAt z) (createdAt x)) as [Hle|Hgt].
  - cbn [newestFirst forallb]. apply andb_true_intro. split.
    + apply andb_true_intro. split; [apply Z.leb_le; exact Hle|].
      apply forallb_forall. intros y Hy.
      rewrite forallb_forall in Hz. specialize (Hz y Hy).
      apply Z.leb_le. apply Z.leb_le in Hz. lia.
    + cbn [newestFirst]. rewrite Hz, Hrest. reflexivity.
  - cbn [newestFirst]. apply andb_true_intro. split; [|exact (IH Hrest)].
    apply forallb_forall. intros y Hy. apply In_insertNewest in Hy.
    destruct Hy as [->|Hy].
    + apply Z.leb_le. lia.
    + rewrite forallb_forall in Hz. exact (Hz y Hy).
Qed.

Lemma newestFirst_sort l : newestFirst (sortNewestFirst l) = true.
Proof.
  unfold sortNewestFirst. induction l as [|x rest IH]; [reflexivity|].
  cbn [fold_right]. apply newestFirst_insert. exact IH.
Qed.

Lemma In_firstn {A} n (l : list A) x : In x (firstn n l) -> In x l.
Proof.
  revert l. induction n as [|n IH]; intros l Hx; [contradiction|].
  destruct l as [|y rest]; [contradiction|]. cbn [firstn In] in *.
  destruct Hx as [->|Hx]; [left; reflexivity | right; exact (IH rest Hx)].
Qed.

Lemma In_skipn {A} n (l : list A) x : In x (skipn n l) -> In x l.
Proof.
  revert l. induction n as [|n IH]; intros l Hx; [exact Hx|].
  destruct l as [|y rest]; [contradiction|]. cbn [skipn] in Hx.
  right. exact (IH rest Hx).
Qed.

Lemma newestFirst_skipn n l :
  newestFirst l = true -> newestFirst (skipn n l) = true.
Proof.
  revert l. induction n as [|n IH]; intros l Hl; [exact Hl|].
  destruct l as [|x rest]; [reflexivity|]. cbn [skipn].
  cbn [newestFirst] in Hl. apply andb_prop in Hl as [_ Hrest].
  exact (IH rest Hrest).
Qed.

Lemma newestFirst_firstn n l :
  newestFirst l = true -> newestFirst (firstn n l) = true.
Proof.
  revert l. induction n as [|n IH]; intros l Hl; [reflexivity|].
  destruct l as [|x rest]; [reflexivity|]. cbn [firstn newestFirst].
  cbn [newestFirst] in Hl. apply andb_prop in Hl as [Hx Hrest].
  apply andb_true_intro. split; [|exact (IH rest Hrest)].
  apply forallb_forall. intros y Hy. rewrite forallb_forall in Hx.
  apply Hx. exact (In_firstn _ _ _ Hy).
Qed.

Lemma In_slice {A} (l : list A) start stop x :
  In x (slice l start stop) -> In x l.
Proof.
  unfold slice. intro Hx. apply In_firstn in Hx.
  exact (In_skipn _ _ _ Hx).
Qed.

Section ListingFacts.
Variable toLowerCase : string -> string.
Variable includes : string -> string -> bool.

(** Every poll of a page is one of the polls in memory and meets each
    filter of the query: the category when one is given, the end date
    on the side of the clock that the status asks for, the voted flag
    when one is given, and the search text in the title or the
    description. *)
Theorem listed_polls_match_the_query mockPolls q now poll :
  In poll (data (getPolls toLowerCase includes mockPolls q now)) ->
  In poll mockPolls /\
  (forall c, given (query_category q) = Some c -> category poll = c) /\
  (query_status q = Some "active" -> now < endDate poll) /\
  (query_status q = Some "ended" -> endDate poll <= now) /\
  (forall h, query_hasVoted q = Some h ->
             hasVoted poll = String.eqb h "true") /\
  (forall s, given (query_search q) = Some s ->
             includes (toLowerCase (title poll)) (toLowerCase s)
             || includes (toLowerCase (description poll)) (toLowerCase s)
             = true).
Proof.
  unfold getPolls. cbn [data]. intro Hin.
  apply In_slice in Hin. unfold matching in Hin.
  apply (proj1 (In_sortNewestFirst _ _)) in Hin.
  set (byCategory :=
         match given (query_category q) with
         | Some c => filter (fun p => String.eqb (category p) c) mockPolls
         | None => mockPolls
         end) in *.
  set (status := or_default (query_status q) "all") in *.
  set (byStatus :=
         if String.eqb status "all" then byCategory
         else if String.eqb status "active" then
           filter (fun p => now <? endDate p) byCategory
         else if String.eqb status "ended" then
           filter (fun p => endDate p <=? now) byCategory
         else byCategory) in *.
  set (byVoted :=
         match query_hasVoted q with
         | Some h =>
             filter (fun p => Bool.eqb (hasVoted p) (String.eqb h "true"))
                    byStatus
         | None => byStatus
         end) in *.
  assert (Hsearch : In poll byVoted /\
            forall s, given (query_search q) = Some s ->
              includes (toLowerCase (title poll)) (toLowerCase s)
              || includes (toLowerCase (description poll)) (toLowerCase s)
              = true).
  { destruct (given (query_search q)) as [s|].
    - apply filter_In in Hin as [Hin Hs]. split; [exact Hin|].
      intros s' Hs'. injection Hs' as <-. exact Hs.
    - split; [exact Hin|]. intros s' Hs'. discriminate. }
  destruct Hsearch as [Hvoted Hsearch]. clear Hin.
  assert (Hflag : In poll byStatus /\
            forall h, query_hasVoted q = Some h ->
              hasVoted poll = String.eqb h "true").
  { subst byVoted. destruct (query_hasVoted q) as [h|].
    - apply filter_In in Hvoted as [Hin Hh]. split; [exact Hin|].
      intros h' Hh'. injection Hh' as <-. apply Bool.eqb_prop. exact Hh.
    - split; [exact Hvoted|]. intros h' Hh'. discriminate. }
  destruct Hflag as [Hstatus Hflag]. clear Hvoted.
  assert (Hdate : In poll byCategory /\
            (query_status q = Some "active" -> now < endDate poll) /\
            (query_status q = Some "ended" -> endDate poll <= now)).
  { subst byStatus status. destruct (query_status q) as [st|].
    - cbn [or_default] in Hstatus.
      destruct (String.eqb_spec st "all") as [->|Hall].
      + split; [exact Hstatus|]. split; intro Hst; discriminate.
      + destruct (String.eqb_spec st "active") as [->|Hact].
        * apply filter_In in Hstatus as [Hin Hd]. split; [exact Hin|].
          split; intro Hst; [apply Z.ltb_lt; exact Hd | discriminate].
        * destruct (String.eqb_spec st "ended") as [->|Hend].
          -- apply filter_In in Hstatus as [Hin Hd]. split; [exact Hin|].
             split; intro Hst; [discriminate | apply Z.leb_le; exact Hd].
          -- split; [exact Hstatus|].
             split; intro Hst; injection Hst as ->; contradiction.
    - cbn in Hstatus. split; [exact Hstatus|].
      split; intro Hst; discriminate. }
  destruct Hdate as [Hcat [Hactive Hended]]. clear Hstatus.
  assert (Hcategory : In poll mockPolls /\
            forall c, given (query_category q) = Some c -> category poll = c).
  { subst byCategory. destruct (given (query_category q)) as [c|].
    - apply filter_In in Hcat as [Hin Hc]. split; [exact Hin|].
      intros c' Hc'. injection Hc' as <-. apply String.eqb_eq. exact Hc.
    - split; [exact Hcat|]. intros c' Hc'. discriminate. }
  destruct Hcategory as [Hmem Hcategory].
  repeat split; assumption.
Qed.

(** With a limit that is not negative, a page never holds more polls
    than the limit, whatever the page number (zero and negative ones
    included, which [slice] counts from the end); and its polls come
    newest first. *)
Theorem page_is_bounded_and_newest_first mockPolls q now :
  0 <= or_default (query_limit q) 10 ->
  Z.of_nat (List.length (data (getPolls toLowerCase includes mockPolls q now)))
    <= or_default (query_limit q) 10 /\
  newestFirst (data (getPolls toLowerCase includes mockPolls q now)) = true.
Proof.
  intro Hlim. unfold getPolls. cbn [data]. split.
  - unfold slice.
    set (l := matching toLowerCase includes mockPolls q now).
    set (len := Z.of_nat (List.length l)).
    set (lim := or_default (query_limit q) 10) in *.
    set (start := (or_default (query_page q) 1 - 1) * lim).
    rewrite length_firstn, length_skipn.
    destruct (start <? 0) eqn:Hs; destruct (start + lim <? 0) eqn:He;
      try apply Z.ltb_lt in Hs; try apply Z.ltb_ge in Hs;
      try apply Z.ltb_lt in He; try apply Z.ltb_ge in He; lia.
  - unfold slice. apply newestFirst_firstn, newestFirst_skipn.
    apply newestFirst_sort.
Qed.

(** With a limit of at least one, the pages numbered from 1 to
    [totalPages], one after the other, are exactly the polls that the
    query selects, each once and in order: no poll is skipped and none
    is listed on two pages. *)
Theorem pages_cover_the_matches mockPolls q now :
  1 <= or_default (query_limit q) 10 ->
  List.concat
    (map (fun k => data (getPolls toLowerCase includes mockPolls (atPage q (Z.of_nat k)) now))
         (seq 1 (Z.to_nat
                   (totalPages (pagination (getPolls toLowerCase includes mockPolls q now))))))
  = matching toLowerCase includes mockPolls q now.
Proof.
  intro Hlim. unfold getPolls.
  cbn [data pagination totalPages atPage query_page query_limit or_default].
  assert (Hsame : forall k,
            matching toLowerCase includes mockPolls
              (atPage q (Z.of_nat k)) now = matching toLowerCase includes mockPolls q now)
    by reflexivity.
  set (l := matching toLowerCase includes mockPolls q now).
  set (lim := or_default (query_limit q) 10) in *.
  change (matching toLowerCase includes mockPolls q now) with l.
  destruct (ceilDiv_covers (Z.of_nat (List.length l)) lim) as [Hpos Hcover];
    [lia | lia |].
  set (m := Z.to_nat (ceilDiv (Z.of_nat (List.length l)) lim)).
  rewrite <- seq_shift, map_map.
  rewrite (map_ext _ (fun i => firstn (Z.to_nat lim)
                                 (skipn (i * Z.to_nat lim) l))).
  - rewrite pages_concat. apply firstn_all2. subst m. nia.
  - intro i. rewrite Hsame. fold l.
    rewrite slice_nonneg by nia. f_equal; [nia|]. f_equal. nia.
Qed.

End ListingFacts.

(** ** The polls of the module, voted on and listed *)

Lemma vote_counts_once_sample :
  exists pre poll post before chosen after poll',
    PollSample.mockPolls Sample.t0 = (pre ++ poll :: post)%list /\
    forallb (fun q => negb (String.eqb (id q) "1")) pre = true /\
    id poll = "1" /\
    options poll = (before ++ chosen :: after)%list /\
    forallb (fun opt => negb (String.eqb (option_id opt) "opt3")) before
      = true /\
    option_id chosen = "opt3" /\
    fst (vote (PollSample.mockPolls Sample.t0) "1" "opt3" (Sample.t0 + 1000))
      = (pre ++ poll' :: post)%list /\
    poll' =
      {| id := id poll; title := title poll;
         description := description poll;
         options :=
           before ++
           {| option_id := option_id chosen; text := text chosen;
              votes := votes chosen + 1 |} :: after;
         endDate := endDate poll;
         hasVoted := true;
         totalVotes := totalVotes poll + 1;
         createdAt := createdAt poll; category := category poll;
         isActive := isActive poll;
         userVote := Some "opt3" |} /\
    tally poll' = tally poll + 1.
Proof.
  exact (vote_counts_once (PollSample.mockPolls Sample.t0) "1" "opt3"
           (Sample.t0 + 1000) _ "1" "opt3" (Sample.t0 + 1000) eq_refl).
Defined.

Lemma vote_only_once_sample :
  vote (fst (vote (PollSample.mockPolls Sample.t0) "1" "opt3"
                  (Sample.t0 + 1000)))
       "1" "opt1" (Sample.t0 + 2000)
    = (fst (vote (PollSample.mockPolls Sample.t0) "1" "opt3"
                 (Sample.t0 + 1000)),
       failed (AppError "Poll has ended" 400)) \/
  vote (fst (vote (PollSample.mockPolls Sample.t0) "1" "opt3"
                  (Sample.t0 + 1000)))
       "1" "opt1" (Sample.t0 + 2000)
    = (fst (vote (PollSample.mockPolls Sample.t0) "1" "opt3"
                 (Sample.t0 + 1000)),
       failed (AppError "You have already voted in this poll" 400)).
Proof.
  exact (vote_only_once (PollSample.mockPolls Sample.t0) "1" "opt3"
           (Sample.t0 + 1000) _ "1" "opt3" (Sample.t0 + 1000) eq_refl
           "opt1" (Sample.t0 + 2000)).
Defined.

Lemma vote_shows_in_history_sample :
  exists poll chosen,
    find (fun q => String.eqb (id q) "1") (PollSample.mockPolls Sample.t0)
      = Some poll /\
    find (fun opt => String.eqb (option_id opt) "opt3") (options poll)
      = Some chosen /\
    fst (myVotes (fst (vote (PollSample.mockPolls Sample.t0) "1" "opt3"
                            (Sample.t0 + 1000)))
                 (Sample.t0 + 2000))
      = fst (myVotes (PollSample.mockPolls Sample.t0) (Sample.t0 + 2000)) + 1 /\
    In {| entry_pollId := "1";
          pollTitle := title poll;
          selectedOption :=
            Some {| option_id := "opt3"; text := text chosen;
                    votes := votes chosen + 1 |};
          votedAt := createdAt poll;
          pollStatus :=
            if endDate poll <? Sample.t0 + 2000 then "ended" else "active" |}
       (snd (myVotes (fst (vote (PollSample.mockPolls Sample.t0) "1" "opt3"
                                (Sample.t0 + 1000)))
                     (Sample.t0 + 2000))) /\
    filter (fun entry => negb (String.eqb (entry_pollId entry) "1"))
           (snd (myVotes (fst (vote (PollSample.mockPolls Sample.t0) "1"
                                    "opt3" (Sample.t0 + 1000)))
                         (Sample.t0 + 2000)))
    = filter (fun entry => negb (String.eqb (entry_pollId entry) "1"))
             (snd (myVotes (PollSample.mockPolls Sample.t0)
                           (Sample.t0 + 2000))).
Proof.
  exact (vote_shows_in_history (PollSample.mockPolls Sample.t0) "1" "opt3"
           (Sample.t0 + 1000) _ "1" "opt3" (Sample.t0 + 1000)
           (Sample.t0 + 2000) eq_refl).
Defined.

Lemma page_is_bounded_and_newest_first_sample :
  Z.of_nat
    (List.length
       (data (getPolls PollSample.toLowerCase PollSample.includes
                (PollSample.mockPolls Sample.t0) PollSample.two_a_page
                Sample.t0)))
    <= 2 /\
  newestFirst
    (data (getPolls PollSample.toLowerCase PollSample.includes
             (PollSample.mockPolls Sample.t0) PollSample.two_a_page
             Sample.t0)) = true.
Proof.
  apply (page_is_bounded_and_newest_first PollSample.toLowerCase
           PollSample.includes (PollSample.mockPolls Sample.t0)
           PollSample.two_a_page Sample.t0).
  cbn. lia.
Defined.

Lemma pages_cover_the_matches_sample :
  List.concat
    (map (fun k =>
            data (getPolls PollSample.toLowerCase PollSample.includes
                    (PollSample.mockPolls Sample.t0)
                    (atPage PollSample.two_a_page (Z.of_nat k)) Sample.t0))
         (seq 1 (Z.to_nat
                   (totalPages
                      (pagination
                         (getPolls PollSample.toLowerCase PollSample.includes
                            (PollSample.mockPolls Sample.t0)
                            PollSample.two_a_page Sample.t0))))))
  = matching PollSample.toLowerCase PollSample.includes
      (PollSample.mockPolls Sample.t0) PollSample.two_a_page Sample.t0.
Proof.
  apply (pages_cover_the_matches PollSample.toLowerCase PollSample.includes
           (PollSample.mockPolls Sample.t0) PollSample.two_a_page Sample.t0).
  cbn. lia.
Defined.

Lemma listed_polls_match_the_query_sample :
  exists poll,
    In poll
       (data (getPolls PollSample.toLowerCase PollSample.includes
                (PollSample.mockPolls Sample.t0) PollSample.active_voted_cpd
                Sample.t0)) /\
    id poll = "2" /\
    Sample.t0 < endDate poll /\
    hasVoted poll = true.
Proof.
  eexists. split; [left; reflexivity|].
  split; [reflexivity|].
  pose proof (listed_polls_match_the_query PollSample.toLowerCase
                PollSample.includes (PollSample.mockPolls Sample.t0)
                PollSample.active_voted_cpd Sample.t0 _
                (or_introl eq_refl)) as [_ [_ [Hactive [_ [Hvoted _]]]]].
  split; [exact (Hactive eq_refl) | exact (Hvoted "true" eq_refl)].
Defined.

End VotingFacts.

(** * Properties of the notifications *)

Module NotificationFacts.
Import Notifications.

(** ** Documents written by [_id] *)

Lemma rewrite_absent id g (store : Collection) :
  ~ In id (map _id store) -> map (rewrite_at id g) store = store.
Proof.
  induction store as [|x rest IH]; [reflexivity|].
  cbn [map In]. intro Habsent. unfold rewrite_at at 1.
  destruct (Z.eqb_spec (_id x) id) as [Hx|_]; [tauto|].
  rewrite IH by tauto. reflexivity.
Qed.

Lemma rewrite_ids id g (store : Collection) :
  (forall d, _id (g d) = _id d) ->
  map _id (map (rewrite_at id g) store) = map _id store.
Proof.
  intro Hg. rewrite map_map. apply map_ext. intro d. unfold rewrite_at.
  destruct (_id d =? id); [apply Hg | reflexivity].
Qed.


Lemma ofUser_rewrite user id g (store : Collection) :
  (forall d, userId (g d) = userId d) ->
  ofUser user (map (rewrite_at id g) store)
  = map (rewrite_at id g) (ofUser user store).
Proof.
  intro Hg. unfold ofUser. induction store as [|x rest IH]; [reflexivity|].
  cbn [map filter].
  assert (Hu : userId (rewrite_at id g x) = userId x)
    by (unfold rewrite_at; destruct (_id x =? id); [apply Hg | reflexivity]).
  rewrite Hu. destruct (userId x =? user); cbn [map]; rewrite IH; reflexivity.
Qed.

(** In a collection with distinct ids, a document of one user is not
    reached by a write to the id of a document of another. *)
Lemma rewrite_other_user user v id g (store : Collection) n :
  distinctIds store = true ->
  In n store -> _id n = id -> userId n = user -> user <> v ->
  map (rewrite_at id g) (ofUser v store) = ofUser v store.
Proof.
  unfold distinctIds, ofUser. intros Hdistinct Hin Hid Huser Hother.
  induction store as [|x rest IH]; [reflexivity|].
  cbn [map] in Hdistinct. pose proof (distinct_absent _ _ Hdistinct) as Habs.
  cbn [distinct] in Hdistinct. apply andb_true_iff in Hdistinct as [_ Hrest].
  cbn [filter]. destruct Hin as [->|Hin].
  - destruct (Z.eqb_spec (userId n) v) as [Hv|_]; [congruence|].
    apply rewrite_absent. intro Hmem. apply Habs.
    apply in_map_iff in Hmem as [d [Hd Hdin]]. apply filter_In in Hdin.
    apply in_map_iff. exists d. split; [congruence | tauto].
  - destruct (userId x =? v); [|exact (IH Hrest Hin)].
    cbn [map]. rewrite (IH Hrest Hin). unfold rewrite_at.
    destruct (Z.eqb_spec (_id x) id) as [Hx|_]; [|reflexivity].
    exfalso. apply Habs. apply in_map_iff. exists n. split; [congruence|].
    exact Hin.
Qed.

Lemma distinct_filter (p : Notification -> bool) (store : Collection) :
  distinctIds store = true -> distinctIds (filter p store) = true.
Proof.
  unfold distinctIds. induction store as [|x rest IH]; [reflexivity|].
  intro Hdistinct. cbn [map] in Hdistinct.
  pose proof (distinct_absent _ _ Hdistinct) as Habs.
  cbn [distinct] in Hdistinct. apply andb_true_iff in Hdistinct as [_ Hrest].
  cbn [filter]. destruct (p x); [|exact (IH Hrest)].
  cbn [map distinct]. rewrite (IH Hrest), andb_true_r.
  apply negb_true_iff. apply not_true_is_false. intro Hex.
  apply existsb_exists in Hex as [i [Hi Heq]]. apply Z.eqb_eq in Heq.
  subst i. apply Habs. apply in_map_iff in Hi as [d [Hd Hdin]].
  apply filter_In in Hdin. apply in_map_iff. exists d. tauto.
Qed.

(** ** [findOneAndDelete] *)

Lemma findOneAndDelete_found p (store : Collection) :
  snd (findOneAndDelete p store) = find p store.
Proof.
  induction store as [|x rest IH]; [reflexivity|].
  cbn [findOneAndDelete find]. destruct (p x); [reflexivity|].
  destruct (findOneAndDelete p rest) as [rest' found]. exact IH.
Qed.

Lemma findOneAndDelete_In p (store : Collection) d :
  In d (fst (findOneAndDelete p store)) -> In d store.
Proof.
  induction store as [|x rest IH]; [contradiction|].
  cbn [findOneAndDelete]. destruct (p x); cbn [fst].
  - intro Hin. right. exact Hin.
  - destruct (findOneAndDelete p rest) as [rest' found]. cbn [fst In] in *.
    tauto.
Qed.

Lemma findOneAndDelete_distinct p (store : Collection) :
  distinctIds store = true ->
  distinctIds (fst (findOneAndDelete p store)) = true.
Proof.
  unfold distinctIds. induction store as [|x rest IH]; [reflexivity|].
  intro Hdistinct. cbn [map] in Hdistinct.
  pose proof (distinct_absent _ _ Hdistinct) as Habs.
  cbn [distinct] in Hdistinct. apply andb_true_iff in Hdistinct as [_ Hrest].
  cbn [findOneAndDelete]. destruct (p x); [exact Hrest|].
  pose proof (findOneAndDelete_In p rest) as Hsub.
  destruct (findOneAndDelete p rest) as [rest' found]. cbn [fst] in *.
  cbn [map distinct]. rewrite (IH Hrest), andb_true_r.
  apply negb_true_iff. apply not_true_is_false. intro Hex.
  apply existsb_exists in Hex as [i [Hi Heq]]. apply Z.eqb_eq in Heq.
  subst i. apply Habs. apply in_map_iff in Hi as [d [Hd Hdin]].
  apply in_map_iff. exists d. split; [exact Hd | exact (Hsub d Hdin)].
Qed.

Lemma findOneAndDelete_others p v (store : Collection) :
  (forall d, p d = true -> userId d <> v) ->
  ofUser v (fst (findOneAndDelete p store)) = ofUser v store.
Proof.
  intro Hp. unfold ofUser. induction store as [|x rest IH]; [reflexivity|].
  cbn [findOneAndDelete]. destruct (p x) eqn:Hx; cbn [fst filter].
  - destruct (Z.eqb_spec (userId x) v) as [Hv|_]; [|reflexivity].
    exfalso. exact (Hp x Hx Hv).
  - destruct (findOneAndDelete p rest) as [rest' found]. cbn [fst filter] in *.
    rewrite IH. reflexivity.
Qed.

(** ** One request *)

Lemma owned_inv id user d :
  owned id user d = true -> _id d = id /\ userId d = user.
Proof.
  unfold owned. intro H. apply andb_true_iff in H as [Hid Huser].
  split; apply Z.eqb_eq; assumption.
Qed.

Lemma save_store (store : Collection) n now :
  fst (save store n now)
  = map (rewrite_at (_id n)
           (fun d => with_expiresAt (expiresAt (preSaveExpiry now n))
                       (with_read (isRead n) (readAt n) d)))
        store.
Proof.
  unfold save. cbn [fst]. apply map_ext. intro d. unfold rewrite_at.
  unfold preSaveExpiry. destruct (expiresAt n); reflexivity.
Qed.

Lemma save_isolated (store : Collection) n edited now user v :
  distinctIds store = true ->
  In n store -> _id edited = _id n -> userId n = user -> user <> v ->
  ofUser v (fst (save store edited now)) = ofUser v store /\
  distinctIds (fst (save store edited now)) = true.
Proof.
  intros Hdistinct Hin Hid Huser Hother. rewrite save_store. split.
  - rewrite ofUser_rewrite by reflexivity.
    exact (rewrite_other_user user v _ _ store n Hdistinct Hin
             (eq_sym Hid) Huser Hother).
  - unfold distinctIds. rewrite rewrite_ids by reflexivity. exact Hdistinct.
Qed.

Lemma handle_isolated (store : Collection) user now req v :
  distinctIds store = true ->
  user <> v ->
  ofUser v (fst (handle store user now req)) = ofUser v store /\
  distinctIds (fst (handle store user now req)) = true.
Proof.
  intros Hdistinct Hother. destruct req as [id|id| | |id]; cbn [handle].
  - unfold putRead.
    destruct (find (owned id user) store) as [n|] eqn:Hfind;
      [|split; [reflexivity | exact Hdistinct]].
    apply find_some in Hfind as [Hin Hown].
    apply owned_inv in Hown as [Hid Huser]. unfold markAsRead.
    destruct (save store (with_read true (Some now) n) now)
      as [store' saved] eqn:Hsave. cbn [fst].
    change store' with (fst (store', saved)). rewrite <- Hsave.
    exact (save_isolated store n (with_read true (Some now) n) now user v
             Hdistinct Hin eq_refl Huser Hother).
  - unfold putUnread.
    destruct (find (owned id user) store) as [n|] eqn:Hfind;
      [|split; [reflexivity | exact Hdistinct]].
    apply find_some in Hfind as [Hin Hown].
    apply owned_inv in Hown as [Hid Huser]. unfold markAsUnread.
    destruct (save store (with_read false None n) now)
      as [store' saved] eqn:Hsave. cbn [fst].
    change store' with (fst (store', saved)). rewrite <- Hsave.
    exact (save_isolated store n (with_read false None n) now user v
             Hdistinct Hin eq_refl Huser Hother).
  - unfold putMarkAllRead, markAllAsReadForUser. cbn [fst]. split.
    + unfold ofUser. clear Hdistinct.
      induction store as [|x rest IH]; [reflexivity|].
      cbn [map filter]. destruct (Z.eqb_spec (userId x) user) as [Hx|Hx].
      * cbn [andb]. destruct (negb (isRead x)); cbn [with_read userId];
          (destruct (Z.eqb_spec (userId x) v) as [Hv|_]; [congruence|]);
          exact IH.
      * cbn [andb]. rewrite IH. reflexivity.
    + unfold distinctIds. rewrite map_map.
      rewrite (map_ext _ _id); [exact Hdistinct|].
      intro d. destruct ((userId d =? user) && negb (isRead d)); reflexivity.
  - unfold deleteClearRead, deleteMany. cbn [fst]. split.
    + unfold ofUser. clear Hdistinct.
      induction store as [|x rest IH]; [reflexivity|].
      cbn [filter]. destruct (Z.eqb_spec (userId x) user) as [Hx|Hx].
      * cbn [andb]. destruct (isRead x); cbn [negb filter];
          (destruct (Z.eqb_spec (userId x) v) as [Hv|_]; [congruence|]);
          exact IH.
      * cbn [andb negb filter]. rewrite IH. reflexivity.
    + apply distinct_filter. exact Hdistinct.
  - unfold deleteNotification.
    pose proof (findOneAndDelete_others (owned id user) v store) as Hothers.
    pose proof (findOneAndDelete_distinct (owned id user) store Hdistinct)
      as Hkept.
    destruct (findOneAndDelete (owned id user) store) as [store' [found|]];
      cbn [fst] in *; [|split; [reflexivity | exact Hdistinct]].
    split; [|exact Hkept]. apply Hothers. intros d Hd.
    apply owned_inv in Hd as [_ Hd]. congruence.
Qed.

(** Whatever requests the other users send, in whatever order, the
    notifications of a user who sent none of them stay exactly as
    they were: none is marked, none is deleted and their order is
    kept. The ids of the collection are distinct, as those of a
    MongoDB collection are. *)
Theorem requests_touch_only_the_requester
    (trace : list (ObjectId * Z * Request)) (store : Collection) v :
  distinctIds store = true ->
  forallb (fun r => negb (fst (fst r) =? v)) trace = true ->
  ofUser v (serve store trace) = ofUser v store.
Proof.
  revert store. induction trace as [|[[user now] req] rest IH];
    intros store Hdistinct Hothers; [reflexivity|].
  cbn [forallb fst] in Hothers. apply andb_true_iff in Hothers as [Hu Hrest].
  apply negb_true_iff in Hu. apply Z.eqb_neq in Hu.
  destruct (handle_isolated store user now req v Hdistinct Hu)
    as [Hsame Hkept].
  cbn [serve]. rewrite (IH _ Hkept Hrest). exact Hsame.
Qed.

(** ** Marking everything read; clearing what is read *)

Lemma count_none (p : Notification -> bool) (store : Collection) :
  (forall d, In d store -> p d = false) -> countDocuments p store = 0.
Proof.
  unfold countDocuments. intro Hnone.
  induction store as [|x rest IH]; [reflexivity|].
  cbn [filter]. rewrite (Hnone x (or_introl eq_refl)).
  apply IH. intros d Hd. apply Hnone. right. exact Hd.
Qed.

(** After mark-all-read the unread count of the requester is zero and
    the count in the answer is the unread count from before; no
    notification is added or removed, and a notification that was
    already read stays as it was, with the time at which it was
    read. *)
Theorem mark_all_read_empties_unread (store : Collection) user now :
  snd (putMarkAllRead store user now)
    = sent (withCount (getUnreadCount store user)
                      " notifications marked as read") /\
  getUnreadCount (fst (putMarkAllRead store user now)) user = 0 /\
  map _id (fst (putMarkAllRead store user now)) = map _id store /\
  forall d, In d store -> isRead d = true ->
            In d (fst (putMarkAllRead store user now)).
Proof.
  unfold putMarkAllRead, markAllAsReadForUser. cbn [fst snd].
  split; [reflexivity|]. split; [|split].
  - apply count_none. intros d Hd. apply in_map_iff in Hd as [old [<- _]].
    destruct (Z.eqb_spec (userId old) user) as [Hu|Hu]; cbn [andb].
    + destruct (isRead old) eqn:Hread; cbn [negb].
      * rewrite Hread, andb_false_r. reflexivity.
      * cbn [with_read isRead negb]. apply andb_false_r.
    + apply Z.eqb_neq in Hu. rewrite Hu. reflexivity.
  - rewrite map_map. apply map_ext. intro d.
    destruct ((userId d =? user) && negb (isRead d)); reflexivity.
  - intros d Hd Hread. apply in_map_iff. exists d. split; [|exact Hd].
    rewrite Hread, andb_false_r. reflexivity.
Qed.

(** Clearing the read notifications deletes exactly the requester's
    read ones: the count in the answer is their number, none of them
    is left, every unread notification of the requester is kept in
    order, and so is the unread count. *)
Theorem clear_read_keeps_unread (store : Collection) user :
  snd (deleteClearRead store user)
    = sent (withCount
              (Z.of_nat (List.length (filter isRead (ofUser user store))))
              " read notifications deleted") /\
  filter isRead (ofUser user (fst (deleteClearRead store user))) = [] /\
  filter (fun d => negb (isRead d))
         (ofUser user (fst (deleteClearRead store user)))
    = filter (fun d => negb (isRead d)) (ofUser user store) /\
  getUnreadCount (fst (deleteClearRead store user)) user
    = getUnreadCount store user /\
  (Z.of_nat (List.length (fst (deleteClearRead store user)))
   + Z.of_nat (List.length (filter isRead (ofUser user store)))
   = Z.of_nat (List.length store))%Z.
Proof.
  unfold deleteClearRead, deleteMany, getUnreadCount, countDocuments, ofUser.
  cbn [fst snd]. split; [|split; [|split; [|split]]].
  - do 3 f_equal. induction store as [|x rest IH]; [reflexivity|].
    cbn [filter]. destruct (userId x =? user); cbn [andb filter].
    + destruct (isRead x); cbn [List.length]; rewrite IH; reflexivity.
    + exact IH.
  - induction store as [|x rest IH]; [reflexivity|].
    cbn [filter]. destruct (userId x =? user) eqn:Hu; cbn [andb].
    + destruct (isRead x) eqn:Hr; cbn [negb filter]; [exact IH|].
      rewrite Hu. cbn [filter]. rewrite Hr. exact IH.
    + cbn [negb filter]. rewrite Hu. exact IH.
  - induction store as [|x rest IH]; [reflexivity|].
    cbn [filter]. destruct (userId x =? user) eqn:Hu; cbn [andb].
    + destruct (isRead x) eqn:Hr; cbn [negb filter].
      * rewrite Hr. cbn [negb]. exact IH.
      * rewrite Hu. cbn [filter]. rewrite Hr. cbn [negb]. rewrite IH.
        reflexivity.
    + cbn [negb filter]. rewrite Hu. exact IH.
  - f_equal. f_equal. induction store as [|x rest IH]; [reflexivity|].
    cbn [filter]. destruct (userId x =? user) eqn:Hu; cbn [andb].
    + destruct (isRead x) eqn:Hr; cbn [negb filter].
      * exact IH.
      * rewrite Hu, Hr. cbn [andb negb]. rewrite IH. reflexivity.
    + cbn [negb filter]. rewrite Hu. cbn [andb]. exact IH.
  - induction store as [|x rest IH]; [reflexivity|].
    cbn [filter]. destruct (userId x =? user); cbn [andb].
    + cbn [filter]. destruct (isRead x) eqn:Hr; cbn [negb List.length]; lia.
    + cbn [negb filter List.length]. lia.
Qed.

(** ** Reading one notification and unreading it *)




(** ** The sample inbox *)

Lemma requests_touch_only_the_requester_sample :
  ofUser 2 (serve inbox busy) = ofUser 2 inbox.
Proof.
  exact (requests_touch_only_the_requester busy inbox 2 eq_refl eq_refl).
Defined.


End NotificationFacts.
